(** * strom_visual: the meter-file ingestion engine of [app.py]

    A shallow embedding of the ingestion pipeline of [app.py] (timestamp
    normalisation, the ESL and SDAT parsers, the per-file routing of
    [load_all_data], the merge [add_or_update_messwert], the final sort and
    the two payload builders), followed by the properties established about
    it.

    Conventions of the embedding.
    - Python [str] is [string]; the text is taken to be ASCII.
    - Python [float] is IEEE-754 binary64, taken from the standard
      specification of floating-point numbers ([spec_float], precision 53,
      maximal exponent 1024); NaN is [S754_nan].
    - Python [int] is [Z].
    - A raised exception is a value of [Exc]; [try]/[except] is
      [try_except].
    - [dict] and [OrderedDict] keep insertion order: they are association
      lists with unique keys ([od_get], [od_set]).
    - An XML file is what [ET.parse] makes of it: the tree of its root
      element, [ET.ParseError], or one of the other exceptions of
      [ET.parse]. *)

From Stdlib Require Import ZArith List String Ascii Bool Lia SpecFloat.
From Stdlib Require Import Sorting.Sorted Sorting.Permutation.
Import ListNotations.

Local Open Scope string_scope.
Local Open Scope list_scope.
Local Open Scope Z_scope.

Set Implicit Arguments.
Set Warnings "-register-all".

(* ===================================================================== *)
(** * Exceptions *)
(* ===================================================================== *)

(** The exception classes the engine can meet. [ET.ParseError] is caught
    where [ET.parse] is called: see [xml_file]. *)
Inductive exn : Type :=
| ValueError
| OverflowError
| SyntaxError
| LookupError
| OSError.

Inductive Exc (A : Type) : Type :=
| Ok (a : A)
| Raise (e : exn).

Arguments Ok {A} a.
Arguments Raise {A} e.

Definition bind {A B : Type} (c : Exc A) (k : A -> Exc B) : Exc B :=
  match c with
  | Ok a => k a
  | Raise e => Raise e
  end.

Declare Scope exc_scope.
Delimit Scope exc_scope with exc.
Notation "x <- c ;; k" := (bind c (fun x => k))
  (at level 61, c at next level, right associativity) : exc_scope.
Notation "' p <- c ;; k" := (bind c (fun x => let 'p := x in k))
  (at level 61, p pattern, c at next level, right associativity) : exc_scope.
Local Open Scope exc_scope.

(** [try: c except <classes>: h]. *)
Definition try_except {A : Type} (c : Exc A) (handles : exn -> bool) (h : Exc A) : Exc A :=
  match c with
  | Ok a => Ok a
  | Raise e => if handles e then h else Raise e
  end.

Definition is_ValueError (e : exn) : bool :=
  match e with ValueError => true | _ => false end.

(** [except Exception] handles every class above. *)
Definition is_Exception (e : exn) : bool := true.

(** Python truthiness of an optional string: [None] and [""] are false. *)
Definition truthy (o : option string) : bool :=
  match o with
  | Some (String _ _) => true
  | _ => false
  end.

(** [a or b] on optional strings. *)
Definition py_or (a b : option string) : option string :=
  if truthy a then a else b.

(* ===================================================================== *)
(** * Strings *)
(* ===================================================================== *)

Module Str.

Definition chars (s : string) : list ascii := list_ascii_of_string s.
Definition of_chars (l : list ascii) : string := string_of_list_ascii l.

Definition code (c : ascii) : Z := Z.of_nat (nat_of_ascii c).

Definition is_digit (c : ascii) : bool := (48 <=? code c) && (code c <=? 57).
Definition digit_val (c : ascii) : Z := code c - 48.

(** [str.isspace] on ASCII: tab, LF, VT, FF, CR, FS, GS, RS, US, space. *)
Definition is_space (c : ascii) : bool :=
  let n := code c in
  ((9 <=? n) && (n <=? 13)) || ((28 <=? n) && (n <=? 31)) || (n =? 32).

Definition upper_char (c : ascii) : ascii :=
  let n := code c in
  if (97 <=? n) && (n <=? 122) then ascii_of_nat (Z.to_nat (n - 32)) else c.

Definition eqb_nocase (a b : ascii) : bool :=
  Ascii.eqb (upper_char a) (upper_char b).

Fixpoint lstrip (l : list ascii) : list ascii :=
  match l with
  | c :: l' => if is_space c then lstrip l' else l
  | [] => []
  end.

Definition rstrip (l : list ascii) : list ascii := rev (lstrip (rev l)).

(** [s.strip()] *)
Definition strip (s : string) : string := of_chars (rstrip (lstrip (chars s))).

(** [s.upper()] *)
Definition upper (s : string) : string := of_chars (map upper_char (chars s)).

Fixpoint starts (p l : list ascii) : bool :=
  match p, l with
  | [], _ => true
  | a :: p', b :: l' => Ascii.eqb a b && starts p' l'
  | _ :: _, [] => false
  end.

(** [s.startswith(p)] *)
Definition startswith (s p : string) : bool := starts (chars p) (chars s).

(** [s.endswith(p)] *)
Definition endswith (s p : string) : bool := starts (rev (chars p)) (rev (chars s)).

Fixpoint contains_chars (p l : list ascii) : bool :=
  starts p l || match l with
                | [] => false
                | _ :: l' => contains_chars p l'
                end.

(** [p in s] *)
Definition contains (p s : string) : bool := contains_chars (chars p) (chars s).

(** [s.replace(",", ".")] *)
Definition replace_comma (s : string) : string :=
  of_chars (map (fun c => if Ascii.eqb c "," then "."%char else c) (chars s)).

(** [s[:-1]] *)
Definition drop_last (s : string) : string := of_chars (removelast (chars s)).

End Str.

(* ===================================================================== *)
(** * Numbers: [int(...)] and [float(...)] *)
(* ===================================================================== *)

Definition float : Type := spec_float.

Module Num.

Definition prec : Z := 53.
Definition emax : Z := 1024.

Definition nan : float := S754_nan.
Definition pos_zero : float := S754_zero false.
Definition pos_inf : float := S754_infinity false.

Definition add (x y : float) : float := SFadd prec emax x y.
Definition sub (x y : float) : float := SFsub prec emax x y.
(** [x == y] and [x < y] on floats: false as soon as one side is NaN. *)
Definition eqb (x y : float) : bool := SFeqb x y.
Definition ltb (x y : float) : bool := SFltb x y.

(** [float(n)] for an integer [n] that is exactly representable, used to
    write float literals. *)
Definition of_Z (n : Z) : float := binary_normalize prec emax n 0 false.

(** A run of decimal digits in which single underscores may separate
    digits, after its first digit has been read: the digits seen and the
    rest of the input. *)
Fixpoint digits_tail (l : list ascii) : list Z * list ascii :=
  match l with
  | c :: l' =>
      if Str.is_digit c then
        let '(ds, r) := digits_tail l' in (Str.digit_val c :: ds, r)
      else if Ascii.eqb c "_" then
        match l' with
        | d :: l'' =>
            if Str.is_digit d then
              let '(ds, r) := digits_tail l'' in (Str.digit_val d :: ds, r)
            else ([], l)
        | [] => ([], l)
        end
      else ([], l)
  | [] => ([], l)
  end.

(** [digitpart]: at least one digit. *)
Definition digitpart (l : list ascii) : option (list Z * list ascii) :=
  match l with
  | c :: l' =>
      if Str.is_digit c then
        let '(ds, r) := digits_tail l' in Some (Str.digit_val c :: ds, r)
      else None
  | [] => None
  end.

Definition decimal (ds : list Z) : Z := fold_left (fun acc d => 10 * acc + d) ds 0.

(** An optional sign: [true] for [-]. *)
Definition sign (l : list ascii) : bool * list ascii :=
  match l with
  | c :: l' =>
      if Ascii.eqb c "-" then (true, l')
      else if Ascii.eqb c "+" then (false, l')
      else (false, l)
  | [] => (false, l)
  end.

(** [int(s)] in base 10: surrounding whitespace, an optional sign, digits
    with single underscores between them. *)
Definition py_int (s : string) : Exc Z :=
  let '(neg, l) := sign (Str.chars (Str.strip s)) in
  match digitpart l with
  | Some (ds, []) => Ok (if neg then - decimal ds else decimal ds)
  | _ => Raise ValueError
  end.

(** The binary64 nearest to [m * 10^e] (ties to even), for [0 < m]. *)
Definition of_decimal (neg : bool) (m e : Z) : float :=
  match m with
  | Zpos p =>
      if 0 <=? e then
        binary_normalize prec emax (if neg then - (m * 10 ^ e) else m * 10 ^ e) 0 false
      else
        let '(q, e', l) := SFdiv_core_binary prec emax m 0 (10 ^ (- e)) 0 in
        binary_round_aux prec emax neg q e' l
  | _ => S754_zero neg
  end.

Definition same_nocase (w : string) (l : list ascii) : bool :=
  (List.length l =? List.length (Str.chars w))%nat
  && forallb (fun p => Str.eqb_nocase (fst p) (snd p)) (combine (Str.chars w) l).

(** The optional exponent of a float literal. [None]: malformed. *)
Definition exponent (l : list ascii) : option Z :=
  match l with
  | [] => Some 0
  | c :: l' =>
      if Str.eqb_nocase c "e" then
        let '(neg, l'') := sign l' in
        match digitpart l'' with
        | Some (ds, []) => Some (if neg then - decimal ds else decimal ds)
        | _ => None
        end
      else None
  end.

(** [digitpart ["."] | [digitpart] "." digitpart], then the exponent. *)
Definition floatnumber (neg : bool) (l : list ascii) : Exc float :=
  let finish (ints fracs : list Z) (rest : list ascii) : Exc float :=
    match exponent rest with
    | Some e =>
        Ok (of_decimal neg (decimal (ints ++ fracs)) (e - Z.of_nat (List.length fracs)))
    | None => Raise ValueError
    end in
  match digitpart l with
  | Some (ints, r) =>
      match r with
      | c :: r' =>
          if Ascii.eqb c "." then
            match digitpart r' with
            | Some (fracs, r'') => finish ints fracs r''
            | None => finish ints [] r'
            end
          else finish ints [] r
      | [] => finish ints [] r
      end
  | None =>
      match l with
      | c :: r' =>
          if Ascii.eqb c "." then
            match digitpart r' with
            | Some (fracs, r'') => finish [] fracs r''
            | None => Raise ValueError
            end
          else Raise ValueError
      | [] => Raise ValueError
      end
  end.

(** [float(s)]: surrounding whitespace, an optional sign, then [inf],
    [infinity] or [nan] in any case, or a decimal literal. *)
Definition py_float (s : string) : Exc float :=
  let '(neg, l) := sign (Str.chars (Str.strip s)) in
  if same_nocase "inf" l || same_nocase "infinity" l then Ok (S754_infinity neg)
  else if same_nocase "nan" l then Ok S754_nan
  else floatnumber neg l.

End Num.

(* ===================================================================== *)
(** * Dates and times: [datetime], [timedelta], [timezone.utc] *)
(* ===================================================================== *)

Module DT.

(** A [datetime] object: its wall-clock reading, counted in microseconds
    from 0001-01-01T00:00:00, and the UTC offset of its [tzinfo] in
    microseconds ([None] for a naive value). *)
Record datetime : Type := { wall : Z; tzinfo : option Z }.

(** A [datetime] whose [tzinfo] is [timezone.utc]. Python compares, hashes
    and orders aware values by their instant, so such a value is its
    number of microseconds since 0001-01-01T00:00:00Z. These are the keys
    of every [MeterSeries]. *)
Definition utc_datetime : Type := Z.

(** A [timedelta], in microseconds. *)
Definition timedelta : Type := Z.

Definition is_leap (y : Z) : bool :=
  (y mod 4 =? 0) && (negb (y mod 100 =? 0) || (y mod 400 =? 0)).

Definition days_before_year (y : Z) : Z :=
  let p := y - 1 in p * 365 + p / 4 - p / 100 + p / 400.

Definition days_in_month (y m : Z) : Z :=
  if m =? 2 then (if is_leap y then 29 else 28)
  else if (m =? 4) || (m =? 6) || (m =? 9) || (m =? 11) then 30
  else 31.

Definition days_before_month (y m : Z) : Z :=
  nth (Z.to_nat (m - 1)) [0; 31; 59; 90; 120; 151; 181; 212; 243; 273; 304; 334] 0
  + (if (2 <? m) && is_leap y then 1 else 0).

(** Proleptic Gregorian ordinal: 0001-01-01 is day 1. *)
Definition ymd2ord (y m d : Z) : Z :=
  days_before_year y + days_before_month y m + d.

Definition us_per_second : Z := 1000000.
Definition us_per_day : Z := 86400 * us_per_second.

Definition wall_of (y mo d h mi s us : Z) : Z :=
  (ymd2ord y mo d - 1) * us_per_day + ((h * 60 + mi) * 60 + s) * us_per_second + us.

(** [datetime.max], 9999-12-31T23:59:59.999999. *)
Definition max_wall : Z := wall_of 9999 12 31 23 59 59 999999.

Definition in_range (w : Z) : bool := (0 <=? w) && (w <=? max_wall).

Definition between (lo x hi : Z) : bool := (lo <=? x) && (x <=? hi).

(** [timezone(timedelta(...))] wants an offset strictly between -24 h and
    24 h. *)
Definition valid_offset (off : Z) : bool := (- us_per_day <? off) && (off <? us_per_day).

(** The constructor [datetime(y, mo, d, h, mi, s, us, tzinfo)]. *)
Definition make (y mo d h mi s us : Z) (tz : option Z) : Exc datetime :=
  if between 1 y 9999 && between 1 mo 12 && between 1 d (days_in_month y mo)
     && between 0 h 23 && between 0 mi 59 && between 0 s 59 && between 0 us 999999
     && match tz with Some off => valid_offset off | None => true end
  then Ok {| wall := wall_of y mo d h mi s us; tzinfo := tz |}
  else Raise ValueError.

(** The instant a [datetime] denotes; a naive value is read as UTC, which
    is how [ensure_datetime_utc] reads it. *)
Definition utc_instant (dt : datetime) : Z :=
  match tzinfo dt with
  | Some off => wall dt - off
  | None => wall dt
  end.

(** [dt.replace(tzinfo=timezone.utc)] on a naive value. *)
Definition replace_tzinfo_utc (dt : datetime) : utc_datetime := wall dt.

(** [dt.astimezone(timezone.utc)] on an aware value: subtracting the
    offset leaves the range of [datetime] with [OverflowError]. *)
Definition astimezone_utc (dt : datetime) : Exc utc_datetime :=
  let w := utc_instant dt in
  if in_range w then Ok w else Raise OverflowError.

(** ** [timedelta] arithmetic *)

Definition min_timedelta : Z := - 999999999 * us_per_day.
Definition max_timedelta : Z := 1000000000 * us_per_day - 1.

Definition check_timedelta (us : Z) : Exc timedelta :=
  if between min_timedelta us max_timedelta then Ok us else Raise OverflowError.

Definition timedelta_minutes (n : Z) : Exc timedelta := check_timedelta (n * 60 * us_per_second).
Definition timedelta_hours (n : Z) : Exc timedelta := check_timedelta (n * 3600 * us_per_second).
Definition timedelta_seconds (n : Z) : Exc timedelta := check_timedelta (n * us_per_second).

(** [n * td] *)
Definition timedelta_mul (n : Z) (td : timedelta) : Exc timedelta := check_timedelta (n * td).

(** [dt + td] on an aware UTC value. *)
Definition add_timedelta (dt : utc_datetime) (td : timedelta) : Exc utc_datetime :=
  if in_range (dt + td) then Ok (dt + td) else Raise OverflowError.

(** ** [datetime.fromisoformat]

    The format every Python 3 release with [fromisoformat] reads:
    [YYYY-MM-DD[*HH[:MM[:SS[.fff[fff]]]][+HH:MM[:SS[.ffffff]]]]], where
    [*] is any one character. Releases since 3.11 read further ISO 8601
    spellings. *)

(** Exactly [n] digits, then the rest. *)
Fixpoint digits_n (n : nat) (acc : Z) (l : list ascii) : option (Z * list ascii) :=
  match n with
  | O => Some (acc, l)
  | S n' =>
      match l with
      | c :: l' =>
          if Str.is_digit c then digits_n n' (10 * acc + Str.digit_val c) l' else None
      | [] => None
      end
  end.

Definition expect (ch : ascii) (l : list ascii) : option (list ascii) :=
  match l with
  | c :: l' => if Ascii.eqb c ch then Some l' else None
  | [] => None
  end.

(** [YYYY-MM-DD] *)
Definition parse_isoformat_date (l : list ascii) : option (Z * Z * Z * list ascii) :=
  match digits_n 4 0 l with
  | Some (y, l1) =>
      match expect "-" l1 with
      | Some l2 =>
          match digits_n 2 0 l2 with
          | Some (m, l3) =>
              match expect "-" l3 with
              | Some l4 =>
                  match digits_n 2 0 l4 with
                  | Some (d, l5) => Some (y, m, d, l5)
                  | None => None
                  end
              | None => None
              end
          | None => None
          end
      | None => None
      end
  | None => None
  end.

(** [.fff] or [.ffffff] up to the end of the input. *)
Definition parse_fraction (l : list ascii) : option Z :=
  match expect "." l with
  | Some f =>
      match List.length f with
      | 3%nat => match digits_n 3 0 f with Some (v, _) => Some (v * 1000) | None => None end
      | 6%nat => match digits_n 6 0 f with Some (v, _) => Some v | None => None end
      | _ => None
      end
  | None => None
  end.

(** [HH[:MM[:SS[.fff[fff]]]]] up to the end of the input. *)
Definition parse_hh_mm_ss_ff (l : list ascii) : option (Z * Z * Z * Z) :=
  match digits_n 2 0 l with
  | Some (h, []) => Some (h, 0, 0, 0)
  | Some (h, l1) =>
      match expect ":" l1 with
      | Some l2 =>
          match digits_n 2 0 l2 with
          | Some (mi, []) => Some (h, mi, 0, 0)
          | Some (mi, l3) =>
              match expect ":" l3 with
              | Some l4 =>
                  match digits_n 2 0 l4 with
                  | Some (s, []) => Some (h, mi, s, 0)
                  | Some (s, l5) =>
                      match parse_fraction l5 with
                      | Some us => Some (h, mi, s, us)
                      | None => None
                      end
                  | None => None
                  end
              | None => None
              end
          | None => None
          end
      | None => None
      end
  | None => None
  end.

(** The input up to the first [+] or [-], that sign, and what follows. *)
Fixpoint split_at_sign (l : list ascii) : list ascii * option (bool * list ascii) :=
  match l with
  | [] => ([], None)
  | c :: l' =>
      if Ascii.eqb c "-" then ([], Some (true, l'))
      else if Ascii.eqb c "+" then ([], Some (false, l'))
      else let '(t, z) := split_at_sign l' in (c :: t, z)
  end.

(** The offset after the sign: [HH:MM], [HH:MM:SS] or [HH:MM:SS.ffffff].
    CPython counts the offset in whole seconds first: when these are zero
    the zone is [timezone.utc], whatever the fraction says; otherwise the
    fraction is part of the offset. *)
Definition parse_tz (neg : bool) (l : list ascii) : option Z :=
  match List.length l with
  | 5%nat | 8%nat | 15%nat =>
      match parse_hh_mm_ss_ff l with
      | Some (h, mi, s, us) =>
          let tzoffset := (h * 60 + mi) * 60 + s in
          if tzoffset =? 0 then Some 0
          else
            let off := tzoffset * us_per_second + us in
            Some (if neg then - off else off)
      | None => None
      end
  | _ => None
  end.

Definition fromisoformat (date_string : string) : Exc datetime :=
  match parse_isoformat_date (Str.chars date_string) with
  | Some (y, mo, d, []) => make y mo d 0 0 0 0 None
  | Some (y, mo, d, _sep :: tstr) =>
      let '(timestr, z) := split_at_sign tstr in
      match parse_hh_mm_ss_ff timestr with
      | Some (h, mi, s, us) =>
          match z with
          | None => make y mo d h mi s us None
          | Some (neg, tzstr) =>
              match parse_tz neg tzstr with
              | Some off => make y mo d h mi s us (Some off)
              | None => Raise ValueError
              end
          end
      | None => Raise ValueError
      end
  | None => Raise ValueError
  end.

(** ** [datetime.strptime]

    A format is a list of tokens. As in [_strptime], a directive is a
    regular expression whose alternatives are tried in order, a blank in
    the format stands for [\s+], other characters match themselves in any
    case, the first match of the whole expression is taken, and text left
    after it is an error. *)
Inductive directive : Type := dir_Y | dir_m | dir_d | dir_H | dir_M | dir_S.

Inductive token : Type :=
| Dir (d : directive)
| Lit (c : ascii)
| Blank.

(** One alternative of two characters [c1 c2] with [c1] in [lo1..hi1] and
    [c2] in [lo2..hi2], read as a two-digit number. *)
Definition alt2 (lo1 hi1 lo2 hi2 : Z) (l : list ascii) : list (Z * list ascii) :=
  match l with
  | c1 :: c2 :: r =>
      if Str.is_digit c1 && Str.is_digit c2
         && between lo1 (Str.digit_val c1) hi1 && between lo2 (Str.digit_val c2) hi2
      then [(10 * Str.digit_val c1 + Str.digit_val c2, r)] else []
  | _ => []
  end.

(** One alternative of a single digit in [lo..hi]. *)
Definition alt1 (lo hi : Z) (l : list ascii) : list (Z * list ascii) :=
  match l with
  | c :: r =>
      if Str.is_digit c && between lo (Str.digit_val c) hi then [(Str.digit_val c, r)] else []
  | _ => []
  end.

(** The alternative [" [1-9]"] of [%d]. *)
Definition alt_blank_digit (l : list ascii) : list (Z * list ascii) :=
  match l with
  | c :: r => if Ascii.eqb c " " then alt1 1 9 r else []
  | _ => []
  end.

Definition directive_alts (d : directive) (l : list ascii) : list (Z * list ascii) :=
  match d with
  | dir_Y => match digits_n 4 0 l with Some p => [p] | None => [] end
  | dir_m => alt2 1 1 0 2 l ++ alt2 0 0 1 9 l ++ alt1 1 9 l
  | dir_d => alt2 3 3 0 1 l ++ alt2 1 2 0 9 l ++ alt2 0 0 1 9 l ++ alt1 1 9 l
             ++ alt_blank_digit l
  | dir_H => alt2 2 2 0 3 l ++ alt2 0 1 0 9 l ++ alt1 0 9 l
  | dir_M => alt2 0 5 0 9 l ++ alt1 0 9 l
  | dir_S => alt2 6 6 0 1 l ++ alt2 0 5 0 9 l ++ alt1 0 9 l
  end.

(** [\s+], longest run first. *)
Fixpoint blanks (l : list ascii) : list (list ascii) :=
  match l with
  | c :: r => if Str.is_space c then blanks r ++ [r] else []
  | [] => []
  end.

Fixpoint match_tokens (ts : list token) (vals : list Z) (l : list ascii)
  : list (list Z * list ascii) :=
  match ts with
  | [] => [(vals, l)]
  | Dir d :: ts' =>
      flat_map (fun p => match_tokens ts' (vals ++ [fst p]) (snd p)) (directive_alts d l)
  | Lit c :: ts' =>
      match l with
      | c' :: r => if Str.eqb_nocase c c' then match_tokens ts' vals r else []
      | [] => []
      end
  | Blank :: ts' => flat_map (match_tokens ts' vals) (blanks l)
  end.

(** [datetime.strptime(s, fmt)] for a format that gives year, month, day,
    hour, minute and second in this order. *)
Definition strptime (s : string) (fmt : list token) : Exc datetime :=
  match match_tokens fmt [] (Str.chars s) with
  | ([y; mo; d; h; mi; sec], []) :: _ => make y mo d h mi sec 0 None
  | _ => Raise ValueError
  end.

Definition date_fields : list token :=
  [Dir dir_Y; Lit "-"; Dir dir_m; Lit "-"; Dir dir_d].
Definition time_fields : list token :=
  [Dir dir_H; Lit ":"; Dir dir_M; Lit ":"; Dir dir_S].

(** ["%Y-%m-%dT%H:%M:%S"] and ["%Y-%m-%d %H:%M:%S"] *)
Definition fmt_T : list token := date_fields ++ [Lit "T"] ++ time_fields.
Definition fmt_blank : list token := date_fields ++ [Blank] ++ time_fields.

End DT.

Import DT.

(** The first half of [ensure_datetime_utc], up to the parsed [dt]: a
    trailing [Z] becomes [+00:00] for [fromisoformat]; the two fallback
    formats are tried on [dt_str] itself, and when both fail the
    [ValueError] of [fromisoformat] is raised again. *)
Definition parse_datetime (dt_str : string) : Exc datetime :=
  let s := Str.strip dt_str in
  let s := if Str.endswith s "Z" then String.append (Str.drop_last s) "+00:00" else s in
  try_except (fromisoformat s) is_ValueError
    (try_except (strptime dt_str fmt_T) is_ValueError
       (try_except (strptime dt_str fmt_blank) is_ValueError
          (Raise ValueError))).

(** [ensure_datetime_utc]: parse many ISO-ish formats to a timezone-aware
    UTC [datetime]. *)
Definition ensure_datetime_utc (dt_str : string) : Exc utc_datetime :=
  dt <- parse_datetime dt_str ;;
  match tzinfo dt with
  | None => Ok (replace_tzinfo_utc dt)
  | Some _ => astimezone_utc dt
  end.

(* ===================================================================== *)
(** * XML trees: [xml.etree.ElementTree] *)
(* ===================================================================== *)

Module ET.

(** An [Element]: tag, attributes, text, children, tail. The parser
    expands a namespace prefix: an element written [p:Name] with [p]
    bound to [uri] has the tag ["{uri}Name"]. *)
Inductive Element : Type :=
| Elem (tag : string) (attrib : list (string * string)) (text : option string)
       (children : list Element) (tail : option string).

Definition tag (e : Element) : string := let 'Elem t _ _ _ _ := e in t.
Definition attrib (e : Element) : list (string * string) := let 'Elem _ a _ _ _ := e in a.
Definition text (e : Element) : option string := let 'Elem _ _ t _ _ := e in t.
Definition children (e : Element) : list Element := let 'Elem _ _ _ c _ := e in c.
Definition tail (e : Element) : option string := let 'Elem _ _ _ _ t := e in t.

(** The exceptions of [ET.parse(path)] that are not an [ET.ParseError]:
    the parser supports single-byte encodings only and raises [ValueError]
    for a document that declares a multi-byte one and [LookupError] for one
    that declares an encoding Python does not know; a file that cannot be
    opened or read is an [OSError]. *)
Inductive parse_failure : Type :=
| multi_byte_encoding
| unknown_encoding
| unreadable.

Definition raised (f : parse_failure) : exn :=
  match f with
  | multi_byte_encoding => ValueError
  | unknown_encoding => LookupError
  | unreadable => OSError
  end.

(** What [ET.parse(path)] makes of a file: [ET.ParseError] for text that
    is not well-formed, a tree, or one of the exceptions above. *)
Inductive xml_file : Type :=
| ParseError
| Document (root : Element)
| Failure (f : parse_failure).

(** [e.attrib.get(k)] *)
Fixpoint get (k : string) (a : list (string * string)) : option string :=
  match a with
  | [] => None
  | (k', v) :: a' => if String.eqb k k' then Some v else get k a'
  end.

(** [e.attrib.get(k, "")] *)
Definition get_default (k : string) (a : list (string * string)) : string :=
  match get k a with Some v => v | None => "" end.

(** [e.iter()]: the element and its descendants, in document order. *)
Fixpoint iter (e : Element) : list Element :=
  match e with
  | Elem _ _ _ cs _ =>
      e :: (fix iter_all (l : list Element) : list Element :=
              match l with
              | [] => []
              | c :: l' => iter c ++ iter_all l'
              end) cs
  end.

Definition descendants (e : Element) : list Element := flat_map iter (children e).

Definition nonempty (t : option string) : list string :=
  match t with
  | Some (String a s) => [String a s]
  | _ => []
  end.

(** [e.itertext()] *)
Fixpoint itertext (e : Element) : list string :=
  match e with
  | Elem _ _ t cs _ =>
      nonempty t ++
      (fix itertext_all (l : list Element) : list string :=
         match l with
         | [] => []
         | c :: l' => itertext c ++ nonempty (tail c) ++ itertext_all l'
         end) cs
  end.

(** ["".join(e.itertext())] *)
Definition text_content (e : Element) : string := String.concat "" (itertext e).

(** A step [prefix:name] of a path is resolved through the [namespaces]
    argument of [find]/[findall]. The engine never passes one, and then
    such a step raises [SyntaxError] ("prefix not found in prefix map")
    while the path is compiled, before any element is looked at. *)
Definition has_prefix (name : string) : bool :=
  negb (Str.startswith name "{") && Str.contains ":" name.

(** [e.findall(".//" + name)] for a [name] without wildcard: the proper
    descendants of [e] that carry this tag, in document order. *)
Definition findall (e : Element) (name : string) : Exc (list Element) :=
  if has_prefix name then Raise SyntaxError
  else Ok (filter (fun d => String.eqb (tag d) name) (descendants e)).

(** [e.find(".//" + name)]: the first of them, or [None]. *)
Definition find (e : Element) (name : string) : Exc (option Element) :=
  l <- findall e name ;; Ok (hd_error l).

End ET.

Import ET.

(* ===================================================================== *)
(** * Insertion-ordered dictionaries *)
(* ===================================================================== *)

Section OrderedDict.
Variables K V : Type.
Variable eqb : K -> K -> bool.

(** [d.get(k)] *)
Fixpoint od_get (k : K) (d : list (K * V)) : option V :=
  match d with
  | [] => None
  | (k', v) :: d' => if eqb k k' then Some v else od_get k d'
  end.

(** [d[k] = v]: a present key keeps its place, a new key goes last. *)
Fixpoint od_set (k : K) (v : V) (d : list (K * V)) : list (K * V) :=
  match d with
  | [] => [(k, v)]
  | (k', v') :: d' => if eqb k k' then (k', v) :: d' else (k', v') :: od_set k v d'
  end.

(** [d.keys()] *)
Definition od_keys (d : list (K * V)) : list K := map fst d.

(** [k in d] *)
Definition od_mem (k : K) (d : list (K * V)) : bool :=
  match od_get k d with Some _ => true | None => false end.
End OrderedDict.

(* ===================================================================== *)
(** * Domain models and containers *)
(* ===================================================================== *)

Record Messwert : Type :=
  { timestamp : utc_datetime;
    value : float;       (* absolute meter reading *)
    relative : float }.  (* relative consumption *)

Definition MeterSeries : Type := list (utc_datetime * Messwert).
Definition AllMeters : Type := list (string * MeterSeries).

Definition METER_EXPORT_ID : string := "ID735".
Definition METER_IMPORT_ID : string := "ID742".

Definition OBIS_IMPORT : list string := [":1.8.1"; ":1.8.2"].
Definition OBIS_EXPORT : list string := [":2.8.1"; ":2.8.2"].

Definition series_get : utc_datetime -> MeterSeries -> option Messwert := od_get Z.eqb.
Definition series_set : utc_datetime -> Messwert -> MeterSeries -> MeterSeries := od_set Z.eqb.
Definition meters_get : string -> AllMeters -> option MeterSeries := od_get String.eqb.
Definition meters_set : string -> MeterSeries -> AllMeters -> AllMeters := od_set String.eqb.

Definition or_nan (o : option float) : float :=
  match o with Some v => v | None => Num.nan end.

(** [add_or_update_messwert(series, ts, value=..., relative=...)]; the
    series is mutated in place and is returned here. *)
Definition add_or_update_messwert (series : MeterSeries) (ts : utc_datetime)
    (value_ relative_ : option float) : MeterSeries :=
  match series_get ts series with
  | None =>
      series_set ts {| timestamp := ts; value := or_nan value_; relative := or_nan relative_ |}
        series
  | Some existing =>
      (* Update existing, preferring provided values *)
      let existing :=
        match value_ with
        | Some v => {| timestamp := timestamp existing; value := v; relative := relative existing |}
        | None => existing
        end in
      let existing :=
        match relative_ with
        | Some r => {| timestamp := timestamp existing; value := value existing; relative := r |}
        | None => existing
        end in
      series_set ts existing series
  end.

(** [meters.setdefault(meter_id, OrderedDict())], for its effect on
    [meters]. *)
Definition setdefault (meter_id : string) (meters : AllMeters) : AllMeters :=
  match meters_get meter_id meters with
  | Some _ => meters
  | None => meters_set meter_id [] meters
  end.

(** The series that [setdefault] returned is the object stored in [meters]:
    mutating it changes the entry of [meter_id], which keeps its place. *)
Definition mutate_series (meter_id : string) (f : MeterSeries -> MeterSeries)
    (meters : AllMeters) : AllMeters :=
  match meters_get meter_id meters with
  | Some series => meters_set meter_id (f series) meters
  | None => meters
  end.

(** A [for] loop whose body may raise. *)
Fixpoint for_each {A S : Type} (body : A -> S -> Exc S) (l : list A) (s : S) : Exc S :=
  match l with
  | [] => Ok s
  | a :: l' => s' <- body a s ;; for_each body l' s'
  end.

(* ===================================================================== *)
(** * SDAT parsing (relative values) *)
(* ===================================================================== *)

Definition ns_candidates : list string := ["rsm"; "h1"; "ns0"; "ns1"; ""].

(** [f"{p}:{suffix}" if p else suffix] *)
Definition qualified (p suffix : string) : string :=
  match p with
  | "" => suffix
  | _ => String.append p (String.append ":" suffix)
  end.

(** The inner loop of [find_text], over [tag_suffixes], for one prefix. *)
Fixpoint find_text_suffixes (root : Element) (p : string) (tag_suffixes : list string)
  : Exc (option string) :=
  match tag_suffixes with
  | [] => Ok None
  | suffix :: rest =>
      el <- find root (qualified p suffix) ;;
      match el with
      | Some e =>
          match text e with
          | Some (String a s) => Ok (Some (Str.strip (String a s)))
          | _ => find_text_suffixes root p rest
          end
      | None => find_text_suffixes root p rest
      end
  end.

(** The outer loop of [find_text], over the prefixes. *)
Fixpoint find_text_prefixes (root : Element) (ps : list string) (tag_suffixes : list string)
  : Exc (option string) :=
  match ps with
  | [] => Ok None
  | p :: ps' =>
      r <- find_text_suffixes root p tag_suffixes ;;
      match r with
      | Some t => Ok (Some t)
      | None => find_text_prefixes root ps' tag_suffixes
      end
  end.

Definition find_text (root : Element) (tag_suffixes : list string) : Exc (option string) :=
  find_text_prefixes root ns_candidates tag_suffixes.

(** [find_text(a) or find_text(b)] *)
Definition find_text_or (root : Element) (a b : list string) : Exc (option string) :=
  r <- find_text root a ;;
  if truthy r then Ok r else find_text root b.

(** [re.search(r"ID(\d+)", s)]: the digits of the leftmost [ID] that is
    followed by a digit. *)
Fixpoint search_ID (l : list ascii) : option (list ascii) :=
  match l with
  | [] => None
  | c :: l' =>
      match l with
      | "I"%char :: "D"%char :: d :: r =>
          if Str.is_digit d
          then Some (d :: (fix digits (x : list ascii) : list ascii :=
                             match x with
                             | y :: x' => if Str.is_digit y then y :: digits x' else []
                             | [] => []
                             end) r)
          else search_ID l'
      | _ => search_ID l'
      end
  end.

(** [for p in ns_candidates: observations.extend(root.findall(...))] *)
Fixpoint find_observations (root : Element) (ps : list string) : Exc (list Element) :=
  match ps with
  | [] => Ok []
  | p :: ps' =>
      here <- findall root (qualified p "Observation") ;;
      rest <- find_observations root ps' ;;
      Ok (here ++ rest)
  end.

(** The two search loops inside the observation loop: the stripped text of
    the first [p:name] descendant that has text, over the prefixes. *)
Fixpoint first_text (obs : Element) (ps : list string) (name : string) : Exc (option string) :=
  match ps with
  | [] => Ok None
  | p :: ps' =>
      el <- find obs (qualified p name) ;;
      match el with
      | Some e =>
          match text e with
          | Some (String a s) => Ok (Some (Str.strip (String a s)))
          | _ => first_text obs ps' name
          end
      | None => first_text obs ps' name
      end
  end.

(** The body of [for obs in observations]. *)
Definition sdat_observation (meter_id : string) (start_dt : utc_datetime) (step : timedelta)
    (obs : Element) (meters : AllMeters) : Exc AllMeters :=
  seq_text <- first_text obs ns_candidates "Sequence" ;;
  vol_text <- first_text obs ns_candidates "Volume" ;;
  match seq_text, vol_text with
  | Some (String a s), Some (String b v) =>
      let numbers :=
        try_except
          (seq <- Num.py_int (String a s) ;;
           vol <- Num.py_float (Str.replace_comma (String b v)) ;;
           Ok (Some (seq, vol)))
          is_ValueError (Ok None) in
      r <- numbers ;;
      match r with
      | Some (seq, vol) =>
          offset <- timedelta_mul (seq - 1) step ;;
          ts <- add_timedelta start_dt offset ;;
          Ok (mutate_series meter_id
                (fun series => add_or_update_messwert series ts None (Some vol)) meters)
      | None => Ok meters
      end
  | _, _ => Ok meters
  end.

(** [parse_sdat_file(path, meters)]: the returned flag and [meters] after
    the call. *)
Definition parse_sdat_file (file : xml_file) (meters : AllMeters) : Exc (bool * AllMeters) :=
  match file with
  | ParseError => Ok (false, meters)
  | Failure f => Raise (raised f)
  | Document root =>
      let text_content := text_content root in
      if negb (Str.contains "DocumentID" text_content)
         && negb (Str.contains "Interval" text_content)
      then Ok (false, meters)
      else
        document_id <- find_text root ["DocumentID"] ;;
        match document_id with
        | Some (String a s) =>
            match search_ID (Str.chars (String a s)) with
            | None => Ok (false, meters)
            | Some digits =>
                let meter_id := String.append "ID" (Str.of_chars digits) in
                start_text <- find_text_or root ["StartDateTime"] ["StartTime"; "Start"] ;;
                _end_text <- find_text_or root ["EndDateTime"] ["EndTime"; "End"] ;;
                res_value <- find_text root ["Resolution"] ;;
                res_unit <- find_text root ["Unit"] ;;
                match start_text, res_value, res_unit with
                | Some (String a1 s1), Some (String a2 s2), Some (String a3 s3) =>
                    let parsed :=
                      try_except
                        (start_dt <- ensure_datetime_utc (String a1 s1) ;;
                         resolution <- Num.py_int (String a2 s2) ;;
                         Ok (Some (start_dt, resolution)))
                        is_Exception (Ok None) in
                    r <- parsed ;;
                    match r with
                    | None => Ok (false, meters)
                    | Some (start_dt, resolution) =>
                        let unit := Str.upper (String a3 s3) in
                        step <- (if Str.startswith unit "MIN" then timedelta_minutes resolution
                                 else if Str.startswith unit "H" then timedelta_hours resolution
                                 else if Str.startswith unit "S" then timedelta_seconds resolution
                                 else timedelta_minutes resolution) ;;
                        observations <- find_observations root ns_candidates ;;
                        match observations with
                        | [] => Ok (false, meters)
                        | _ :: _ =>
                            let meters := setdefault meter_id meters in
                            meters <- for_each (sdat_observation meter_id start_dt step)
                                        observations meters ;;
                            Ok (true, meters)
                        end
                    end
                | _, _, _ => Ok (false, meters)
                end
            end
        | _ => Ok (false, meters)
        end
  end.

(* ===================================================================== *)
(** * ESL parsing (absolute values) *)
(* ===================================================================== *)

(** The running sums of one [TimePeriod]. *)
Record esl_sums : Type :=
  { sum_import : float;
    sum_export : float;
    import_present : bool;
    export_present : bool }.

Definition esl_sums_init : esl_sums :=
  {| sum_import := Num.pos_zero; sum_export := Num.pos_zero;
     import_present := false; export_present := false |}.

(** [any(suffix in obis for suffix in codes)] *)
Definition any_in (codes : list string) (obis : string) : bool :=
  existsb (fun suffix => Str.contains suffix obis) codes.

(** The body of [for vr in tp.findall(".//ValueRow")]. *)
Definition esl_value_row (vr : Element) (acc : esl_sums) : Exc esl_sums :=
  let obis := get_default "obis" (attrib vr) in
  let val_text :=
    match py_or (py_or (get "value" (attrib vr)) (get "val" (attrib vr))) (Some "") with
    | Some t => t
    | None => ""
    end in
  try_except
    (val <- Num.py_float (Str.replace_comma val_text) ;;
     if any_in OBIS_IMPORT obis then
       Ok {| sum_import := Num.add (sum_import acc) val; sum_export := sum_export acc;
             import_present := true; export_present := export_present acc |}
     else if any_in OBIS_EXPORT obis then
       Ok {| sum_import := sum_import acc; sum_export := Num.add (sum_export acc) val;
             import_present := import_present acc; export_present := true |}
     else Ok acc)
    is_ValueError (Ok acc).

(** The body of [for tp in time_periods]. *)
Definition esl_time_period (tp : Element) (meters : AllMeters) : Exc AllMeters :=
  match py_or (get "end" (attrib tp)) (get "End" (attrib tp)) with
  | Some (String a s) =>
      ts <- ensure_datetime_utc (String a s) ;;
      rows <- findall tp "ValueRow" ;;
      sums <- for_each esl_value_row rows esl_sums_init ;;
      let meters :=
        if import_present sums then
          mutate_series METER_IMPORT_ID
            (fun series => add_or_update_messwert series ts (Some (sum_import sums)) None)
            (setdefault METER_IMPORT_ID meters)
        else meters in
      let meters :=
        if export_present sums then
          mutate_series METER_EXPORT_ID
            (fun series => add_or_update_messwert series ts (Some (sum_export sums)) None)
            (setdefault METER_EXPORT_ID meters)
        else meters in
      Ok meters
  | _ =>
      (* Some exports use 'start' only; skip if no end *)
      Ok meters
  end.

(** [parse_esl_file(path, meters)]: the returned flag and [meters] after the
    call. *)
Definition parse_esl_file (file : xml_file) (meters : AllMeters) : Exc (bool * AllMeters) :=
  match file with
  | ParseError => Ok (false, meters)
  | Failure f => Raise (raised f)
  | Document root =>
      time_periods <- findall root "TimePeriod" ;;
      match time_periods with
      | [] => Ok (false, meters)
      | _ :: _ =>
          meters <- for_each esl_time_period time_periods meters ;;
          Ok (true, meters)
      end
  end.

(* ===================================================================== *)
(** * Loading all XML files *)
(* ===================================================================== *)

(** The body of the innermost loop of [load_all_data], for one [.xml] file:
    try ESL first, then SDAT; if neither, skip silently. *)
Definition load_file (file : xml_file) (meters : AllMeters) : Exc AllMeters :=
  '(parsed, meters) <- parse_esl_file file meters ;;
  if negb parsed then
    '(_, meters) <- parse_sdat_file file meters ;;
    Ok meters
  else Ok meters.

(** The same loop body, keeping a record of the parsers it calls. *)
Inductive parser_call : Type := call_parse_esl_file | call_parse_sdat_file.

Definition load_file_calls (file : xml_file) (meters : AllMeters)
  : list parser_call * Exc AllMeters :=
  match parse_esl_file file meters with
  | Raise e => ([call_parse_esl_file], Raise e)
  | Ok (parsed, meters) =>
      if negb parsed then
        ([call_parse_esl_file; call_parse_sdat_file],
         '(_, meters) <- parse_sdat_file file meters ;; Ok meters)
      else ([call_parse_esl_file], Ok meters)
  end.

(** [sorted(items, key=lambda kv: kv[0])]: a stable sort; of two items with
    equal keys the earlier stays first. *)
Fixpoint insert_by_key {V : Type} (x : Z * V) (l : list (Z * V)) : list (Z * V) :=
  match l with
  | [] => [x]
  | y :: l' => if fst x <=? fst y then x :: y :: l' else y :: insert_by_key x l'
  end.

Definition sorted_by_key {V : Type} (l : list (Z * V)) : list (Z * V) :=
  fold_right insert_by_key [] l.

(** The last loop of [load_all_data]:
    [for meter_id, series in list(meters.items()):
         meters[meter_id] = OrderedDict(sorted(series.items(), ...))] *)
Definition sort_all (meters : AllMeters) : AllMeters :=
  fold_left (fun m item => meters_set (fst item) (sorted_by_key (snd item)) m) meters meters.

(** [load_all_data], given the [.xml] files of the directories in the order
    of the walk. *)
Definition load_all_data (files : list xml_file) : Exc AllMeters :=
  meters <- for_each load_file files [] ;;
  Ok (sort_all meters).

(* ===================================================================== *)
(** * Payloads *)
(* ===================================================================== *)

(** [sorted(label_set)] for the set of the elements of [l]. *)
Fixpoint insert_label (x : Z) (l : list Z) : list Z :=
  match l with
  | [] => [x]
  | y :: l' =>
      if x <? y then x :: y :: l'
      else if x =? y then y :: l'
      else y :: insert_label x l'
  end.

Definition sorted_set (l : list Z) : list Z := fold_right insert_label [] l.

(** A chart payload: the labels and the [data] of the two datasets, export
    (ID735) first, import (ID742) second. Labels are kept as instants;
    [None] is a JSON [null]. *)
Record payload : Type :=
  { labels : list utc_datetime;
    data_export : list (option float);
    data_import : list (option float) }.

(** [series_values(meter_id)] inside [build_chartjs_payload] *)
Definition series_values (meters : AllMeters) (labels : list utc_datetime) (meter_id : string)
  : list (option float) :=
  let series := match meters_get meter_id meters with Some s => s | None => [] end in
  map (fun ts => match series_get ts series with
                 | Some m => Some (value m)
                 | None => None
                 end) labels.

Definition build_chartjs_payload (meters : AllMeters) : payload :=
  let labels := sorted_set (flat_map (fun item => od_keys (snd item)) meters) in
  {| labels := labels;
     data_export := series_values meters labels METER_EXPORT_ID;
     data_import := series_values meters labels METER_IMPORT_ID |}.

(** ** Consumption (ESL diffs) *)

(** [None if not (diff == diff) or diff < 0 else diff] *)
Definition checked_diff (diff : float) : option float :=
  if negb (Num.eqb diff diff) || Num.ltb diff Num.pos_zero then None else Some diff.

(** [sorted(series.keys())] *)
Fixpoint insert_sorted (x : Z) (l : list Z) : list Z :=
  match l with
  | [] => [x]
  | y :: l' => if x <=? y then x :: y :: l' else y :: insert_sorted x l'
  end.

Definition sorted_list (l : list Z) : list Z := fold_right insert_sorted [] l.

(** [series[t].value]; [t] is always one of [series.keys()], so the lookup
    succeeds (the other branch is never taken). *)
Definition value_at (series : MeterSeries) (t : utc_datetime) : float :=
  match series_get t series with
  | Some m => value m
  | None => Num.nan
  end.

(** The loop of [series_diffs], from [timestamps[i - 1]] on. *)
Fixpoint diffs_from (series : MeterSeries) (t_prev : utc_datetime)
    (rest : list utc_datetime) : list (utc_datetime * option float) :=
  match rest with
  | [] => []
  | t_curr :: rest' =>
      let v_prev := value_at series t_prev in
      let v_curr := value_at series t_curr in
      let diff := Num.sub v_curr v_prev in
      (t_curr, checked_diff diff) :: diffs_from series t_curr rest'
  end.

(** [series_diffs(series)]: a dictionary from timestamp to optional
    consumption. *)
Definition series_diffs (series : MeterSeries) : list (utc_datetime * option float) :=
  match sorted_list (od_keys series) with
  | [] => []
  | t0 :: rest => diffs_from series t0 rest
  end.

(** [diffs_map.get(ts)] *)
Definition diffs_get (ts : utc_datetime) (d : list (utc_datetime * option float))
  : option float :=
  match od_get Z.eqb ts d with
  | Some v => v
  | None => None
  end.

Definition build_consumption_payload (meters : AllMeters) : payload :=
  let series_of id := match meters_get id meters with Some s => s | None => [] end in
  let import_diffs := series_diffs (series_of METER_IMPORT_ID) in
  let export_diffs := series_diffs (series_of METER_EXPORT_ID) in
  let labels := sorted_set (od_keys import_diffs ++ od_keys export_diffs) in
  {| labels := labels;
     data_export := map (fun ts => diffs_get ts export_diffs) labels;
     data_import := map (fun ts => diffs_get ts import_diffs) labels |}.

(* ===================================================================== *)
(** * The merge engine seen as a fold of updates *)
(* ===================================================================== *)

(** What a parser emits: a meter identifier, a timestamp and a partial
    reading (each field supplied or not). *)
Record update : Type :=
  { u_meter : string;
    u_ts : utc_datetime;
    u_value : option float;
    u_relative : option float }.

(** [series = meters.setdefault(meter_id, OrderedDict())] followed by
    [add_or_update_messwert(series, ts, ...)]. *)
Definition apply_update (meters : AllMeters) (u : update) : AllMeters :=
  mutate_series (u_meter u)
    (fun series => add_or_update_messwert series (u_ts u) (u_value u) (u_relative u))
    (setdefault (u_meter u) meters).

Definition apply_updates (us : list update) (meters : AllMeters) : AllMeters :=
  fold_left apply_update us meters.

(** The updates one [TimePeriod] leads to: at most one per class. *)
Definition esl_period_updates (tp : Element) : Exc (list update) :=
  match py_or (get "end" (attrib tp)) (get "End" (attrib tp)) with
  | Some (String a s) =>
      ts <- ensure_datetime_utc (String a s) ;;
      rows <- findall tp "ValueRow" ;;
      sums <- for_each esl_value_row rows esl_sums_init ;;
      Ok ((if import_present sums
           then [{| u_meter := METER_IMPORT_ID; u_ts := ts;
                    u_value := Some (sum_import sums); u_relative := None |}]
           else [])
          ++ (if export_present sums
              then [{| u_meter := METER_EXPORT_ID; u_ts := ts;
                       u_value := Some (sum_export sums); u_relative := None |}]
              else []))
  | _ => Ok []
  end.

Fixpoint esl_updates (tps : list Element) : Exc (list update) :=
  match tps with
  | [] => Ok []
  | tp :: tps' =>
      us <- esl_period_updates tp ;;
      us' <- esl_updates tps' ;;
      Ok (us ++ us')
  end.

(** The reading that [add_or_update_messwert] stores at [ts], from the
    reading [o] found there. *)
Definition merged (ts : utc_datetime) (value_ relative_ : option float)
    (o : option Messwert) : Messwert :=
  match o with
  | None => {| timestamp := ts; value := or_nan value_; relative := or_nan relative_ |}
  | Some existing =>
      let existing :=
        match value_ with
        | Some v => {| timestamp := timestamp existing; value := v; relative := relative existing |}
        | None => existing
        end in
      match relative_ with
      | Some r => {| timestamp := timestamp existing; value := value existing; relative := r |}
      | None => existing
      end
  end.

(** [meters.get(meter_id, OrderedDict())] *)
Definition series_of (meter_id : string) (meters : AllMeters) : MeterSeries :=
  match meters_get meter_id meters with
  | Some series => series
  | None => []
  end.

(** [add_or_update_messwert(series, ts, ...)] for the fields of [u]. *)
Definition merge_update (u : update) (series : MeterSeries) : MeterSeries :=
  add_or_update_messwert series (u_ts u) (u_value u) (u_relative u).

(** One step of the last loop of [load_all_data], on the item itself. *)
Definition sort_item (item : string * MeterSeries) : string * MeterSeries :=
  (fst item, sorted_by_key (snd item)).

(** [u]'s meter and timestamp are already keys of the store. *)
Definition has_key (u : update) (meters : AllMeters) : bool :=
  match meters_get (u_meter u) meters with
  | Some series => od_mem Z.eqb (u_ts u) series
  | None => false
  end.

(** Dictionary keys are unique, in the store and in each series. *)
Definition unique_keys (meters : AllMeters) : Prop :=
  NoDup (od_keys meters) /\ Forall (fun item => NoDup (od_keys (snd item))) meters.

(** [timestamps[i] < timestamps[i+1]] for all valid [i]. *)
Definition strictly_ascending (timestamps : list utc_datetime) : Prop :=
  forall i : nat,
    (S i < List.length timestamps)%nat -> nth i timestamps 0 < nth (S i) timestamps 0.

(* ===================================================================== *)
(** * Readings, rows and files, as the properties speak of them *)
(* ===================================================================== *)

(** [meters[meter_id][ts]] when both keys are there. *)
Definition reading_at (meters : AllMeters) (meter_id : string) (ts : utc_datetime)
  : option Messwert :=
  match meters_get meter_id meters with
  | Some series => series_get ts series
  | None => None
  end.

(** The field that stands after two partial readings: the later one where
    it supplies the field, else the earlier one. *)
Definition supplied_or (later earlier : option float) : option float :=
  match later with
  | Some _ => later
  | None => earlier
  end.

(** [tp.attrib.get("end") or tp.attrib.get("End")] *)
Definition end_attr (tp : Element) : option string :=
  py_or (get "end" (attrib tp)) (get "End" (attrib tp)).

(** The [TimePeriod] elements that [parse_esl_file] iterates over. *)
Definition time_periods (root : Element) : list Element :=
  filter (fun d => String.eqb (tag d) "TimePeriod") (descendants root).

(** The [ValueRow] elements of a period. *)
Definition value_rows (tp : Element) : list Element :=
  filter (fun d => String.eqb (tag d) "ValueRow") (descendants tp).

(** [vr.attrib.get("value") or vr.attrib.get("val") or ""] *)
Definition val_text (vr : Element) : string :=
  match py_or (py_or (get "value" (attrib vr)) (get "val" (attrib vr))) (Some "") with
  | Some t => t
  | None => ""
  end.

(** The number a row carries, when [float(...)] reads one. *)
Definition row_value (vr : Element) : option float :=
  match Num.py_float (Str.replace_comma (val_text vr)) with
  | Ok val => Some val
  | Raise _ => None
  end.

(** The values of the rows that the [if] branch of the row loop adds to
    [sum_import], in document order. *)
Definition import_values (rows : list Element) : list float :=
  flat_map (fun vr =>
              match row_value vr with
              | Some val =>
                  if any_in OBIS_IMPORT (get_default "obis" (attrib vr)) then [val] else []
              | None => []
              end) rows.

(** The values that the [elif] branch adds to [sum_export]. *)
Definition export_values (rows : list Element) : list float :=
  flat_map (fun vr =>
              match row_value vr with
              | Some val =>
                  if any_in OBIS_IMPORT (get_default "obis" (attrib vr)) then []
                  else if any_in OBIS_EXPORT (get_default "obis" (attrib vr)) then [val]
                  else []
              | None => []
              end) rows.

(** [sum_import] as the loop builds it: [0.0], then [+=] from left to
    right. *)
Definition float_sum (vals : list float) : float := fold_left Num.add vals Num.pos_zero.

(** What one period with end instant [ts] and rows [rows] merges into the
    store: the import sum when an import row was added, then the export
    sum when an export row was added. *)
Definition period_updates (ts : utc_datetime) (rows : list Element) : list update :=
  (if negb (Nat.eqb (List.length (import_values rows)) 0)
   then [{| u_meter := METER_IMPORT_ID; u_ts := ts;
            u_value := Some (float_sum (import_values rows)); u_relative := None |}]
   else [])
  ++ (if negb (Nat.eqb (List.length (export_values rows)) 0)
      then [{| u_meter := METER_EXPORT_ID; u_ts := ts;
               u_value := Some (float_sum (export_values rows)); u_relative := None |}]
      else []).

(** The shape of every update the ESL parser makes: an absolute value for
    the import or the export meter. *)
Definition absolute_update (u : update) : Prop :=
  (u_meter u = METER_IMPORT_ID \/ u_meter u = METER_EXPORT_ID)
  /\ u_relative u = None
  /\ exists v, u_value u = Some v.


(** A digit or a blank. *)
Definition digit_or_space (x : ascii) : Prop := Str.is_digit x || Str.is_space x = true.

(** The characters a [strptime] format can consume: digits, blanks and its
    literal characters in either case. *)
Definition format_char (fmt : list token) (c : ascii) : bool :=
  Str.is_digit c || Str.is_space c
  || existsb (fun t => match t with Lit c' => Str.eqb_nocase c' c | _ => false end) fmt.

(** ** Timestamps as they are written

    The text that [datetime.isoformat] writes for a date, a time of day and
    a zone, and the instant that this text denotes. *)



















(* ===================================================================== *)
(** * Sample files *)
(* ===================================================================== *)

Module Samples.

Definition value_row (obis val : string) : Element :=
  Elem "ValueRow" [("obis", obis); ("value", val)] None [] None.

Definition time_period (end_ : string) (rows : list Element) : Element :=
  Elem "TimePeriod" [("end", end_)] None rows None.

Definition esl_document (periods : list Element) : xml_file :=
  Document (Elem "ESLBillingData" [] None [Elem "Meter" [] None periods None] None).

Definition leaf (name txt : string) : Element := Elem name [] (Some txt) [] None.

(** [<TimePeriod end="garbage"><ValueRow obis="1-1:1.8.1" value="100"/></TimePeriod>] *)
Definition esl_bad_end : xml_file :=
  esl_document [time_period "garbage" [value_row "1-1:1.8.1" "100"]].

(** Two periods, the later one first; import in both, export in one. *)
Definition esl_two_periods : xml_file :=
  esl_document
    [time_period "2024-02-01T00:00:00Z"
       [value_row "1-1:1.8.1" "100,5"; value_row "1-1:1.8.2" "20"; value_row "1-1:2.8.1" "7"];
     time_period "2024-01-01T00:00:00Z"
       [value_row "1-1:1.8.1" "90"; value_row "1-1:2.8.2" "abc"]].

(** The same export with every element bound to a namespace, as in
    [<rsm:ESLBillingData xmlns:rsm="http://www.esl.ch">...]. *)
Definition esl_two_periods_qualified : xml_file :=
  Document
    (Elem "{http://www.esl.ch}ESLBillingData" [] None
       [Elem "{http://www.esl.ch}Meter" [] None
          [Elem "{http://www.esl.ch}TimePeriod" [("end", "2024-02-01T00:00:00Z")] None
             [Elem "{http://www.esl.ch}ValueRow" [("obis", "1-1:1.8.1"); ("value", "100,5")]
                None [] None] None;
           Elem "{http://www.esl.ch}TimePeriod" [("end", "2024-01-01T00:00:00Z")] None
             [Elem "{http://www.esl.ch}ValueRow" [("obis", "1-1:1.8.1"); ("value", "90")]
                None [] None] None]
          None] None).

(** A register that reads 0 and then overflows to infinity. *)
Definition esl_infinite_reading : xml_file :=
  esl_document
    [time_period "2024-01-01T00:00:00Z" [value_row "1-1:1.8.1" "0"];
     time_period "2024-02-01T00:00:00Z" [value_row "1-1:1.8.1" "inf"]].

(** A period container without end marker, next to SDAT-like elements. *)
Definition esl_without_end : xml_file :=
  Document
    (Elem "Export" [] None
       [Elem "TimePeriod" [("start", "2024-01-01T00:00:00Z")] None
          [value_row "1-1:1.8.1" "100"] None;
        leaf "DocumentID" "DocumentID_ID735";
        Elem "Observation" [] None [leaf "Sequence" "1"; leaf "Volume" "1.5"] None]
       None).

(** An SDAT document with one observation:
    [<Doc><DocumentID>DocumentID_ID735</DocumentID>
          <Interval><StartDateTime>2024-01-01T00:00:00Z</StartDateTime></Interval>
          <Resolution>15</Resolution><Unit>MIN</Unit>
          <Observation><Sequence>1</Sequence><Volume>1.5</Volume></Observation></Doc>] *)
Definition sdat_header : list Element :=
  [leaf "DocumentID" "DocumentID_ID735";
   Elem "Interval" [] None [leaf "StartDateTime" "2024-01-01T00:00:00Z"] None;
   leaf "Resolution" "15";
   leaf "Unit" "MIN"].

Definition sdat_one_observation : xml_file :=
  Document
    (Elem "Doc" [] None
       (sdat_header
        ++ [Elem "Observation" [] None [leaf "Sequence" "1"; leaf "Volume" "1.5"] None])
       None).

(** The same document as real exports spell it, with the [rsm] prefix
    bound to a namespace and no marker word in its text. *)
Definition sdat_one_observation_rsm : xml_file :=
  Document
    (Elem "{http://www.strom.ch}ValidatedMeteredData_12" [] None
       [leaf "{http://www.strom.ch}DocumentID" "eslevu121963_BR2294_ID735";
        Elem "{http://www.strom.ch}Interval" [] None
          [leaf "{http://www.strom.ch}StartDateTime" "2024-01-01T00:00:00Z"] None;
        leaf "{http://www.strom.ch}Resolution" "15";
        leaf "{http://www.strom.ch}Unit" "MIN";
        Elem "{http://www.strom.ch}Observation" [] None
          [leaf "{http://www.strom.ch}Sequence" "1";
           leaf "{http://www.strom.ch}Volume" "1.5"] None]
       None).

(** The SDAT header alone: no [Observation] element. *)
Definition sdat_no_observation : xml_file :=
  Document (Elem "Doc" [] None sdat_header None).

Definition t_2024_01_01 : utc_datetime := wall_of 2024 1 1 0 0 0 0.
Definition t_2024_02_01 : utc_datetime := wall_of 2024 2 1 0 0 0 0.
Definition t_2024_03_01 : utc_datetime := wall_of 2024 3 1 0 0 0 0.

Definition reading (ts : utc_datetime) (v : float) : utc_datetime * Messwert :=
  (ts, {| timestamp := ts; value := v; relative := Num.nan |}).

(** Absolute readings 100, 80, 130 at three ascending timestamps. *)
Definition series_100_80_130 : MeterSeries :=
  [reading t_2024_01_01 (Num.of_Z 100); reading t_2024_02_01 (Num.of_Z 80);
   reading t_2024_03_01 (Num.of_Z 130)].

(** A store whose import meter was seen once, through a relative volume
    only. *)
Definition relative_only_store : AllMeters :=
  [(METER_IMPORT_ID,
    add_or_update_messwert [] t_2024_01_01 None (Some (Num.of_Z 3)))].

End Samples.

Module MoreSamples.


(** One period, import registers 100.5 and 20 and export register 7, with a
    row that carries no number and a row of another code. *)
Definition period_feb : Element :=
  Samples.time_period "2024-02-01T00:00:00Z"
    [Samples.value_row "1-1:1.8.1" "100,5"; Samples.value_row "1-1:1.8.2" "20";
     Samples.value_row "1-1:1.8.1" "n/a"; Samples.value_row "1-1:9.9.9" "5";
     Samples.value_row "1-1:2.8.1" "7"].

Definition root_feb : Element :=
  Elem "ESLBillingData" [] None [Elem "Meter" [] None [period_feb] None] None.

(** An earlier export that gives another import reading for the same
    instant. *)
Definition esl_feb_earlier : xml_file :=
  Samples.esl_document
    [Samples.time_period "2024-02-01T01:00:00+01:00" [Samples.value_row "1-1:1.8.1" "55"]].

(** Readings stored out of chronological order. *)
Definition series_unordered : MeterSeries :=
  [Samples.reading Samples.t_2024_03_01 (Num.of_Z 130);
   Samples.reading Samples.t_2024_01_01 (Num.of_Z 100);
   Samples.reading Samples.t_2024_02_01 (Num.of_Z 80)].

(** Import readings at January and March, an export reading at February. *)
Definition store_gaps : AllMeters :=
  [(METER_IMPORT_ID,
    [Samples.reading Samples.t_2024_01_01 (Num.of_Z 100);
     Samples.reading Samples.t_2024_03_01 (Num.of_Z 130)]);
   (METER_EXPORT_ID, [Samples.reading Samples.t_2024_02_01 (Num.of_Z 7)])].




End MoreSamples.

(* ===================================================================== *)
(** * Properties *)
(* ===================================================================== *)

(** Evaluates the closed table look-ups and tests of the calendar. *)
Ltac eval_calendar :=
  repeat match goal with
    | |- context [nth ?n ?l ?d0] =>
        let v := eval vm_compute in (nth n l d0) in change (nth n l d0) with v
    | |- context [if ?c then ?a else ?b] =>
        let v := eval vm_compute in (if c then a else b) in
        change (if c then a else b) with v
    | H : context [if ?c then ?a else ?b] |- _ =>
        let v := eval vm_compute in (if c then a else b) in
        change (if c then a else b) with v in H
    end.

(** ** The exception monad *)

Lemma bind_Ok_inv {A B : Type} (c : Exc A) (k : A -> Exc B) (b : B) :
  bind c k = Ok b -> exists a, c = Ok a /\ k a = Ok b.
Proof.
  destruct c as [a | e]; simpl; intros H; [exists a; auto | discriminate].
Qed.

Lemma for_each_app {A S : Type} (body : A -> S -> Exc S) (l1 l2 : list A) (s : S) :
  for_each body (l1 ++ l2) s = (s' <- for_each body l1 s ;; for_each body l2 s').
Proof.
  revert s; induction l1 as [| a l1 IH]; intros s; simpl; [reflexivity |].
  destruct (body a s) as [s' | e]; simpl; [apply IH | reflexivity].
Qed.

(** ** The library models on known values *)

Example py_float_values :
  Num.py_float (Str.replace_comma "100,5") = Ok (Num.of_decimal false 1005 (-1))
  /\ Num.py_float " 2.5 " = Ok (Num.of_decimal false 25 (-1))
  /\ Num.py_float "1_0" = Ok (Num.of_Z 10)
  /\ Num.py_float "inf" = Ok Num.pos_inf
  /\ Num.py_float "1e400" = Ok Num.pos_inf
  /\ Num.py_float "NaN" = Ok Num.nan
  /\ Num.py_float "abc" = Raise ValueError
  /\ Num.py_float "" = Raise ValueError.
Proof. repeat split; vm_compute; reflexivity. Qed.

Example py_int_values :
  Num.py_int " 15 " = Ok 15 /\ Num.py_int "-3" = Ok (-3)
  /\ Num.py_int "1.5" = Raise ValueError /\ Num.py_int "" = Raise ValueError.
Proof. repeat split; vm_compute; reflexivity. Qed.

Example ensure_datetime_utc_values :
  ensure_datetime_utc "2024-01-01" = Ok (wall_of 2024 1 1 0 0 0 0)
  /\ ensure_datetime_utc "2024-01-01 03:04:05" = Ok (wall_of 2024 1 1 3 4 5 0)
  /\ ensure_datetime_utc "2024-1-1T3:4:5" = Ok (wall_of 2024 1 1 3 4 5 0)
  /\ ensure_datetime_utc "2024-01-01T00:00:00.250-02:00" = Ok (wall_of 2024 1 1 2 0 0 250000)
  /\ ensure_datetime_utc "2024-02-30T00:00:00" = Raise ValueError
  /\ ensure_datetime_utc "0001-01-01T00:00:00+01:00" = Raise OverflowError.
Proof. repeat split; vm_compute; reflexivity. Qed.

Example findall_values :
  findall (Elem "a" [] None [Elem "b" [] None [Elem "b" [] None [] None] None;
                             Elem "{u}b" [] None [] None] None) "b"
  = Ok [Elem "b" [] None [Elem "b" [] None [] None] None; Elem "b" [] None [] None]
  /\ findall (Elem "a" [] None [Elem "rsm:b" [] None [] None] None) "rsm:b"
     = Raise SyntaxError.
Proof. split; vm_compute; reflexivity. Qed.

(** ** Timestamp normalisation *)

Lemma days_before_year_succ (y : Z) :
  days_before_year (y + 1) = days_before_year y + 365 + (if is_leap y then 1 else 0).
Proof.
  unfold days_before_year, is_leap.
  replace (y + 1 - 1) with y by lia.
  destruct (y mod 4 =? 0) eqn:E4; destruct (y mod 100 =? 0) eqn:E100;
    destruct (y mod 400 =? 0) eqn:E400; simpl;
    rewrite ?Z.eqb_eq, ?Z.eqb_neq in *;
    Z.div_mod_to_equations; lia.
Qed.

Lemma days_before_year_mono (y1 y2 : Z) :
  y1 <= y2 -> days_before_year y1 <= days_before_year y2.
Proof.
  unfold days_before_year. intros H. Z.div_mod_to_equations. lia.
Qed.

Lemma day_of_year_bound (y m d : Z) :
  between 1 m 12 = true -> between 1 d (days_in_month y m) = true ->
  1 <= days_before_month y m + d <= 365 + (if is_leap y then 1 else 0).
Proof.
  unfold between. rewrite !andb_true_iff, !Z.leb_le. intros [Hm1 Hm2] [Hd1 Hd2].
  assert (Hm : m = 1 \/ m = 2 \/ m = 3 \/ m = 4 \/ m = 5 \/ m = 6 \/ m = 7 \/ m = 8
               \/ m = 9 \/ m = 10 \/ m = 11 \/ m = 12) by lia.
  clear Hm1 Hm2.
  unfold days_before_month, days_in_month in *.
  destruct (is_leap y);
    repeat (destruct Hm as [Hm | Hm]; [subst m; eval_calendar; lia |]);
    subst m; eval_calendar; lia.
Qed.

Lemma make_in_range y mo d h mi s us tz dt :
  make y mo d h mi s us tz = Ok dt -> in_range (wall dt) = true.
Proof.
  unfold make.
  destruct (between 1 y 9999) eqn:Hy; simpl; [| discriminate].
  destruct (between 1 mo 12) eqn:Hmo; simpl; [| discriminate].
  destruct (between 1 d (days_in_month y mo)) eqn:Hd; simpl; [| discriminate].
  destruct (between 0 h 23) eqn:Hh; simpl; [| discriminate].
  destruct (between 0 mi 59) eqn:Hmi; simpl; [| discriminate].
  destruct (between 0 s 59) eqn:Hs; simpl; [| discriminate].
  destruct (between 0 us 999999) eqn:Hus; simpl; [| discriminate].
  destruct (match tz with Some off => valid_offset off | None => true end); [| discriminate].
  intros H; injection H as <-; simpl.
  pose proof (@day_of_year_bound y mo d Hmo Hd) as Hdoy.
  pose proof (days_before_year_succ y) as Hsucc.
  unfold between in Hy, Hh, Hmi, Hs, Hus.
  rewrite andb_true_iff, !Z.leb_le in Hy, Hh, Hmi, Hs, Hus.
  pose proof (@days_before_year_mono 1 y (proj1 Hy)) as Hlo.
  pose proof (@days_before_year_mono (y + 1) 10000 ltac:(lia)) as Hhi.
  change (days_before_year 1) with 0 in Hlo.
  change (days_before_year 10000) with 3652059 in Hhi.
  unfold in_range, wall_of, ymd2ord.
  change max_wall with 315537897599999999.
  unfold us_per_day, us_per_second.
  rewrite andb_true_iff, !Z.leb_le. lia.
Qed.

Lemma fromisoformat_in_range (s : string) (dt : datetime) :
  fromisoformat s = Ok dt -> in_range (wall dt) = true.
Proof.
  unfold fromisoformat.
  destruct (parse_isoformat_date (Str.chars s)) as [[[[y mo] d] [| sep tstr]] |];
    try discriminate.
  - apply make_in_range.
  - destruct (split_at_sign tstr) as [timestr z].
    destruct (parse_hh_mm_ss_ff timestr) as [[[[h mi] sec] us] |]; try discriminate.
    destruct z as [[neg tzstr] |].
    + destruct (parse_tz neg tzstr); [apply make_in_range | discriminate].
    + apply make_in_range.
Qed.

Lemma strptime_in_range (s : string) (fmt : list token) (dt : datetime) :
  strptime s fmt = Ok dt -> in_range (wall dt) = true.
Proof.
  unfold strptime.
  destruct (match_tokens fmt [] (Str.chars s)) as [| [vals rest] l]; try discriminate.
  destruct vals as [| y [| mo [| d [| h [| mi [| sec [| x vals]]]]]]]; try discriminate.
  destruct rest; try discriminate.
  apply make_in_range.
Qed.

Lemma parse_datetime_in_range (s : string) (dt : datetime) :
  parse_datetime s = Ok dt -> in_range (wall dt) = true.
Proof.
  unfold parse_datetime, try_except.
  destruct (fromisoformat _) as [dt0 | e0] eqn:E0.
  - intros H; injection H as <-. eapply fromisoformat_in_range; eauto.
  - destruct (is_ValueError e0); [| discriminate].
    destruct (strptime s fmt_T) as [dt1 | e1] eqn:E1.
    + intros H; injection H as <-. eapply strptime_in_range; eauto.
    + destruct (is_ValueError e1); [| discriminate].
      destruct (strptime s fmt_blank) as [dt2 | e2] eqn:E2.
      * intros H; injection H as <-. eapply strptime_in_range; eauto.
      * destruct (is_ValueError e2); discriminate.
Qed.

(** What [ensure_datetime_utc] returns, from what was parsed. *)
Lemma ensure_datetime_utc_spec (s : string) (dt : datetime) :
  parse_datetime s = Ok dt ->
  ensure_datetime_utc s
  = if in_range (utc_instant dt) then Ok (utc_instant dt) else Raise OverflowError.
Proof.
  intros H. unfold ensure_datetime_utc. rewrite H. simpl.
  pose proof (parse_datetime_in_range _ H) as Hr.
  unfold astimezone_utc, replace_tzinfo_utc, utc_instant in *.
  destruct (tzinfo dt); [reflexivity |].
  rewrite Hr. reflexivity.
Qed.

(** ** Insertion-ordered dictionaries *)

Section OrderedDictFacts.
Variables K V : Type.
Variable eqb : K -> K -> bool.
Hypothesis eqb_eq : forall a b : K, eqb a b = true <-> a = b.

Lemma eqb_refl' (k : K) : eqb k k = true.
Proof. apply eqb_eq; reflexivity. Qed.

Lemma eqb_neq' (a b : K) : a <> b -> eqb a b = false.
Proof.
  intros H. destruct (eqb a b) eqn:E; [| reflexivity].
  apply eqb_eq in E. contradiction.
Qed.

Lemma eqb_dec' (a b : K) : a = b \/ a <> b.
Proof.
  destruct (eqb a b) eqn:E.
  - left; apply eqb_eq; assumption.
  - right; intros ->. rewrite eqb_refl' in E. discriminate.
Qed.

Lemma od_get_set_same (k : K) (v : V) (d : list (K * V)) :
  od_get eqb k (od_set eqb k v d) = Some v.
Proof.
  induction d as [| [k0 v0] d IH]; simpl.
  - rewrite eqb_refl'. reflexivity.
  - destruct (eqb k k0) eqn:E; simpl; rewrite E; [reflexivity | exact IH].
Qed.

Lemma od_get_set_other (k k' : K) (v : V) (d : list (K * V)) :
  k <> k' -> od_get eqb k (od_set eqb k' v d) = od_get eqb k d.
Proof.
  intros Hne. induction d as [| [k0 v0] d IH]; simpl.
  - rewrite (eqb_neq' Hne). reflexivity.
  - destruct (eqb k' k0) eqn:E; simpl.
    + apply eqb_eq in E; subst k0. rewrite (eqb_neq' Hne). reflexivity.
    + destruct (eqb k k0); [reflexivity | exact IH].
Qed.

Lemma od_set_set_same (k : K) (v w : V) (d : list (K * V)) :
  od_set eqb k w (od_set eqb k v d) = od_set eqb k w d.
Proof.
  induction d as [| [k0 v0] d IH]; simpl.
  - rewrite eqb_refl'. reflexivity.
  - destruct (eqb k k0) eqn:E; simpl; rewrite E; [reflexivity | rewrite IH; reflexivity].
Qed.

Lemma od_set_get_same (k : K) (v : V) (d : list (K * V)) :
  od_get eqb k d = Some v -> od_set eqb k v d = d.
Proof.
  induction d as [| [k0 v0] d IH]; simpl; [discriminate |].
  destruct (eqb k k0) eqn:E.
  - intros H; injection H as ->. reflexivity.
  - intros H. rewrite (IH H). reflexivity.
Qed.

Lemma od_set_comm (k k' : K) (v v' : V) (d : list (K * V)) :
  k <> k' ->
  od_mem eqb k d = true \/ od_mem eqb k' d = true ->
  od_set eqb k v (od_set eqb k' v' d) = od_set eqb k' v' (od_set eqb k v d).
Proof.
  intros Hne. unfold od_mem.
  induction d as [| [k0 v0] d IH]; simpl.
  - intros [H | H]; discriminate.
  - intros Hmem.
    destruct (eqb k k0) eqn:E; destruct (eqb k' k0) eqn:E'; simpl; rewrite ?E, ?E'.
    + apply eqb_eq in E, E'. congruence.
    + reflexivity.
    + reflexivity.
    + rewrite IH; [reflexivity | exact Hmem].
Qed.

Lemma od_mem_set (k k' : K) (v : V) (d : list (K * V)) :
  od_mem eqb k (od_set eqb k' v d) = od_mem eqb k d || eqb k k'.
Proof.
  unfold od_mem. destruct (eqb_dec' k k') as [-> | Hne].
  - rewrite od_get_set_same, eqb_refl', orb_true_r. reflexivity.
  - rewrite (od_get_set_other _ _ Hne), (eqb_neq' Hne), orb_false_r. reflexivity.
Qed.

Lemma od_mem_In (k : K) (d : list (K * V)) :
  od_mem eqb k d = true <-> In k (od_keys d).
Proof.
  unfold od_mem, od_keys. induction d as [| [k0 v0] d IH]; simpl.
  - split; [discriminate | tauto].
  - destruct (eqb k k0) eqn:E.
    + apply eqb_eq in E. split; auto.
    + rewrite IH. split; [auto |].
      intros [-> | H]; [| exact H]. rewrite eqb_refl' in E. discriminate.
Qed.

Lemma od_get_In (k : K) (v : V) (d : list (K * V)) :
  od_get eqb k d = Some v -> In (k, v) d.
Proof.
  induction d as [| [k0 v0] d IH]; simpl; [discriminate |].
  destruct (eqb k k0) eqn:E.
  - apply eqb_eq in E. intros H; injection H as ->. left; congruence.
  - intros H. right; auto.
Qed.

Lemma od_get_of_In (k : K) (v : V) (d : list (K * V)) :
  NoDup (od_keys d) -> In (k, v) d -> od_get eqb k d = Some v.
Proof.
  unfold od_keys. induction d as [| [k0 v0] d IH]; simpl; [tauto |].
  intros Hnd [H | H].
  - injection H as -> ->. rewrite eqb_refl'. reflexivity.
  - inversion Hnd as [| ? ? Hnotin Hnd']; subst.
    destruct (eqb k k0) eqn:E.
    + apply eqb_eq in E; subst k0. exfalso. apply Hnotin.
      change k with (fst (k, v)). apply in_map. exact H.
    + apply IH; assumption.
Qed.

Lemma od_keys_set (k : K) (v : V) (d : list (K * V)) :
  od_keys (od_set eqb k v d) = if od_mem eqb k d then od_keys d else od_keys d ++ [k].
Proof.
  unfold od_mem, od_keys. induction d as [| [k0 v0] d IH]; simpl; [reflexivity |].
  destruct (eqb k k0) eqn:E; simpl; [reflexivity |].
  rewrite IH. destruct (od_get eqb k d); reflexivity.
Qed.

Lemma od_set_NoDup (k : K) (v : V) (d : list (K * V)) :
  NoDup (od_keys d) -> NoDup (od_keys (od_set eqb k v d)).
Proof.
  intros Hnd. rewrite od_keys_set.
  destruct (od_mem eqb k d) eqn:E; [exact Hnd |].
  apply NoDup_app; [exact Hnd | repeat constructor; simpl; tauto |].
  intros x Hx [<- | []].
  apply od_mem_In in Hx. congruence.
Qed.

(** Entries of [od_set k v d]: those of [d] under other keys, and [(k, v)]. *)
Lemma od_set_In (k : K) (v : V) (d : list (K * V)) (x : K * V) :
  In x (od_set eqb k v d) -> x = (k, v) \/ In x d.
Proof.
  induction d as [| [k0 v0] d IH]; simpl.
  - intros [<- | []]; auto.
  - destruct (eqb k k0) eqn:E; simpl.
    + apply eqb_eq in E; subst k0. intros [<- | H]; auto.
    + intros [<- | H]; auto. destruct (IH H); auto.
Qed.

End OrderedDictFacts.

(** ** The SDAT parser *)

(** The first look-up of [find_text] is [root.find(".//rsm:...")]: a
    prefixed step without a prefix map. *)
Lemma find_text_raises (root : Element) (suffix : string) (rest : list string) :
  find_text root (suffix :: rest) = Raise SyntaxError.
Proof. reflexivity. Qed.

(** [parse_sdat_file] has three outcomes only: [ET.parse] raises something
    else than [ET.ParseError], it returns [False] before any look-up (parse
    error, or neither marker word in the text), or its first look-up
    raises. It never returns [True] and never touches [meters]. *)
Lemma parse_sdat_file_outcome (file : xml_file) (meters : AllMeters) :
  parse_sdat_file file meters
  = match file with
    | ParseError => Ok (false, meters)
    | Failure f => Raise (raised f)
    | Document root =>
        if negb (Str.contains "DocumentID" (text_content root))
           && negb (Str.contains "Interval" (text_content root))
        then Ok (false, meters)
        else Raise SyntaxError
    end.
Proof.
  destruct file as [| root | f]; [reflexivity | | reflexivity].
  unfold parse_sdat_file.
  destruct (negb (Str.contains "DocumentID" (text_content root))
            && negb (Str.contains "Interval" (text_content root))); [reflexivity |].
  rewrite find_text_raises. reflexivity.
Qed.

Lemma parse_sdat_file_Ok (file : xml_file) (meters : AllMeters) (r : bool * AllMeters) :
  parse_sdat_file file meters = Ok r -> r = (false, meters).
Proof.
  rewrite parse_sdat_file_outcome. destruct file as [| root | f].
  - intros H; injection H as <-; reflexivity.
  - destruct (_ && _); [intros H; injection H as <-; reflexivity | discriminate].
  - discriminate.
Qed.

(** C8. A valid SDAT observation is not emitted at
    [start + (sequence - 1) * step]: on the document with one observation
    (sequence 1, volume 1.5, start 2024-01-01T00:00:00Z, 15 MIN) the parser
    raises [SyntaxError] at its first look-up and the load fails; on the same
    document spelt with a bound [rsm] prefix it returns [False] and the
    store stays empty. *)
Theorem parse_sdat_file_emits_no_observation :
  parse_sdat_file Samples.sdat_one_observation [] = Raise SyntaxError
  /\ load_all_data [Samples.sdat_one_observation] = Raise SyntaxError
  /\ parse_sdat_file Samples.sdat_one_observation_rsm [] = Ok (false, [])
  /\ load_all_data [Samples.sdat_one_observation_rsm] = Ok [].
Proof. repeat split; vm_compute; reflexivity. Qed.

(** C10. On an SDAT document that has a DocumentID with an ID code, a start
    instant, a resolution and a unit but no [Observation] element, the
    parser does not return [False]: its first look-up raises [SyntaxError],
    which ends the load. *)
Theorem parse_sdat_file_no_observation_raises :
  parse_sdat_file Samples.sdat_no_observation [] = Raise SyntaxError
  /\ load_all_data [Samples.sdat_no_observation] = Raise SyntaxError.
Proof. split; vm_compute; reflexivity. Qed.

(** ** The router *)

(** C1. A parsing error can be fatal to the whole run: the ESL file whose
    period ends at ["garbage"] makes [ensure_datetime_utc] raise
    [ValueError] inside [parse_esl_file], which does not catch it, and
    [load_all_data] raises it whatever other files follow. *)
Theorem load_all_data_raises_on_malformed_end (files : list xml_file) :
  ensure_datetime_utc "garbage" = Raise ValueError
  /\ parse_esl_file Samples.esl_bad_end [] = Raise ValueError
  /\ load_all_data (Samples.esl_bad_end :: files) = Raise ValueError.
Proof.
  split; [vm_compute; reflexivity |].
  split; [vm_compute; reflexivity |].
  unfold load_all_data. cbn [for_each].
  assert (H : load_file Samples.esl_bad_end [] = Raise ValueError)
    by (vm_compute; reflexivity).
  rewrite H. reflexivity.
Qed.

Lemma load_file_calls_erase (file : xml_file) (meters : AllMeters) :
  snd (load_file_calls file meters) = load_file file meters.
Proof.
  unfold load_file_calls, load_file.
  destruct (parse_esl_file file meters) as [[parsed m] | e]; simpl; [| reflexivity].
  destruct parsed; reflexivity.
Qed.

Lemma findall_plain (e : Element) (name : string) :
  has_prefix name = false ->
  findall e name = Ok (filter (fun d => String.eqb (tag d) name) (descendants e)).
Proof. unfold findall. intros ->. reflexivity. Qed.

(** What [parse_esl_file] does, by the period containers it finds. *)
Lemma parse_esl_file_periods (root : Element) (meters : AllMeters) :
  parse_esl_file (Document root) meters
  = match filter (fun d => String.eqb (tag d) "TimePeriod") (descendants root) with
    | [] => Ok (false, meters)
    | tp :: tps => meters' <- for_each esl_time_period (tp :: tps) meters ;; Ok (true, meters')
    end.
Proof.
  unfold parse_esl_file. rewrite findall_plain by reflexivity. cbn [bind].
  destruct (filter _ (descendants root)); reflexivity.
Qed.

(** C4. The router tries Dialect A first and, when it reports success,
    does not run Dialect B on the file: the only parser called is
    [parse_esl_file] and the store is the one it left. A document that
    contains a period container never reaches the Dialect B parser. *)
Theorem esl_success_excludes_sdat (file : xml_file) (meters : AllMeters) :
  (forall meters',
      parse_esl_file file meters = Ok (true, meters') ->
      load_file_calls file meters = ([call_parse_esl_file], Ok meters')
      /\ load_file file meters = Ok meters')
  /\ (forall root tp,
         file = Document root -> In tp (descendants root) -> tag tp = "TimePeriod" ->
         ~ In call_parse_sdat_file (fst (load_file_calls file meters)))
  /\ hd_error (fst (load_file_calls file meters)) = Some call_parse_esl_file.
Proof.
  split; [| split].
  - intros meters' H. unfold load_file_calls, load_file. rewrite H. simpl. auto.
  - intros root tp -> Hin Htag.
    unfold load_file_calls. rewrite parse_esl_file_periods.
    destruct (filter _ (descendants root)) as [| tp0 tps] eqn:E.
    + exfalso.
      assert (Hf : In tp (filter (fun d => String.eqb (tag d) "TimePeriod") (descendants root))).
      { apply filter_In. split; [exact Hin |]. rewrite Htag. reflexivity. }
      rewrite E in Hf. exact Hf.
    + destruct (for_each esl_time_period (tp0 :: tps) meters) as [m | e]; simpl;
        intros [H | []]; discriminate.
  - unfold load_file_calls.
    destruct (parse_esl_file file meters) as [[[] m] | e]; reflexivity.
Qed.

(** A period container without end marker gives no observation, yet
    Dialect A reports success and Dialect B is not run, although the
    document carries SDAT-like elements. *)
Lemma esl_success_excludes_sdat_on_sample :
  parse_esl_file Samples.esl_without_end [] = Ok (true, [])
  /\ load_file_calls Samples.esl_without_end [] = ([call_parse_esl_file], Ok [])
  /\ load_file Samples.esl_without_end [] = Ok [].
Proof.
  assert (H : parse_esl_file Samples.esl_without_end [] = Ok (true, []))
    by (vm_compute; reflexivity).
  split; [exact H |].
  exact (proj1 (esl_success_excludes_sdat Samples.esl_without_end []) [] H).
Defined.

(** ** The ESL parser and namespaces *)

(** C2, as the code has it. Dialect A looks period containers up under the
    one unqualified name [TimePeriod] (and value rows under [ValueRow]); no
    candidate prefixes are tried. A document with unqualified period
    containers is recognised and its periods are folded into the store in
    document order; a document without one, and so every document whose
    elements are all namespace-qualified, is not Dialect A: the parser
    returns [False] and leaves the store as it was. *)
Theorem parse_esl_file_unqualified_lookup (root : Element) (meters : AllMeters) :
  let periods := filter (fun d => String.eqb (tag d) "TimePeriod") (descendants root) in
  (periods <> [] ->
   parse_esl_file (Document root) meters
   = (meters' <- for_each esl_time_period periods meters ;; Ok (true, meters')))
  /\ (periods = [] -> parse_esl_file (Document root) meters = Ok (false, meters))
  /\ ((forall d, In d (descendants root) -> Str.startswith (tag d) "{" = true) ->
      parse_esl_file (Document root) meters = Ok (false, meters)).
Proof.
  intros periods. rewrite parse_esl_file_periods. fold periods.
  split; [| split].
  - destruct periods; [congruence | reflexivity].
  - intros ->. reflexivity.
  - intros Hq. destruct periods as [| tp tps] eqn:E; [reflexivity | exfalso].
    assert (Hin : In tp periods) by (rewrite E; left; reflexivity).
    apply filter_In in Hin. destruct Hin as [Hin Htag].
    apply String.eqb_eq in Htag. specialize (Hq tp Hin).
    rewrite Htag in Hq. discriminate.
Qed.

(** The unqualified export is recognised, and its readings are extracted:
    import 90 and 120.5, export 7. *)
Lemma parse_esl_file_unqualified_sample :
  filter (fun d => String.eqb (tag d) "TimePeriod")
    (descendants (Elem "ESLBillingData" [] None
                    [Elem "Meter" [] None
                       [Samples.time_period "2024-02-01T00:00:00Z"
                          [Samples.value_row "1-1:1.8.1" "100,5";
                           Samples.value_row "1-1:1.8.2" "20";
                           Samples.value_row "1-1:2.8.1" "7"];
                        Samples.time_period "2024-01-01T00:00:00Z"
                          [Samples.value_row "1-1:1.8.1" "90";
                           Samples.value_row "1-1:2.8.2" "abc"]] None] None)) <> []
  /\ parse_esl_file Samples.esl_two_periods []
     = Ok (true,
           [(METER_IMPORT_ID,
             [Samples.reading Samples.t_2024_02_01 (Num.of_decimal false 1205 (-1));
              Samples.reading Samples.t_2024_01_01 (Num.of_Z 90)]);
            (METER_EXPORT_ID, [Samples.reading Samples.t_2024_02_01 (Num.of_Z 7)])]).
Proof.
  assert (H : filter (fun d => String.eqb (tag d) "TimePeriod")
                (descendants (Elem "ESLBillingData" [] None
                    [Elem "Meter" [] None
                       [Samples.time_period "2024-02-01T00:00:00Z"
                          [Samples.value_row "1-1:1.8.1" "100,5";
                           Samples.value_row "1-1:1.8.2" "20";
                           Samples.value_row "1-1:2.8.1" "7"];
                        Samples.time_period "2024-01-01T00:00:00Z"
                          [Samples.value_row "1-1:1.8.1" "90";
                           Samples.value_row "1-1:2.8.2" "abc"]] None] None)) <> [])
    by (vm_compute; discriminate).
  split; [exact H |].
  unfold Samples.esl_two_periods, Samples.esl_document.
  rewrite (proj1 (parse_esl_file_unqualified_lookup _ []) H).
  vm_compute. reflexivity.
Defined.

(** C2 fails as stated: the export whose elements carry a bound namespace
    prefix is not recognised by Dialect A and none of its readings is
    extracted. *)
Lemma qualified_esl_not_recognised :
  parse_esl_file Samples.esl_two_periods_qualified [] = Ok (false, [])
  /\ load_all_data [Samples.esl_two_periods_qualified] = Ok []
  /\ load_all_data [Samples.esl_two_periods] <> Ok [].
Proof.
  split; [vm_compute; reflexivity |].
  split; [vm_compute; reflexivity |].
  vm_compute. discriminate.
Qed.

(** ** The merge *)

Lemma series_get_set_same (ts : utc_datetime) (m : Messwert) (series : MeterSeries) :
  series_get ts (series_set ts m series) = Some m.
Proof. apply od_get_set_same. exact Z.eqb_eq. Qed.

(** C3, as the code has it. A reading created by the merge stores the float
    NaN in every field that was not supplied; NaN is not zero (and not even
    equal to itself). The raw-reading payload reports the stored absolute
    value at the label, so it reports NaN, not null, for a reading that was
    created from a relative volume only; it reports null exactly where the
    meter has no reading. *)
Theorem merge_leaves_unsupplied_field_nan (series : MeterSeries) (ts : utc_datetime)
    (value_ relative_ : option float) :
  series_get ts series = None ->
  series_get ts (add_or_update_messwert series ts value_ relative_)
  = Some {| timestamp := ts; value := or_nan value_; relative := or_nan relative_ |}
  /\ (forall meters meter_id,
         meters_get meter_id meters
         = Some (add_or_update_messwert series ts value_ relative_) ->
         series_values meters [ts] meter_id = [Some (or_nan value_)])
  /\ (forall meters meter_id,
         meters_get meter_id meters = Some series ->
         series_values meters [ts] meter_id = [None])
  /\ or_nan None = Num.nan
  /\ Num.eqb Num.nan Num.pos_zero = false
  /\ Num.eqb Num.nan Num.nan = false.
Proof.
  intros Hnone.
  assert (Hget : series_get ts (add_or_update_messwert series ts value_ relative_)
                 = Some {| timestamp := ts; value := or_nan value_;
                           relative := or_nan relative_ |}).
  { unfold add_or_update_messwert. rewrite Hnone. apply series_get_set_same. }
  split; [exact Hget |].
  split; [| split].
  - intros meters meter_id Hm. unfold series_values. rewrite Hm. simpl.
    rewrite Hget. reflexivity.
  - intros meters meter_id Hm. unfold series_values. rewrite Hm. simpl.
    rewrite Hnone. reflexivity.
  - repeat split.
Qed.

(** A timestamp seen through a relative volume only: the absolute field is
    NaN, and the payload shows it. *)
Lemma merge_leaves_unsupplied_field_nan_sample :
  series_get Samples.t_2024_01_01 [] = None
  /\ series_get Samples.t_2024_01_01
       (add_or_update_messwert [] Samples.t_2024_01_01 None (Some (Num.of_Z 3)))
     = Some {| timestamp := Samples.t_2024_01_01; value := Num.nan;
               relative := Num.of_Z 3 |}.
Proof.
  split; [reflexivity |].
  exact (proj1 (@merge_leaves_unsupplied_field_nan [] Samples.t_2024_01_01 None
                  (Some (Num.of_Z 3)) eq_refl)).
Defined.

(** C3 fails as stated: for the import meter seen once through a relative
    volume, the raw-reading payload holds a NaN at that label, not a
    null. *)
Lemma raw_payload_reports_nan_not_null :
  labels (build_chartjs_payload Samples.relative_only_store) = [Samples.t_2024_01_01]
  /\ data_import (build_chartjs_payload Samples.relative_only_store) = [Some Num.nan]
  /\ data_import (build_chartjs_payload Samples.relative_only_store) <> [None].
Proof.
  split; [vm_compute; reflexivity |].
  split; [vm_compute; reflexivity |].
  vm_compute. discriminate.
Qed.

(** ** Consumption derivation *)

Lemma sub_nan_l (y : float) : Num.sub Num.nan y = Num.nan.
Proof. reflexivity. Qed.

Lemma sub_nan_r (x : float) : Num.sub x Num.nan = Num.nan.
Proof. destruct x; reflexivity. Qed.

(** A diff is suppressed exactly when it is NaN or compares below zero. *)
Lemma checked_diff_None (diff : float) :
  checked_diff diff = None <-> diff = Num.nan \/ Num.ltb diff Num.pos_zero = true.
Proof.
  unfold checked_diff.
  destruct (Num.ltb diff Num.pos_zero) eqn:L; rewrite ?orb_true_r, ?orb_false_r.
  - split; auto.
  - destruct diff as [s | s | | s m e]; simpl.
    + split; [discriminate | intros [H | H]; discriminate].
    + destruct s; simpl; split; try discriminate; intros [H | H]; discriminate.
    + split; auto.
    + assert (E : Num.eqb (S754_finite s m e) (S754_finite s m e) = true).
      { unfold Num.eqb, SFeqb, SFcompare. destruct s; rewrite Z.compare_refl;
          rewrite Pos.compare_cont_refl; reflexivity. }
      rewrite E. simpl. split; [discriminate | intros [H | H]; discriminate].
Qed.

(** The keys of [series_diffs]: every timestamp but the first. *)
Lemma diffs_from_keys (series : MeterSeries) (t_prev : utc_datetime)
    (rest : list utc_datetime) :
  od_keys (diffs_from series t_prev rest) = rest.
Proof.
  revert t_prev; induction rest as [| t rest IH]; intros t_prev; simpl;
    [reflexivity | rewrite IH; reflexivity].
Qed.

Lemma series_diffs_keys (series : MeterSeries) :
  od_keys (series_diffs series) = tl (sorted_list (od_keys series)).
Proof.
  unfold series_diffs. destruct (sorted_list (od_keys series)); [reflexivity |].
  apply diffs_from_keys.
Qed.

(** The entry at index [i >= 1]: the difference to the predecessor. *)
Lemma diffs_from_nth (series : MeterSeries) (rest : list utc_datetime)
    (t_prev : utc_datetime) (i : nat) :
  (i < List.length rest)%nat ->
  nth_error (diffs_from series t_prev rest) i
  = Some (nth i rest 0,
          checked_diff (Num.sub (value_at series (nth i rest 0))
                                (value_at series (nth i (t_prev :: rest) 0)))).
Proof.
  revert t_prev i; induction rest as [| t rest IH]; intros t_prev i Hi; simpl in Hi;
    [lia |].
  destruct i as [| i]; [reflexivity |].
  simpl diffs_from. simpl nth_error. rewrite IH by lia. reflexivity.
Qed.

(** The diff suppression example of the specification: absolute readings
    100, 80, 130 give no diff at the first timestamp, a suppressed one at
    the second and 50 at the third. *)
Lemma series_diffs_100_80_130 :
  series_diffs Samples.series_100_80_130
  = [(Samples.t_2024_02_01, None); (Samples.t_2024_03_01, Some (Num.of_Z 50))]
  /\ map (fun ts => diffs_get ts (series_diffs Samples.series_100_80_130))
       [Samples.t_2024_01_01; Samples.t_2024_02_01; Samples.t_2024_03_01]
     = [None; None; Some (Num.of_Z 50)].
Proof. split; vm_compute; reflexivity. Qed.

(** C5. A diff that is not finite is not always suppressed: for the
    readings 0 and then infinity (an ESL value ["inf"]) the diff is
    [+inf], which is neither NaN nor negative, and the consumption payload
    reports it as a value. *)
Theorem series_diffs_reports_infinite_diff :
  load_all_data [Samples.esl_infinite_reading]
  = Ok [(METER_IMPORT_ID,
         [Samples.reading Samples.t_2024_01_01 Num.pos_zero;
          Samples.reading Samples.t_2024_02_01 Num.pos_inf])]
  /\ series_diffs [Samples.reading Samples.t_2024_01_01 Num.pos_zero;
                   Samples.reading Samples.t_2024_02_01 Num.pos_inf]
     = [(Samples.t_2024_02_01, Some Num.pos_inf)]
  /\ data_import
       (build_consumption_payload
          [(METER_IMPORT_ID,
            [Samples.reading Samples.t_2024_01_01 Num.pos_zero;
             Samples.reading Samples.t_2024_02_01 Num.pos_inf])])
     = [Some Num.pos_inf].
Proof. repeat split; vm_compute; reflexivity. Qed.

(** ** The merge as a fold of updates *)

Lemma add_or_update_as_set (series : MeterSeries) (ts : utc_datetime)
    (value_ relative_ : option float) :
  add_or_update_messwert series ts value_ relative_
  = series_set ts (merged ts value_ relative_ (series_get ts series)) series.
Proof.
  unfold add_or_update_messwert, merged. destruct (series_get ts series); reflexivity.
Qed.

Lemma merged_idem ts v r o :
  merged ts v r (Some (merged ts v r o)) = merged ts v r o.
Proof. destruct o as [e |], v, r; reflexivity. Qed.

(** An update hides an earlier copy of itself. *)
Lemma merged_absorb ts v r v' r' e :
  merged ts v r (Some (merged ts v' r' (Some (merged ts v r (Some e)))))
  = merged ts v r (Some (merged ts v' r' (Some e))).
Proof. destruct v, r, v', r'; reflexivity. Qed.

Lemma series_mem_add_or_update (t ts : utc_datetime) v r (series : MeterSeries) :
  od_mem Z.eqb t (add_or_update_messwert series ts v r)
  = od_mem Z.eqb t series || (t =? ts).
Proof.
  rewrite add_or_update_as_set. unfold series_set.
  apply od_mem_set. exact Z.eqb_eq.
Qed.

Lemma add_or_update_idem (series : MeterSeries) ts v r :
  add_or_update_messwert (add_or_update_messwert series ts v r) ts v r
  = add_or_update_messwert series ts v r.
Proof.
  rewrite !add_or_update_as_set. unfold series_get, series_set.
  rewrite (od_get_set_same _ Z.eqb_eq), (od_set_set_same _ Z.eqb_eq), merged_idem.
  reflexivity.
Qed.

Lemma add_or_update_absorb (series : MeterSeries) ts v r ts' v' r' :
  od_mem Z.eqb ts series = true ->
  add_or_update_messwert
    (add_or_update_messwert (add_or_update_messwert series ts v r) ts' v' r') ts v r
  = add_or_update_messwert (add_or_update_messwert series ts' v' r') ts v r.
Proof.
  intros Hmem. rewrite !add_or_update_as_set. unfold series_get, series_set.
  destruct (Z.eq_dec ts ts') as [<- | Hne].
  - rewrite !(od_get_set_same _ Z.eqb_eq), !(od_set_set_same _ Z.eqb_eq).
    unfold od_mem in Hmem. destruct (od_get Z.eqb ts series) as [e |]; [| discriminate].
    rewrite merged_absorb. reflexivity.
  - assert (Hne' : ts' <> ts) by congruence.
    rewrite !(od_get_set_other _ Z.eqb_eq _ _ Hne').
    rewrite !(od_get_set_other _ Z.eqb_eq _ _ Hne).
    rewrite !(od_get_set_same _ Z.eqb_eq), merged_idem.
    rewrite (od_set_comm _ Z.eqb_eq _ _ _ Hne') by (right; exact Hmem).
    rewrite (od_set_set_same _ Z.eqb_eq).
    reflexivity.
Qed.

Lemma add_or_update_comm (series : MeterSeries) ts v r ts' v' r' :
  od_mem Z.eqb ts' series = true ->
  od_mem Z.eqb ts series = false ->
  add_or_update_messwert (add_or_update_messwert series ts v r) ts' v' r'
  = add_or_update_messwert (add_or_update_messwert series ts' v' r') ts v r.
Proof.
  intros Hmem' Hmem. rewrite !add_or_update_as_set. unfold series_get, series_set.
  assert (Hne : ts <> ts') by (intros ->; congruence).
  assert (Hne' : ts' <> ts) by congruence.
  rewrite (od_get_set_other _ Z.eqb_eq _ _ Hne'), (od_get_set_other _ Z.eqb_eq _ _ Hne).
  apply (od_set_comm _ Z.eqb_eq); [exact Hne' | left; exact Hmem'].
Qed.

Lemma add_or_update_NoDup (series : MeterSeries) ts v r :
  NoDup (od_keys series) -> NoDup (od_keys (add_or_update_messwert series ts v r)).
Proof.
  intros H. rewrite add_or_update_as_set. apply (od_set_NoDup _ Z.eqb_eq). exact H.
Qed.

Lemma merge_update_idem (u : update) (series : MeterSeries) :
  merge_update u (merge_update u series) = merge_update u series.
Proof. unfold merge_update. apply add_or_update_idem. Qed.

Lemma apply_update_as_set (meters : AllMeters) (u : update) :
  apply_update meters u
  = meters_set (u_meter u) (merge_update u (series_of (u_meter u) meters)) meters.
Proof.
  unfold apply_update, setdefault, mutate_series, series_of, merge_update.
  destruct (meters_get (u_meter u) meters) as [series |] eqn:E.
  - rewrite E. reflexivity.
  - unfold meters_get, meters_set.
    rewrite (od_get_set_same _ String.eqb_eq), (od_set_set_same _ String.eqb_eq).
    reflexivity.
Qed.

Lemma series_of_set_same (id : string) (series : MeterSeries) (meters : AllMeters) :
  series_of id (meters_set id series meters) = series.
Proof.
  unfold series_of, meters_get, meters_set.
  rewrite (od_get_set_same _ String.eqb_eq). reflexivity.
Qed.

Lemma series_of_set_other (id id' : string) (series : MeterSeries) (meters : AllMeters) :
  id <> id' -> series_of id (meters_set id' series meters) = series_of id meters.
Proof.
  intros Hne. unfold series_of, meters_get, meters_set.
  rewrite (od_get_set_other _ String.eqb_eq _ _ Hne). reflexivity.
Qed.

Lemma has_key_spec (u : update) (meters : AllMeters) :
  has_key u meters = true ->
  od_mem String.eqb (u_meter u) meters = true
  /\ od_mem Z.eqb (u_ts u) (series_of (u_meter u) meters) = true.
Proof.
  unfold has_key, series_of, meters_get, od_mem.
  destruct (od_get String.eqb (u_meter u) meters); [auto | discriminate].
Qed.

Lemma has_key_series (u : update) (meters : AllMeters) :
  od_mem String.eqb (u_meter u) meters = true ->
  has_key u meters = od_mem Z.eqb (u_ts u) (series_of (u_meter u) meters).
Proof.
  unfold has_key, series_of, meters_get, od_mem.
  destruct (od_get String.eqb (u_meter u) meters); [reflexivity | discriminate].
Qed.

Lemma mem_apply_update (id : string) (meters : AllMeters) (v : update) :
  od_mem String.eqb id (apply_update meters v)
  = od_mem String.eqb id meters || String.eqb id (u_meter v).
Proof.
  rewrite apply_update_as_set. unfold meters_set. apply od_mem_set. exact String.eqb_eq.
Qed.

Lemma has_key_apply_update (u v : update) (meters : AllMeters) :
  has_key u (apply_update meters v)
  = if String.eqb (u_meter u) (u_meter v)
    then od_mem Z.eqb (u_ts u) (series_of (u_meter u) meters) || (u_ts u =? u_ts v)
    else has_key u meters.
Proof.
  destruct (String.eqb (u_meter u) (u_meter v)) eqn:E.
  - apply String.eqb_eq in E.
    rewrite has_key_series by (rewrite mem_apply_update, E, String.eqb_refl, orb_true_r;
                               reflexivity).
    rewrite apply_update_as_set, E, series_of_set_same.
    unfold merge_update. apply series_mem_add_or_update.
  - apply String.eqb_neq in E.
    unfold has_key. rewrite apply_update_as_set.
    unfold meters_get, meters_set.
    rewrite (od_get_set_other _ String.eqb_eq _ _ E). reflexivity.
Qed.

Lemma has_key_apply_same (u : update) (meters : AllMeters) :
  has_key u (apply_update meters u) = true.
Proof.
  rewrite has_key_apply_update, String.eqb_refl, Z.eqb_refl, orb_true_r. reflexivity.
Qed.

Lemma has_key_apply_mono (u v : update) (meters : AllMeters) :
  has_key u meters = true -> has_key u (apply_update meters v) = true.
Proof.
  intros H. rewrite has_key_apply_update.
  destruct (String.eqb (u_meter u) (u_meter v)); [| exact H].
  destruct (has_key_spec _ _ H) as [_ ->]. reflexivity.
Qed.

Lemma has_key_apply_false (u v : update) (meters : AllMeters) :
  has_key v meters = true -> has_key u meters = false ->
  has_key u (apply_update meters v) = false.
Proof.
  intros Hv Hu. rewrite has_key_apply_update.
  destruct (String.eqb (u_meter u) (u_meter v)) eqn:E; [| exact Hu].
  apply String.eqb_eq in E.
  destruct (has_key_spec _ _ Hv) as [Hm Hts]. rewrite <- E in Hm, Hts.
  rewrite (has_key_series _ _ Hm) in Hu. rewrite Hu. simpl.
  apply Z.eqb_neq. intros Heq. rewrite Heq in Hu. congruence.
Qed.

Lemma apply_update_idem (meters : AllMeters) (u : update) :
  apply_update (apply_update meters u) u = apply_update meters u.
Proof.
  rewrite (apply_update_as_set (apply_update meters u)), apply_update_as_set.
  rewrite series_of_set_same. unfold meters_set.
  rewrite (od_set_set_same _ String.eqb_eq).
  unfold merge_update. rewrite add_or_update_idem. reflexivity.
Qed.

(** An update hides an earlier copy of itself, when its keys were there
    before. *)
Lemma apply_update_absorb (meters : AllMeters) (u v : update) :
  has_key u meters = true ->
  apply_update (apply_update (apply_update meters u) v) u
  = apply_update (apply_update meters v) u.
Proof.
  intros H. destruct (has_key_spec _ _ H) as [Hm Hts].
  destruct (String.string_dec (u_meter u) (u_meter v)) as [E | Hne].
  - rewrite (apply_update_as_set (apply_update (apply_update meters u) v)).
    rewrite (apply_update_as_set (apply_update meters u)).
    rewrite (apply_update_as_set (apply_update meters v)).
    rewrite !apply_update_as_set. rewrite <- !E.
    rewrite !series_of_set_same. unfold meters_set.
    rewrite !(od_set_set_same _ String.eqb_eq).
    unfold merge_update. rewrite add_or_update_absorb by exact Hts. reflexivity.
  - assert (Hne' : u_meter v <> u_meter u) by congruence.
    rewrite (apply_update_as_set (apply_update (apply_update meters u) v)).
    rewrite (apply_update_as_set (apply_update meters u)).
    rewrite (apply_update_as_set (apply_update meters v)).
    rewrite !apply_update_as_set.
    rewrite !(series_of_set_other _ _ Hne), !(series_of_set_other _ _ Hne').
    rewrite !series_of_set_same. unfold meters_set.
    rewrite merge_update_idem.
    rewrite (od_set_comm _ String.eqb_eq _ _ _ Hne') by (right; exact Hm).
    rewrite (od_set_set_same _ String.eqb_eq). reflexivity.
Qed.

(** A new key and an update of present keys commute. *)
Lemma apply_update_comm (meters : AllMeters) (u v : update) :
  has_key v meters = true -> has_key u meters = false ->
  apply_update (apply_update meters u) v = apply_update (apply_update meters v) u.
Proof.
  intros Hv Hu. destruct (has_key_spec _ _ Hv) as [Hm Hts].
  destruct (String.string_dec (u_meter u) (u_meter v)) as [E | Hne].
  - rewrite (apply_update_as_set (apply_update meters u)).
    rewrite (apply_update_as_set (apply_update meters v)).
    rewrite !apply_update_as_set. rewrite <- !E in *.
    rewrite !series_of_set_same. unfold meters_set.
    rewrite !(od_set_set_same _ String.eqb_eq).
    rewrite (has_key_series _ _ Hm) in Hu.
    unfold merge_update. rewrite (@add_or_update_comm _ _ _ _ _ _ _ Hts Hu). reflexivity.
  - assert (Hne' : u_meter v <> u_meter u) by congruence.
    rewrite (apply_update_as_set (apply_update meters u)).
    rewrite (apply_update_as_set (apply_update meters v)).
    rewrite !apply_update_as_set.
    rewrite (series_of_set_other _ _ Hne), (series_of_set_other _ _ Hne').
    unfold meters_set.
    apply (od_set_comm _ String.eqb_eq); [exact Hne' | left; exact Hm].
Qed.

Lemma has_key_apply_updates_mono (u : update) (us : list update) (meters : AllMeters) :
  has_key u meters = true -> has_key u (apply_updates us meters) = true.
Proof.
  revert meters; induction us as [| v us IH]; intros meters H; simpl; [exact H |].
  apply IH. apply has_key_apply_mono. exact H.
Qed.

Lemma has_key_all_applied (us : list update) (meters : AllMeters) (u : update) :
  In u us -> has_key u (apply_updates us meters) = true.
Proof.
  revert meters; induction us as [| v us IH]; intros meters; simpl; [tauto |].
  intros [-> | Hin].
  - apply has_key_apply_updates_mono. apply has_key_apply_same.
  - apply IH. exact Hin.
Qed.

Lemma apply_updates_absorb (us : list update) (meters : AllMeters) (u : update) :
  has_key u meters = true ->
  apply_update (apply_updates us (apply_update meters u)) u
  = apply_update (apply_updates us meters) u.
Proof.
  revert meters; induction us as [| v us IH]; intros meters H; simpl.
  - apply apply_update_idem.
  - rewrite <- (IH (apply_update (apply_update meters u) v))
      by (apply has_key_apply_mono, has_key_apply_same).
    rewrite (@apply_update_absorb meters u v H).
    apply IH. apply has_key_apply_mono. exact H.
Qed.

Lemma apply_updates_comm (us : list update) (meters : AllMeters) (u : update) :
  (forall v, In v us -> has_key v meters = true) ->
  has_key u meters = false ->
  apply_updates us (apply_update meters u) = apply_update (apply_updates us meters) u.
Proof.
  revert meters; induction us as [| v us IH]; intros meters Hall Hu; simpl;
    [reflexivity |].
  assert (Hv : has_key v meters = true) by (apply Hall; left; reflexivity).
  rewrite (@apply_update_comm meters u v Hv Hu).
  apply IH.
  - intros w Hw. apply has_key_apply_mono. apply Hall. right; exact Hw.
  - apply has_key_apply_false; assumption.
Qed.

(** Folding the same updates a second time changes nothing. *)
Lemma apply_updates_idem (us : list update) (meters : AllMeters) :
  apply_updates us (apply_updates us meters) = apply_updates us meters.
Proof.
  revert meters; induction us as [| u us IH] using rev_ind; intros meters;
    [reflexivity |].
  unfold apply_updates in *. rewrite !fold_left_app. simpl.
  set (m' := fold_left apply_update us meters).
  assert (Hm' : fold_left apply_update us m' = m') by apply IH.
  destruct (has_key u m') eqn:Hu.
  - change (fold_left apply_update us (apply_update m' u))
      with (apply_updates us (apply_update m' u)).
    rewrite (@apply_updates_absorb us m' u Hu).
    unfold apply_updates. rewrite Hm'. reflexivity.
  - change (fold_left apply_update us (apply_update m' u))
      with (apply_updates us (apply_update m' u)).
    rewrite apply_updates_comm.
    + unfold apply_updates. rewrite Hm'. apply apply_update_idem.
    + intros v Hv. apply (has_key_all_applied us meters). exact Hv.
    + exact Hu.
Qed.

(** ** The parsers as emitters of updates *)

Lemma esl_time_period_as_updates (tp : Element) (meters : AllMeters) :
  esl_time_period tp meters
  = (us <- esl_period_updates tp ;; Ok (apply_updates us meters)).
Proof.
  unfold esl_time_period, esl_period_updates.
  destruct (py_or _ _) as [[| a s] |]; try reflexivity.
  destruct (ensure_datetime_utc _) as [ts | e]; [| reflexivity]. cbn [bind].
  destruct (findall tp "ValueRow") as [rows | e]; [| reflexivity]. cbn [bind].
  destruct (for_each esl_value_row rows esl_sums_init) as [sums | e]; [| reflexivity].
  cbn [bind]. destruct (import_present sums), (export_present sums); reflexivity.
Qed.

Lemma for_each_esl_as_updates (tps : list Element) (meters : AllMeters) :
  for_each esl_time_period tps meters
  = (us <- esl_updates tps ;; Ok (apply_updates us meters)).
Proof.
  revert meters; induction tps as [| tp tps IH]; intros meters; [reflexivity |].
  cbn [for_each esl_updates]. rewrite esl_time_period_as_updates.
  destruct (esl_period_updates tp) as [us | e]; [| reflexivity]. cbn [bind].
  rewrite IH. destruct (esl_updates tps) as [us' | e]; [| reflexivity]. cbn [bind].
  unfold apply_updates. rewrite fold_left_app. reflexivity.
Qed.

(** One file either fails whatever the store is, or folds a list of
    updates, fixed by the file, into the store. *)
Lemma load_file_cases (file : xml_file) :
  (exists e, forall meters, load_file file meters = Raise e)
  \/ (exists us, forall meters, load_file file meters = Ok (apply_updates us meters)).
Proof.
  destruct file as [| root | f];
    [| | left; exists (raised f); reflexivity].
  - right. exists []. reflexivity.
  - destruct (filter (fun d => String.eqb (tag d) "TimePeriod") (descendants root))
      as [| tp tps] eqn:E.
    + destruct (negb (Str.contains "DocumentID" (text_content root))
                && negb (Str.contains "Interval" (text_content root))) eqn:Hm.
      * right. exists []. intros meters. unfold load_file.
        rewrite parse_esl_file_periods, E. cbn [bind negb].
        rewrite parse_sdat_file_outcome, Hm. reflexivity.
      * left. exists SyntaxError. intros meters. unfold load_file.
        rewrite parse_esl_file_periods, E. cbn [bind negb].
        rewrite parse_sdat_file_outcome, Hm. reflexivity.
    + destruct (esl_updates (tp :: tps)) as [us | e] eqn:Hu.
      * right. exists us. intros meters. unfold load_file.
        rewrite parse_esl_file_periods, E, for_each_esl_as_updates, Hu. reflexivity.
      * left. exists e. intros meters. unfold load_file.
        rewrite parse_esl_file_periods, E, for_each_esl_as_updates, Hu. reflexivity.
Qed.

(** C9. Folding the same file twice into a fresh store gives the store
    that folding it once gives (and fails when folding it once fails); so
    does the whole load. *)
Theorem reingestion_idempotent (file : xml_file) :
  for_each load_file [file; file] [] = for_each load_file [file] []
  /\ load_all_data [file; file] = load_all_data [file].
Proof.
  assert (H : for_each load_file [file; file] [] = for_each load_file [file] []).
  { cbn [for_each].
    destruct (load_file_cases file) as [[e He] | [us Hus]].
    - rewrite He. reflexivity.
    - rewrite (Hus []). cbn [bind]. rewrite (Hus (apply_updates us [])).
      rewrite apply_updates_idem. reflexivity. }
  split; [exact H |].
  unfold load_all_data. rewrite H. reflexivity.
Qed.

(** Re-ingesting the sample export: the store after two passes is the
    store after one, with the readings of both periods. *)
Lemma reingestion_idempotent_sample :
  for_each load_file [Samples.esl_two_periods; Samples.esl_two_periods] []
  = Ok [(METER_IMPORT_ID,
         [Samples.reading Samples.t_2024_02_01 (Num.of_decimal false 1205 (-1));
          Samples.reading Samples.t_2024_01_01 (Num.of_Z 90)]);
        (METER_EXPORT_ID, [Samples.reading Samples.t_2024_02_01 (Num.of_Z 7)])].
Proof.
  rewrite (proj1 (reingestion_idempotent Samples.esl_two_periods)).
  vm_compute. reflexivity.
Defined.

(** ** Unique keys *)

Lemma apply_update_unique_keys (meters : AllMeters) (u : update) :
  unique_keys meters -> unique_keys (apply_update meters u).
Proof.
  intros [Hk Hs]. rewrite apply_update_as_set. unfold meters_set. split.
  - apply (od_set_NoDup _ String.eqb_eq). exact Hk.
  - rewrite Forall_forall in *. intros x Hx.
    apply (od_set_In _ String.eqb_eq) in Hx.
    destruct Hx as [-> | Hx]; [| apply Hs; exact Hx].
    simpl. unfold merge_update. apply add_or_update_NoDup.
    unfold series_of, meters_get.
    destruct (od_get String.eqb (u_meter u) meters) as [series |] eqn:E; [| constructor].
    apply (od_get_In _ String.eqb_eq) in E.
    apply (Hs _ E).
Qed.

Lemma apply_updates_unique_keys (us : list update) (meters : AllMeters) :
  unique_keys meters -> unique_keys (apply_updates us meters).
Proof.
  revert meters; induction us as [| u us IH]; intros meters H; simpl; [exact H |].
  apply IH. apply apply_update_unique_keys. exact H.
Qed.

Lemma for_each_load_file_unique_keys (files : list xml_file) (meters meters' : AllMeters) :
  unique_keys meters -> for_each load_file files meters = Ok meters' ->
  unique_keys meters'.
Proof.
  revert meters; induction files as [| file files IH]; intros meters H; simpl.
  - intros E; injection E as <-. exact H.
  - destruct (load_file_cases file) as [[e He] | [us Hus]].
    + rewrite He. discriminate.
    + rewrite Hus. cbn [bind]. apply IH. apply apply_updates_unique_keys. exact H.
Qed.

(** ** The final sort *)

Lemma od_keys_insert_by_key {V : Type} (x : Z * V) (l : list (Z * V)) :
  od_keys (insert_by_key x l) = insert_sorted (fst x) (od_keys l).
Proof.
  unfold od_keys. induction l as [| y l IH]; simpl; [reflexivity |].
  destruct (fst x <=? fst y); simpl; [reflexivity | rewrite IH; reflexivity].
Qed.

Lemma od_keys_sorted_by_key {V : Type} (l : list (Z * V)) :
  od_keys (sorted_by_key l) = sorted_list (od_keys l).
Proof.
  induction l as [| x l IH]; simpl; [reflexivity |].
  rewrite od_keys_insert_by_key, IH. reflexivity.
Qed.

Lemma insert_sorted_perm (x : Z) (l : list Z) : Permutation (insert_sorted x l) (x :: l).
Proof.
  induction l as [| y l IH]; simpl; [reflexivity |].
  destruct (x <=? y); [reflexivity |].
  rewrite IH. apply perm_swap.
Qed.

Lemma sorted_list_perm (l : list Z) : Permutation (sorted_list l) l.
Proof.
  induction l as [| x l IH]; simpl; [reflexivity |].
  rewrite insert_sorted_perm, IH. reflexivity.
Qed.

Lemma insert_sorted_sorted (x : Z) (l : list Z) :
  StronglySorted Z.le l -> StronglySorted Z.le (insert_sorted x l).
Proof.
  induction 1 as [| y l Hs IH Hy]; simpl; [repeat constructor |].
  destruct (Z.leb_spec x y) as [Hxy | Hxy].
  - constructor; [constructor; assumption |].
    constructor; [exact Hxy |].
    eapply Forall_impl; [| exact Hy]. intros z Hz. simpl in Hz. lia.
  - constructor; [exact IH |].
    eapply Permutation_Forall; [symmetry; apply insert_sorted_perm |].
    constructor; [lia | exact Hy].
Qed.

Lemma sorted_list_sorted (l : list Z) : StronglySorted Z.le (sorted_list l).
Proof.
  induction l as [| x l IH]; simpl; [constructor | apply insert_sorted_sorted; exact IH].
Qed.

Lemma sorted_NoDup_strict (l : list Z) :
  StronglySorted Z.le l -> NoDup l -> StronglySorted Z.lt l.
Proof.
  induction 1 as [| x l Hs IH Hx]; intros Hnd; [constructor |].
  inversion Hnd as [| ? ? Hnotin Hnd']; subst.
  constructor; [apply IH; exact Hnd' |].
  rewrite Forall_forall in *. intros y Hy.
  specialize (Hx y Hy). simpl in Hx.
  assert (x <> y) by (intros ->; contradiction). lia.
Qed.

Lemma strict_sorted_ascending (l : list Z) :
  StronglySorted Z.lt l -> strictly_ascending l.
Proof.
  unfold strictly_ascending.
  induction 1 as [| x l Hs IH Hx]; intros i Hi; simpl in Hi; [lia |].
  destruct i as [| i].
  - destruct l as [| y l]; simpl in *; [lia |].
    inversion Hx; assumption.
  - simpl. apply IH. lia.
Qed.

Lemma od_set_app_fresh {V : Type} (k : string) (v v0 : V) (d1 d2 : list (string * V)) :
  ~ In k (od_keys d1) ->
  od_set String.eqb k v (d1 ++ (k, v0) :: d2) = d1 ++ (k, v) :: d2.
Proof.
  unfold od_keys. induction d1 as [| [k1 v1] d1 IH]; simpl; intros Hnotin.
  - rewrite String.eqb_refl. reflexivity.
  - destruct (String.eqb_spec k k1) as [-> | Hne]; [tauto |].
    rewrite IH by tauto. reflexivity.
Qed.

Lemma sort_all_from (done todo : AllMeters) :
  NoDup (od_keys (done ++ todo)) ->
  fold_left (fun m item => meters_set (fst item) (sorted_by_key (snd item)) m) todo
    (map sort_item done ++ todo)
  = map sort_item (done ++ todo).
Proof.
  revert done; induction todo as [| [id series] todo IH]; intros done Hnd.
  - simpl. rewrite !app_nil_r. reflexivity.
  - cbn [fold_left fst snd]. unfold meters_set.
    rewrite od_set_app_fresh.
    + change (map sort_item done ++ (id, sorted_by_key series) :: todo)
        with (map sort_item done ++ [sort_item (id, series)] ++ todo).
      rewrite app_assoc, <- map_last.
      rewrite IH.
      * rewrite <- app_assoc. reflexivity.
      * rewrite <- app_assoc. exact Hnd.
    + unfold od_keys in *. rewrite map_map. simpl.
      rewrite map_app in Hnd. simpl in Hnd.
      apply NoDup_remove_2 in Hnd. intros Hin. apply Hnd.
      apply in_or_app. left. exact Hin.
Qed.

(** With unique meter identifiers, the last loop sorts every series where
    it stands. *)
Lemma sort_all_map (meters : AllMeters) :
  NoDup (od_keys meters) -> sort_all meters = map sort_item meters.
Proof. intros H. apply (sort_all_from [] meters). exact H. Qed.

(** C6. Every meter series of a store returned by a completed load, over
    any files and whatever the order of insertion was, has strictly
    ascending timestamps: [timestamps[i] < timestamps[i+1]] for every
    valid [i]. *)
Theorem load_all_data_series_ascending (files : list xml_file) (meters : AllMeters)
    (meter_id : string) (series : MeterSeries) :
  load_all_data files = Ok meters ->
  meters_get meter_id meters = Some series ->
  strictly_ascending (od_keys series).
Proof.
  unfold load_all_data. intros Hload Hget.
  apply bind_Ok_inv in Hload. destruct Hload as [folded [Hfold Hsort]].
  injection Hsort as <-.
  assert (Huk : unique_keys folded).
  { apply (@for_each_load_file_unique_keys files [] folded); [| exact Hfold].
    split; constructor. }
  destruct Huk as [Hk Hs].
  rewrite (@sort_all_map folded Hk) in Hget.
  apply (od_get_In _ String.eqb_eq) in Hget.
  apply in_map_iff in Hget. destruct Hget as [[id unsorted] [Heq Hin]].
  unfold sort_item in Heq. simpl in Heq. injection Heq as _ <-.
  rewrite Forall_forall in Hs. specialize (Hs _ Hin). simpl in Hs.
  rewrite od_keys_sorted_by_key.
  apply strict_sorted_ascending, sorted_NoDup_strict.
  - apply sorted_list_sorted.
  - eapply Permutation_NoDup; [symmetry; apply sorted_list_perm | exact Hs].
Qed.

(** The sample export lists its later period first; after the load the
    import series runs from January to February. *)
Lemma load_all_data_series_ascending_sample :
  load_all_data [Samples.esl_two_periods]
  = Ok [(METER_IMPORT_ID,
         [Samples.reading Samples.t_2024_01_01 (Num.of_Z 90);
          Samples.reading Samples.t_2024_02_01 (Num.of_decimal false 1205 (-1))]);
        (METER_EXPORT_ID, [Samples.reading Samples.t_2024_02_01 (Num.of_Z 7)])]
  /\ strictly_ascending [Samples.t_2024_01_01; Samples.t_2024_02_01].
Proof.
  assert (H : load_all_data [Samples.esl_two_periods]
              = Ok [(METER_IMPORT_ID,
                     [Samples.reading Samples.t_2024_01_01 (Num.of_Z 90);
                      Samples.reading Samples.t_2024_02_01
                        (Num.of_decimal false 1205 (-1))]);
                    (METER_EXPORT_ID,
                     [Samples.reading Samples.t_2024_02_01 (Num.of_Z 7)])])
    by (vm_compute; reflexivity).
  split; [exact H |].
  exact (@load_all_data_series_ascending _ _ METER_IMPORT_ID _ H eq_refl).
Defined.

(* ===================================================================== *)
(** * Further properties of the engine *)
(* ===================================================================== *)

(** ** Merging partial readings *)

Lemma merged_twice ts v1 r1 v2 r2 o :
  merged ts v2 r2 (Some (merged ts v1 r1 o))
  = merged ts (supplied_or v2 v1) (supplied_or r2 r1) o.
Proof. destruct o, v1, r1, v2, r2; reflexivity. Qed.

Lemma add_or_update_twice (series : MeterSeries) ts v1 r1 v2 r2 :
  add_or_update_messwert (add_or_update_messwert series ts v1 r1) ts v2 r2
  = add_or_update_messwert series ts (supplied_or v2 v1) (supplied_or r2 r1).
Proof.
  rewrite !add_or_update_as_set. unfold series_get, series_set.
  rewrite (od_get_set_same _ Z.eqb_eq), (od_set_set_same _ Z.eqb_eq), merged_twice.
  reflexivity.
Qed.

Lemma series_get_add_or_update (series : MeterSeries) ts v r t :
  series_get t (add_or_update_messwert series ts v r)
  = if t =? ts then Some (merged ts v r (series_get ts series)) else series_get t series.
Proof.
  rewrite add_or_update_as_set. unfold series_get, series_set.
  destruct (Z.eqb_spec t ts) as [-> | Hne].
  - apply (od_get_set_same _ Z.eqb_eq).
  - apply (od_get_set_other _ Z.eqb_eq). exact Hne.
Qed.

(** X1. Looking a series up after [add_or_update_messwert]: at the merged
    timestamp stands a reading whose supplied fields are the new values and
    whose other fields are those of the reading that was there (NaN, and
    the timestamp itself, when none was); every other timestamp reads as
    before. The keys keep their order, and a new timestamp goes last. *)
Theorem add_or_update_messwert_lookup (series : MeterSeries) (ts t : utc_datetime)
    (value_ relative_ : option float) :
  let old := series_get ts series in
  series_get t (add_or_update_messwert series ts value_ relative_)
  = (if t =? ts then
       Some {| timestamp := match old with Some e => timestamp e | None => ts end;
               value := match value_, old with
                        | Some v, _ => v
                        | None, Some e => value e
                        | None, None => Num.nan
                        end;
               relative := match relative_, old with
                           | Some r, _ => r
                           | None, Some e => relative e
                           | None, None => Num.nan
                           end |}
     else series_get t series)
  /\ od_keys (add_or_update_messwert series ts value_ relative_)
     = (if od_mem Z.eqb ts series then od_keys series else od_keys series ++ [ts]).
Proof.
  intros old. split.
  - rewrite series_get_add_or_update. destruct (t =? ts); [| reflexivity].
    fold old. destruct old as [[t0 v0 r0] |], value_, relative_; reflexivity.
  - rewrite add_or_update_as_set. unfold series_set.
    apply od_keys_set.
Qed.

(** X2. Two merges at one timestamp are one merge: each field is the one
    the later call supplied, else the one the earlier call supplied. In
    particular a later value overwrites an earlier one, and merging the same
    partial reading again changes nothing. *)
Theorem add_or_update_messwert_twice (series : MeterSeries) (ts : utc_datetime)
    (v1 r1 v2 r2 : option float) :
  add_or_update_messwert (add_or_update_messwert series ts v1 r1) ts v2 r2
  = add_or_update_messwert series ts (supplied_or v2 v1) (supplied_or r2 r1).
Proof. apply add_or_update_twice. Qed.

(** X3. An absolute-only and a relative-only merge at one timestamp
    commute: whichever comes first, the reading ends with both fields, and
    the series is the same. *)
Theorem add_or_update_messwert_disjoint_fields (series : MeterSeries) (ts : utc_datetime)
    (v r : float) :
  add_or_update_messwert (add_or_update_messwert series ts (Some v) None) ts None (Some r)
  = add_or_update_messwert (add_or_update_messwert series ts None (Some r)) ts (Some v) None
  /\ exists m,
      series_get ts
        (add_or_update_messwert (add_or_update_messwert series ts (Some v) None) ts None
           (Some r)) = Some m
      /\ value m = v /\ relative m = r.
Proof.
  rewrite !add_or_update_twice. simpl. split; [reflexivity |].
  rewrite series_get_add_or_update, Z.eqb_refl.
  eexists. split; [reflexivity |].
  destruct (series_get ts series); split; reflexivity.
Qed.

(** ** The rows of a period *)

Lemma floatnumber_raises (neg : bool) (l : list ascii) (e : exn) :
  Num.floatnumber neg l = Raise e -> e = ValueError.
Proof.
  unfold Num.floatnumber.
  repeat match goal with
         | |- context [match ?x with _ => _ end] => destruct x
         end; intros H; congruence.
Qed.

(** [float(...)] fails with [ValueError] only. *)
Lemma py_float_raises (s : string) (e : exn) :
  Num.py_float s = Raise e -> e = ValueError.
Proof.
  unfold Num.py_float. destruct (Num.sign _) as [neg l].
  destruct (_ || _); [discriminate |].
  destruct (Num.same_nocase "nan" l); [discriminate |].
  apply floatnumber_raises.
Qed.

(** One turn of the row loop, by what the row carries. *)
Lemma esl_value_row_step (vr : Element) (acc : esl_sums) :
  esl_value_row vr acc
  = Ok match row_value vr with
       | Some val =>
           if any_in OBIS_IMPORT (get_default "obis" (attrib vr)) then
             {| sum_import := Num.add (sum_import acc) val; sum_export := sum_export acc;
                import_present := true; export_present := export_present acc |}
           else if any_in OBIS_EXPORT (get_default "obis" (attrib vr)) then
             {| sum_import := sum_import acc; sum_export := Num.add (sum_export acc) val;
                import_present := import_present acc; export_present := true |}
           else acc
       | None => acc
       end.
Proof.
  unfold esl_value_row, row_value. fold (val_text vr).
  destruct (Num.py_float (Str.replace_comma (val_text vr))) as [val | e] eqn:E;
    cbn [bind try_except].
  - destruct (any_in OBIS_IMPORT (get_default "obis" (attrib vr))); [reflexivity |].
    destruct (any_in OBIS_EXPORT (get_default "obis" (attrib vr))); reflexivity.
  - rewrite (py_float_raises _ E). reflexivity.
Qed.

Lemma esl_rows_from (rows : list Element) (acc : esl_sums) :
  for_each esl_value_row rows acc
  = Ok {| sum_import := fold_left Num.add (import_values rows) (sum_import acc);
          sum_export := fold_left Num.add (export_values rows) (sum_export acc);
          import_present :=
            import_present acc || negb (Nat.eqb (List.length (import_values rows)) 0);
          export_present :=
            export_present acc || negb (Nat.eqb (List.length (export_values rows)) 0) |}.
Proof.
  revert acc; induction rows as [| vr rows IH]; intros acc.
  - simpl. rewrite !orb_false_r. destruct acc; reflexivity.
  - cbn [for_each]. rewrite esl_value_row_step. cbn [bind]. rewrite IH.
    unfold import_values, export_values. cbn [flat_map].
    fold (import_values rows). fold (export_values rows).
    destruct (row_value vr) as [val |]; [| reflexivity].
    destruct (any_in OBIS_IMPORT _).
    + cbn. rewrite orb_true_r. reflexivity.
    + destruct (any_in OBIS_EXPORT _); cbn; [rewrite orb_true_r |]; reflexivity.
Qed.

(** X4. The row loop of a period never fails. It sums, from 0.0 and in
    document order, the values of the rows whose code contains an import
    suffix, and likewise the export rows that contain no import suffix; a
    row without a readable number or with another code adds nothing, and a
    class is present exactly when one of its rows was added. *)
Theorem esl_value_rows_sums (rows : list Element) :
  for_each esl_value_row rows esl_sums_init
  = Ok {| sum_import := float_sum (import_values rows);
          sum_export := float_sum (export_values rows);
          import_present := negb (Nat.eqb (List.length (import_values rows)) 0);
          export_present := negb (Nat.eqb (List.length (export_values rows)) 0) |}.
Proof. rewrite esl_rows_from. reflexivity. Qed.

(** ** What the ESL parser does to the store, and when it fails *)

Lemma make_raises y mo d h mi s us tz e :
  make y mo d h mi s us tz = Raise e -> e = ValueError.
Proof. unfold make. destruct (_ && _); [discriminate | congruence]. Qed.

Lemma fromisoformat_raises (s : string) (e : exn) :
  fromisoformat s = Raise e -> e = ValueError.
Proof.
  unfold fromisoformat.
  destruct (parse_isoformat_date (Str.chars s)) as [[[[y mo] d] [| sep tstr]] |];
    try congruence.
  - apply make_raises.
  - destruct (split_at_sign tstr) as [timestr z].
    destruct (parse_hh_mm_ss_ff timestr) as [[[[h mi] sec] us] |]; try congruence.
    destruct z as [[neg tzstr] |].
    + destruct (parse_tz neg tzstr); [apply make_raises | congruence].
    + apply make_raises.
Qed.

Lemma strptime_raises (s : string) (fmt : list token) (e : exn) :
  strptime s fmt = Raise e -> e = ValueError.
Proof.
  unfold strptime.
  destruct (match_tokens fmt [] (Str.chars s)) as [| [vals rest] l]; try congruence.
  destruct vals as [| y [| mo [| d [| h [| mi [| sec [| x vals]]]]]]]; try congruence.
  destruct rest; try congruence.
  apply make_raises.
Qed.

Lemma parse_datetime_raises (s : string) (e : exn) :
  parse_datetime s = Raise e -> e = ValueError.
Proof.
  unfold parse_datetime, try_except.
  destruct (fromisoformat _) as [dt0 | e0] eqn:E0; [discriminate |].
  rewrite (fromisoformat_raises _ E0). cbn [is_ValueError].
  destruct (strptime s fmt_T) as [dt1 | e1] eqn:E1; [discriminate |].
  rewrite (strptime_raises _ _ E1). cbn [is_ValueError].
  destruct (strptime s fmt_blank) as [dt2 | e2] eqn:E2; [discriminate |].
  rewrite (strptime_raises _ _ E2). cbn [is_ValueError]. congruence.
Qed.

Lemma ensure_datetime_utc_raises (s : string) (e : exn) :
  ensure_datetime_utc s = Raise e -> e = ValueError \/ e = OverflowError.
Proof.
  unfold ensure_datetime_utc.
  destruct (parse_datetime s) as [dt | e0] eqn:E; cbn [bind].
  - destruct (tzinfo dt); [| discriminate].
    unfold astimezone_utc. destruct (in_range _); [discriminate |].
    intros H; injection H as <-. right; reflexivity.
  - intros H; injection H as <-. left. eapply parse_datetime_raises; eauto.
Qed.

(** One turn of the period loop, by the end marker of the period. *)
Lemma esl_time_period_spec (tp : Element) (meters : AllMeters) :
  esl_time_period tp meters
  = match end_attr tp with
    | Some (String a s) =>
        ts <- ensure_datetime_utc (String a s) ;;
        Ok (apply_updates (period_updates ts (value_rows tp)) meters)
    | _ => Ok meters
    end.
Proof.
  rewrite esl_time_period_as_updates. unfold esl_period_updates. fold (end_attr tp).
  destruct (end_attr tp) as [[| a s] |]; try reflexivity.
  destruct (ensure_datetime_utc (String a s)) as [ts | e]; [| reflexivity]. cbn [bind].
  rewrite findall_plain by reflexivity. fold (value_rows tp). cbn [bind].
  rewrite esl_rows_from. reflexivity.
Qed.

Lemma period_updates_absolute (ts : utc_datetime) (rows : list Element) :
  Forall absolute_update (period_updates ts rows).
Proof.
  unfold period_updates, absolute_update.
  assert (Hi : forall v,
             (fun u => (u_meter u = METER_IMPORT_ID \/ u_meter u = METER_EXPORT_ID)
                       /\ u_relative u = None /\ exists v, u_value u = Some v)
               {| u_meter := METER_IMPORT_ID; u_ts := ts; u_value := Some v;
                  u_relative := None |})
    by (intros v; simpl; eauto).
  assert (He : forall v,
             (fun u => (u_meter u = METER_IMPORT_ID \/ u_meter u = METER_EXPORT_ID)
                       /\ u_relative u = None /\ exists v, u_value u = Some v)
               {| u_meter := METER_EXPORT_ID; u_ts := ts; u_value := Some v;
                  u_relative := None |})
    by (intros v; simpl; eauto).
  destruct (negb (Nat.eqb (List.length (import_values rows)) 0));
    destruct (negb (Nat.eqb (List.length (export_values rows)) 0));
    simpl; repeat (apply Forall_cons; [apply Hi || apply He |]); constructor.
Qed.

(** A list of periods either fails with the exception of one of its end
    markers, or merges absolute updates. *)
Lemma for_each_esl_outcome (tps : list Element) :
  (exists e tp a s,
      In tp tps /\ end_attr tp = Some (String a s)
      /\ ensure_datetime_utc (String a s) = Raise e
      /\ forall meters, for_each esl_time_period tps meters = Raise e)
  \/ (exists us,
         Forall absolute_update us
         /\ forall meters, for_each esl_time_period tps meters = Ok (apply_updates us meters)).
Proof.
  induction tps as [| tp tps IH].
  - right. exists []. split; [constructor | reflexivity].
  - destruct (end_attr tp) as [[| a s] |] eqn:Hend.
    + destruct IH as [(e & tp' & a' & s' & Hin & H1 & H2 & H3) | (us & Hus & H)].
      * left. exists e, tp', a', s'. repeat split; auto; [right; exact Hin |].
        intros meters. cbn [for_each]. rewrite esl_time_period_spec, Hend. apply H3.
      * right. exists us. split; [exact Hus |].
        intros meters. cbn [for_each]. rewrite esl_time_period_spec, Hend. apply H.
    + destruct (ensure_datetime_utc (String a s)) as [ts | e] eqn:Hts.
      * destruct IH as [(e & tp' & a' & s' & Hin & H1 & H2 & H3) | (us & Hus & H)].
        -- left. exists e, tp', a', s'. repeat split; auto; [right; exact Hin |].
           intros meters. cbn [for_each]. rewrite esl_time_period_spec, Hend, Hts.
           cbn [bind]. apply H3.
        -- right. exists (period_updates ts (value_rows tp) ++ us). split.
           ++ apply Forall_app. split; [apply period_updates_absolute | exact Hus].
           ++ intros meters. cbn [for_each]. rewrite esl_time_period_spec, Hend, Hts.
              cbn [bind]. rewrite H. unfold apply_updates. rewrite fold_left_app.
              reflexivity.
      * left. exists e, tp, a, s. repeat split; auto; [left; reflexivity |].
        intros meters. cbn [for_each]. rewrite esl_time_period_spec, Hend, Hts.
        reflexivity.
    + destruct IH as [(e & tp' & a' & s' & Hin & H1 & H2 & H3) | (us & Hus & H)].
      * left. exists e, tp', a', s'. repeat split; auto; [right; exact Hin |].
        intros meters. cbn [for_each]. rewrite esl_time_period_spec, Hend. apply H3.
      * right. exists us. split; [exact Hus |].
        intros meters. cbn [for_each]. rewrite esl_time_period_spec, Hend. apply H.
Qed.

(** X5. [parse_esl_file] fails in two places only. Either [ET.parse]
    raises something else than [ET.ParseError] (the [ValueError] or
    [LookupError] of an encoding it does not support, the [OSError] of a
    file it cannot read), which the parser does not catch; or the document
    was read and some [TimePeriod] of it has a non-empty end attribute on
    which [ensure_datetime_utc] raises that very exception, a [ValueError]
    or an [OverflowError]. When [ET.parse] raises nothing but
    [ET.ParseError] and every non-empty end attribute normalises, the
    parser returns. *)
Theorem parse_esl_file_failure (file : xml_file) (meters : AllMeters) :
  (forall e,
      parse_esl_file file meters = Raise e ->
      (exists f, file = Failure f /\ e = raised f)
      \/ ((e = ValueError \/ e = OverflowError)
          /\ exists root tp a s,
              file = Document root /\ In tp (time_periods root)
              /\ end_attr tp = Some (String a s)
              /\ ensure_datetime_utc (String a s) = Raise e))
  /\ (forall f, file = Failure f -> parse_esl_file file meters = Raise (raised f))
  /\ ((forall f, file <> Failure f) ->
      (forall root tp a s,
          file = Document root -> In tp (time_periods root) ->
          end_attr tp = Some (String a s) ->
          exists ts, ensure_datetime_utc (String a s) = Ok ts) ->
      exists parsed meters', parse_esl_file file meters = Ok (parsed, meters')).
Proof.
  destruct file as [| root | f].
  - split; [discriminate |]. split; [discriminate |].
    intros _ _. exists false, meters. reflexivity.
  - split; [| split; [discriminate |]].
    + rewrite parse_esl_file_periods. fold (time_periods root).
      destruct (time_periods root) as [| tp0 tps] eqn:E; [discriminate |].
      destruct (for_each_esl_outcome (tp0 :: tps))
        as [(e & tp & a & s & Hin & H1 & H2 & H3) | (us & Hus & H)].
      * intros e'. rewrite H3. cbn [bind]. intros He; injection He as <-.
        right. split; [eapply ensure_datetime_utc_raises; eauto |].
        exists root, tp, a, s. rewrite E. auto.
      * intros e'. rewrite H. discriminate.
    + intros _ Hall. rewrite parse_esl_file_periods. fold (time_periods root).
      destruct (time_periods root) as [| tp0 tps] eqn:E;
        [exists false, meters; reflexivity |].
      destruct (for_each_esl_outcome (tp0 :: tps))
        as [(e & tp & a & s & Hin & H1 & H2 & H3) | (us & Hus & H)].
      * exfalso.
        destruct (Hall root tp a s eq_refl) as [ts Hts];
          [rewrite E; exact Hin | exact H1 |].
        congruence.
      * rewrite H. cbn [bind]. eauto.
  - split; [| split].
    + intros e H. injection H as <-. left. exists f. auto.
    + intros f' H. injection H as <-. reflexivity.
    + intros Hno. exfalso. exact (Hno f eq_refl).
Qed.

(** The export with the end marker ["garbage"]: the parser raises the
    [ValueError] of that marker. A file in an encoding that Python does not
    know: the parser raises the [LookupError] of [ET.parse]. *)
Lemma parse_esl_file_failure_sample :
  parse_esl_file Samples.esl_bad_end [] = Raise ValueError
  /\ (exists root tp a s,
         Samples.esl_bad_end = Document root /\ In tp (time_periods root)
         /\ end_attr tp = Some (String a s)
         /\ ensure_datetime_utc (String a s) = Raise ValueError)
  /\ parse_esl_file (Failure unknown_encoding) [] = Raise LookupError.
Proof.
  assert (H : parse_esl_file Samples.esl_bad_end [] = Raise ValueError)
    by (vm_compute; reflexivity).
  split; [exact H |]. split.
  - destruct (proj1 (parse_esl_file_failure Samples.esl_bad_end []) ValueError H)
      as [(f & Hf & _) | [_ Hend]]; [discriminate Hf | exact Hend].
  - exact (proj1 (proj2 (parse_esl_file_failure (Failure unknown_encoding) []))
             unknown_encoding eq_refl).
Defined.

(** ** One file and the store *)

(** One file either fails whatever the store is, or merges absolute
    updates, fixed by the file, into the store. *)
Lemma load_file_outcome (file : xml_file) :
  (exists e, forall meters, load_file file meters = Raise e)
  \/ (exists us,
         Forall absolute_update us
         /\ forall meters, load_file file meters = Ok (apply_updates us meters)).
Proof.
  destruct file as [| root | f];
    [| | left; exists (raised f); reflexivity].
  - right. exists []. split; [constructor | reflexivity].
  - destruct (time_periods root) as [| tp tps] eqn:E; unfold time_periods in E.
    + destruct (negb (Str.contains "DocumentID" (text_content root))
                && negb (Str.contains "Interval" (text_content root))) eqn:Hm.
      * right. exists []. split; [constructor |]. intros meters. unfold load_file.
        rewrite parse_esl_file_periods, E. cbn [bind negb].
        rewrite parse_sdat_file_outcome, Hm. reflexivity.
      * left. exists SyntaxError. intros meters. unfold load_file.
        rewrite parse_esl_file_periods, E. cbn [bind negb].
        rewrite parse_sdat_file_outcome, Hm. reflexivity.
    + destruct (for_each_esl_outcome (tp :: tps))
        as [(e & tp' & a & s & Hin & H1 & H2 & H3) | (us & Hus & H)].
      * left. exists e. intros meters. unfold load_file.
        rewrite parse_esl_file_periods, E, H3. reflexivity.
      * right. exists us. split; [exact Hus |]. intros meters. unfold load_file.
        rewrite parse_esl_file_periods, E, H. reflexivity.
Qed.

Lemma meters_get_apply_update_other (meters : AllMeters) (u : update) (id : string) :
  id <> u_meter u -> meters_get id (apply_update meters u) = meters_get id meters.
Proof.
  intros Hne. rewrite apply_update_as_set. unfold meters_get, meters_set.
  apply (od_get_set_other _ String.eqb_eq). exact Hne.
Qed.

Lemma reading_at_apply_update (meters : AllMeters) (u : update) (id : string)
    (ts : utc_datetime) :
  reading_at (apply_update meters u) id ts
  = if String.eqb id (u_meter u) && (ts =? u_ts u)
    then Some (merged (u_ts u) (u_value u) (u_relative u) (reading_at meters id ts))
    else reading_at meters id ts.
Proof.
  unfold reading_at.
  destruct (String.eqb_spec id (u_meter u)) as [-> | Hne]; cbn [andb].
  - rewrite apply_update_as_set. unfold meters_get at 1, meters_set.
    rewrite (od_get_set_same _ String.eqb_eq).
    unfold merge_update. rewrite series_get_add_or_update.
    unfold series_of.
    destruct (Z.eqb_spec ts (u_ts u)) as [-> | Hts];
      destruct (meters_get (u_meter u) meters); reflexivity.
  - rewrite (meters_get_apply_update_other _ _ Hne). reflexivity.
Qed.

Lemma apply_updates_frame (us : list update) (meters : AllMeters) :
  Forall absolute_update us ->
  (forall id, id <> METER_IMPORT_ID -> id <> METER_EXPORT_ID ->
              meters_get id (apply_updates us meters) = meters_get id meters)
  /\ (forall id ts e,
         reading_at meters id ts = Some e ->
         exists e', reading_at (apply_updates us meters) id ts = Some e'
                    /\ timestamp e' = timestamp e /\ relative e' = relative e).
Proof.
  intros Hus. revert meters. induction Hus as [| u us Hu Hus IH]; intros meters.
  - split; [reflexivity |]. intros id ts e H. exists e. auto.
  - destruct Hu as (Hm & Hr & v & Hv).
    destruct (IH (apply_update meters u)) as [IH1 IH2]. split.
    + intros id H1 H2. simpl. rewrite IH1 by assumption.
      apply meters_get_apply_update_other. destruct Hm; congruence.
    + intros id ts e H. simpl.
      assert (Hstep : exists e1,
                 reading_at (apply_update meters u) id ts = Some e1
                 /\ timestamp e1 = timestamp e /\ relative e1 = relative e).
      { rewrite reading_at_apply_update, H, Hr, Hv.
        destruct (String.eqb id (u_meter u) && (ts =? u_ts u)).
        - eexists. split; [reflexivity |]. simpl. auto.
        - exists e. auto. }
      destruct Hstep as (e1 & He1 & Ht1 & Hr1).
      destruct (IH2 id ts e1 He1) as (e' & He' & Ht' & Hr').
      exists e'. repeat split; congruence.
Qed.

(** X6. Loading one file never destroys what the store holds: a reading
    that was there is still there, with its timestamp and its relative
    field unchanged (only the absolute field can be overwritten), and the
    series of every meter other than ID742 and ID735 is left as it was. *)
Theorem load_file_keeps_readings (file : xml_file) (meters meters' : AllMeters) :
  load_file file meters = Ok meters' ->
  (forall id, id <> METER_IMPORT_ID -> id <> METER_EXPORT_ID ->
              meters_get id meters' = meters_get id meters)
  /\ (forall id ts e,
         reading_at meters id ts = Some e ->
         exists e', reading_at meters' id ts = Some e'
                    /\ timestamp e' = timestamp e /\ relative e' = relative e).
Proof.
  intros H. destruct (load_file_outcome file) as [[e He] | (us & Hus & Hok)].
  - rewrite He in H. discriminate.
  - rewrite Hok in H. injection H as <-. apply apply_updates_frame. exact Hus.
Qed.

(** A store with a third meter and an import reading that carries a
    relative volume: after the sample export the third meter is untouched
    and the import reading has kept its relative volume. *)
Lemma load_file_keeps_readings_sample :
  let before :=
    [("ID999", [Samples.reading Samples.t_2024_01_01 (Num.of_Z 1)]);
     (METER_IMPORT_ID,
      [(Samples.t_2024_01_01,
        {| timestamp := Samples.t_2024_01_01; value := Num.of_Z 5;
           relative := Num.of_Z 3 |})])] in
  let after :=
    [("ID999", [Samples.reading Samples.t_2024_01_01 (Num.of_Z 1)]);
     (METER_IMPORT_ID,
      [(Samples.t_2024_01_01,
        {| timestamp := Samples.t_2024_01_01; value := Num.of_Z 90;
           relative := Num.of_Z 3 |});
       Samples.reading Samples.t_2024_02_01 (Num.of_decimal false 1205 (-1))]);
     (METER_EXPORT_ID, [Samples.reading Samples.t_2024_02_01 (Num.of_Z 7)])] in
  load_file Samples.esl_two_periods before = Ok after
  /\ meters_get "ID999" after = meters_get "ID999" before
  /\ exists e', reading_at after METER_IMPORT_ID Samples.t_2024_01_01 = Some e'
                /\ relative e' = Num.of_Z 3.
Proof.
  intros before after.
  assert (H : load_file Samples.esl_two_periods before = Ok after)
    by (vm_compute; reflexivity).
  split; [exact H |].
  destruct (load_file_keeps_readings _ _ H) as [H1 H2].
  split.
  - apply H1; discriminate.
  - destruct (H2 METER_IMPORT_ID Samples.t_2024_01_01 _ eq_refl) as (e' & He' & _ & Hr).
    exists e'. split; [exact He' | exact Hr].
Defined.

(** X7. The SDAT parser never reports success and never changes the
    store: when it returns, it returns [False] with the store it was given.
    When it raises, either [ET.parse] raised something else than
    [ET.ParseError], which the parser does not catch, or the document was
    read, its text contains [DocumentID] or [Interval], and the exception
    is the [SyntaxError] of the first look-up. *)
Theorem parse_sdat_file_never_succeeds (file : xml_file) (meters : AllMeters) :
  (forall r, parse_sdat_file file meters = Ok r -> r = (false, meters))
  /\ (forall e,
         parse_sdat_file file meters = Raise e ->
         (exists f, file = Failure f /\ e = raised f)
         \/ (e = SyntaxError
             /\ exists root,
                 file = Document root
                 /\ (Str.contains "DocumentID" (text_content root) = true
                     \/ Str.contains "Interval" (text_content root) = true)))
  /\ (forall f, file = Failure f -> parse_sdat_file file meters = Raise (raised f)).
Proof.
  rewrite parse_sdat_file_outcome. destruct file as [| root | f].
  - split; [intros r H; injection H as <-; reflexivity |].
    split; discriminate.
  - split; [| split; [| discriminate]].
    + destruct (_ && _); [intros r H; injection H as <-; reflexivity | discriminate].
    + destruct (Str.contains "DocumentID" (text_content root)) eqn:H1;
        destruct (Str.contains "Interval" (text_content root)) eqn:H2; cbn [negb andb];
        try discriminate;
        intros e H; injection H as <-; right; split; eauto.
  - split; [discriminate |]. split.
    + intros e H. injection H as <-. left. exists f. auto.
    + intros f' H. injection H as <-. reflexivity.
Qed.

(** The SDAT export as real files spell it: [False], store unchanged. A
    file in a multi-byte encoding: the [ValueError] of [ET.parse]. *)
Lemma parse_sdat_file_never_succeeds_sample :
  parse_sdat_file Samples.sdat_one_observation_rsm Samples.relative_only_store
  = Ok (false, Samples.relative_only_store)
  /\ parse_sdat_file (Failure multi_byte_encoding) Samples.relative_only_store
     = Raise ValueError.
Proof.
  split.
  - assert (H : exists r,
               parse_sdat_file Samples.sdat_one_observation_rsm Samples.relative_only_store
               = Ok r) by (eexists; vm_compute; reflexivity).
    destruct H as [r H].
    rewrite H.
    rewrite (proj1 (parse_sdat_file_never_succeeds _ _) r H). reflexivity.
  - exact (proj2 (proj2 (parse_sdat_file_never_succeeds (Failure multi_byte_encoding)
                           Samples.relative_only_store))
             multi_byte_encoding eq_refl).
Defined.



(** ** The store a load returns *)

Lemma for_each_load_file_outcome (files : list xml_file) (meters meters' : AllMeters) :
  for_each load_file files meters = Ok meters' ->
  exists us, Forall absolute_update us /\ meters' = apply_updates us meters.
Proof.
  revert meters; induction files as [| file files IH]; intros meters; cbn [for_each].
  - intros H; injection H as <-. exists []. split; [constructor | reflexivity].
  - destruct (load_file_outcome file) as [[e He] | (us & Hus & Hok)].
    + rewrite He. discriminate.
    + rewrite Hok. cbn [bind]. intros H.
      destruct (IH _ H) as (us' & Hus' & ->).
      exists (us ++ us'). split; [apply Forall_app; auto |].
      unfold apply_updates. rewrite fold_left_app. reflexivity.
Qed.

Lemma insert_by_key_perm {V : Type} (x : Z * V) (l : list (Z * V)) :
  Permutation (insert_by_key x l) (x :: l).
Proof.
  induction l as [| y l IH]; simpl; [reflexivity |].
  destruct (fst x <=? fst y); [reflexivity |].
  rewrite IH. apply perm_swap.
Qed.

Lemma sorted_by_key_perm {V : Type} (l : list (Z * V)) : Permutation (sorted_by_key l) l.
Proof.
  induction l as [| x l IH]; simpl; [reflexivity |].
  rewrite insert_by_key_perm, IH. reflexivity.
Qed.

Lemma sorted_by_key_NoDup {V : Type} (l : list (Z * V)) :
  NoDup (od_keys l) -> NoDup (od_keys (sorted_by_key l)).
Proof.
  intros H. rewrite od_keys_sorted_by_key.
  eapply Permutation_NoDup; [symmetry; apply sorted_list_perm | exact H].
Qed.

(** Sorting a series with unique keys changes no look-up. *)
Lemma series_get_sorted (series : MeterSeries) (t : utc_datetime) :
  NoDup (od_keys series) -> series_get t (sorted_by_key series) = series_get t series.
Proof.
  intros Hnd. unfold series_get.
  destruct (od_get Z.eqb t series) as [e |] eqn:E.
  - apply (od_get_of_In _ Z.eqb_eq); [apply sorted_by_key_NoDup; exact Hnd |].
    apply (Permutation_in (l := series)); [symmetry; apply sorted_by_key_perm |].
    apply (od_get_In _ Z.eqb_eq). exact E.
  - destruct (od_get Z.eqb t (sorted_by_key series)) as [e' |] eqn:E'; [| reflexivity].
    apply (od_get_In _ Z.eqb_eq) in E'.
    apply (Permutation_in (l' := series)) in E'; [| apply sorted_by_key_perm].
    apply (od_get_of_In _ Z.eqb_eq _ _ _ Hnd) in E'. congruence.
Qed.

Lemma meters_get_sorted (meters : AllMeters) (id : string) :
  meters_get id (map sort_item meters) = option_map (@sorted_by_key Messwert) (meters_get id meters).
Proof.
  unfold meters_get. induction meters as [| [k s] meters IH]; simpl; [reflexivity |].
  destruct (String.eqb id k); [reflexivity | exact IH].
Qed.

Lemma od_keys_sorted (meters : AllMeters) :
  od_keys (map sort_item meters) = od_keys meters.
Proof. unfold od_keys. rewrite map_map. reflexivity. Qed.

Lemma reading_at_sorted (meters : AllMeters) (id : string) (ts : utc_datetime) :
  unique_keys meters ->
  reading_at (sort_all meters) id ts = reading_at meters id ts.
Proof.
  intros [Hk Hs]. rewrite (@sort_all_map meters Hk).
  unfold reading_at. rewrite meters_get_sorted.
  destruct (meters_get id meters) as [series |] eqn:E; [| reflexivity]. simpl.
  apply series_get_sorted.
  apply (od_get_In _ String.eqb_eq) in E.
  rewrite Forall_forall in Hs. apply (Hs _ E).
Qed.

Lemma sort_all_unique_keys (meters : AllMeters) :
  unique_keys meters -> unique_keys (sort_all meters).
Proof.
  intros [Hk Hs]. rewrite (@sort_all_map meters Hk). split.
  - rewrite od_keys_sorted. exact Hk.
  - rewrite Forall_forall in *. intros x Hx.
    apply in_map_iff in Hx. destruct Hx as [[id s] [<- Hin]]. simpl.
    apply sorted_by_key_NoDup. apply (Hs _ Hin).
Qed.

Lemma unique_keys_nil : unique_keys [].
Proof. split; constructor. Qed.

(** What absolute updates make of an empty store. *)
Lemma apply_updates_invariants (us : list update) (meters : AllMeters) :
  Forall absolute_update us ->
  (forall id, In id (od_keys meters) -> id = METER_IMPORT_ID \/ id = METER_EXPORT_ID) ->
  (forall id ts e, reading_at meters id ts = Some e ->
                   timestamp e = ts /\ relative e = Num.nan) ->
  (forall id, In id (od_keys (apply_updates us meters)) ->
              id = METER_IMPORT_ID \/ id = METER_EXPORT_ID)
  /\ (forall id ts e, reading_at (apply_updates us meters) id ts = Some e ->
                      timestamp e = ts /\ relative e = Num.nan).
Proof.
  intros Hus. revert meters. induction Hus as [| u us Hu Hus IH]; intros meters Hk Hr.
  - split; assumption.
  - simpl. destruct Hu as (Hm & Hrel & v & Hv). apply IH.
    + intros id. rewrite apply_update_as_set. unfold meters_set.
      rewrite od_keys_set. destruct (od_mem String.eqb (u_meter u) meters).
      * apply Hk.
      * intros Hin. apply in_app_or in Hin. destruct Hin as [Hin | [<- | []]]; auto.
    + intros id ts e. rewrite reading_at_apply_update, Hrel, Hv.
      destruct (String.eqb id (u_meter u) && (ts =? u_ts u)) eqn:E.
      * apply andb_true_iff in E. destruct E as [_ E]. apply Z.eqb_eq in E. subst ts.
        destruct (reading_at meters id (u_ts u)) as [e0 |] eqn:E0.
        -- destruct (Hr _ _ _ E0) as [H1 H2].
           intros H; injection H as <-. simpl. auto.
        -- intros H; injection H as <-. simpl. auto.
      * apply Hr.
Qed.

(** X9. In a store returned by a load, meter identifiers are unique, the
    timestamps of each series are unique, and every reading is stored under
    its own timestamp. *)
Theorem load_all_data_keys (files : list xml_file) (meters : AllMeters) :
  load_all_data files = Ok meters ->
  NoDup (od_keys meters)
  /\ (forall id series, meters_get id meters = Some series -> NoDup (od_keys series))
  /\ (forall id ts e, reading_at meters id ts = Some e -> timestamp e = ts).
Proof.
  unfold load_all_data. intros H.
  apply bind_Ok_inv in H. destruct H as (folded & Hfold & H). injection H as <-.
  pose proof (@for_each_load_file_unique_keys _ _ _ unique_keys_nil Hfold) as Huk.
  destruct (sort_all_unique_keys Huk) as [Hk Hs].
  split; [exact Hk |]. split.
  - intros id series E. apply (od_get_In _ String.eqb_eq) in E.
    rewrite Forall_forall in Hs. apply (Hs _ E).
  - intros id ts e. rewrite (@reading_at_sorted _ id ts Huk).
    destruct (@for_each_load_file_outcome _ _ _ Hfold) as (us & Hus & ->).
    intros E.
    apply (proj2 (@apply_updates_invariants us [] Hus
                    ltac:(simpl; tauto) ltac:(intros ? ? ?; discriminate)) id ts e E).
Qed.

Lemma load_all_data_keys_sample :
  exists meters,
    load_all_data [Samples.esl_two_periods; MoreSamples.esl_feb_earlier] = Ok meters
    /\ NoDup (od_keys meters).
Proof.
  eexists. split; [vm_compute; reflexivity |].
  refine (proj1 (@load_all_data_keys
                   [Samples.esl_two_periods; MoreSamples.esl_feb_earlier] _ _)).
  vm_compute; reflexivity.
Defined.

(** X10. A store returned by a load holds no meter but ID742 and ID735,
    and no reading in it carries a relative volume: the relative field of
    every reading is NaN. *)
Theorem load_all_data_absolute_only (files : list xml_file) (meters : AllMeters) :
  load_all_data files = Ok meters ->
  (forall id, In id (od_keys meters) -> id = METER_IMPORT_ID \/ id = METER_EXPORT_ID)
  /\ (forall id ts e, reading_at meters id ts = Some e -> relative e = Num.nan).
Proof.
  unfold load_all_data. intros H.
  apply bind_Ok_inv in H. destruct H as (folded & Hfold & H). injection H as <-.
  pose proof (@for_each_load_file_unique_keys _ _ _ unique_keys_nil Hfold) as Huk.
  destruct (@for_each_load_file_outcome _ _ _ Hfold) as (us & Hus & ->).
  destruct (@apply_updates_invariants us [] Hus
              ltac:(simpl; tauto) ltac:(intros ? ? ?; discriminate)) as [H1 H2].
  split.
  - intros id. rewrite (@sort_all_map _ (proj1 Huk)), od_keys_sorted. apply H1.
  - intros id ts e. rewrite (@reading_at_sorted _ id ts Huk). intros E.
    apply (proj2 (H2 id ts e E)).
Qed.

(** Even a well-formed SDAT export beside the ESL export adds no meter. *)
Lemma load_all_data_absolute_only_sample :
  exists meters,
    load_all_data [Samples.sdat_one_observation_rsm; Samples.esl_two_periods] = Ok meters
    /\ od_keys meters = [METER_IMPORT_ID; METER_EXPORT_ID]
    /\ forall id ts e, reading_at meters id ts = Some e -> relative e = Num.nan.
Proof.
  eexists. split; [vm_compute; reflexivity |]. split; [reflexivity |].
  refine (proj2 (@load_all_data_absolute_only
                   [Samples.sdat_one_observation_rsm; Samples.esl_two_periods] _ _)).
  vm_compute; reflexivity.
Defined.

(** X11. The final sort of [load_all_data] only reorders: the returned
    store has the meters of the folded store in the same order, each series
    is a permutation of the folded one, and every reading is found under
    the same meter and timestamp. *)
Theorem load_all_data_sort_keeps_readings (files : list xml_file) (loaded : AllMeters) :
  load_all_data files = Ok loaded ->
  exists folded,
    for_each load_file files [] = Ok folded
    /\ od_keys loaded = od_keys folded
    /\ (forall id ts, reading_at loaded id ts = reading_at folded id ts)
    /\ (forall id series,
           meters_get id folded = Some series ->
           exists sorted, meters_get id loaded = Some sorted /\ Permutation sorted series).
Proof.
  unfold load_all_data. intros H.
  apply bind_Ok_inv in H. destruct H as (folded & Hfold & H). injection H as <-.
  pose proof (@for_each_load_file_unique_keys _ _ _ unique_keys_nil Hfold) as Huk.
  exists folded. split; [exact Hfold |]. split; [| split].
  - rewrite (@sort_all_map _ (proj1 Huk)). apply od_keys_sorted.
  - intros id ts. apply reading_at_sorted. exact Huk.
  - intros id series E. rewrite (@sort_all_map _ (proj1 Huk)), meters_get_sorted, E.
    eexists. split; [reflexivity | apply sorted_by_key_perm].
Qed.

Lemma load_all_data_sort_keeps_readings_sample :
  exists loaded folded,
    load_all_data [Samples.esl_two_periods] = Ok loaded
    /\ for_each load_file [Samples.esl_two_periods] [] = Ok folded
    /\ od_keys loaded = od_keys folded.
Proof.
  assert (H : exists loaded, load_all_data [Samples.esl_two_periods] = Ok loaded)
    by (eexists; vm_compute; reflexivity).
  destruct H as [loaded H].
  destruct (@load_all_data_sort_keeps_readings _ _ H) as (folded & H1 & H2 & _).
  exists loaded, folded. auto.
Defined.

(** ** The last write wins *)

Lemma for_each_app_Ok {A S : Type} (body : A -> S -> Exc S) (l1 l2 : list A) (s s' : S) :
  for_each body (l1 ++ l2) s = Ok s' ->
  exists s1, for_each body l1 s = Ok s1 /\ for_each body l2 s1 = Ok s'.
Proof. rewrite for_each_app. apply bind_Ok_inv. Qed.

Lemma parse_esl_file_nonempty (root : Element) (meters : AllMeters) :
  time_periods root <> [] ->
  parse_esl_file (Document root) meters
  = (meters' <- for_each esl_time_period (time_periods root) meters ;; Ok (true, meters')).
Proof.
  intros H. rewrite parse_esl_file_periods. fold (time_periods root).
  destruct (time_periods root); [congruence | reflexivity].
Qed.

Lemma reading_at_period_updates (ts : utc_datetime) (rows : list Element)
    (meters : AllMeters) :
  (import_values rows <> [] ->
   exists e, reading_at (apply_updates (period_updates ts rows) meters) METER_IMPORT_ID ts
             = Some e
             /\ value e = float_sum (import_values rows))
  /\ (export_values rows <> [] ->
      exists e, reading_at (apply_updates (period_updates ts rows) meters) METER_EXPORT_ID ts
                = Some e
                /\ value e = float_sum (export_values rows)).
Proof.
  unfold period_updates.
  destruct (import_values rows) as [| vi li] eqn:Ei;
    destruct (export_values rows) as [| ve le] eqn:Ee; cbn [List.length Nat.eqb negb app];
    (split; [intros Hi | intros He]); try congruence; cbn [apply_updates fold_left];
    rewrite ?reading_at_apply_update; cbn [u_meter u_ts u_value u_relative];
    rewrite ?Z.eqb_refl;
    repeat match goal with
      | |- context [String.eqb ?a ?b] =>
          let v := eval vm_compute in (String.eqb a b) in
          change (String.eqb a b) with v
      end; cbn [andb];
    rewrite ?reading_at_apply_update; cbn [u_meter u_ts u_value u_relative];
    rewrite ?Z.eqb_refl;
    repeat match goal with
      | |- context [String.eqb ?a ?b] =>
          let v := eval vm_compute in (String.eqb a b) in
          change (String.eqb a b) with v
      end; cbn [andb];
    (eexists; split; [reflexivity |]);
    match goal with
    | |- context [reading_at ?m ?i ?t] => destruct (reading_at m i t); reflexivity
    end.
Qed.

(** X12. The last file decides. When the load of some files followed by an
    ESL document succeeds, the last period of that document, with end
    instant [ts], fixes the absolute readings at [ts]: the import reading is
    the sum of its import rows and the export reading the sum of its export
    rows, whatever the earlier files and periods wrote there. *)
Theorem load_all_data_last_period_wins (files : list xml_file) (root : Element)
    (earlier : list Element) (tp : Element) (a : ascii) (s : string) (ts : utc_datetime)
    (loaded : AllMeters) :
  load_all_data (files ++ [Document root]) = Ok loaded ->
  time_periods root = earlier ++ [tp] ->
  end_attr tp = Some (String a s) ->
  ensure_datetime_utc (String a s) = Ok ts ->
  (import_values (value_rows tp) <> [] ->
   exists e, reading_at loaded METER_IMPORT_ID ts = Some e
             /\ value e = float_sum (import_values (value_rows tp)))
  /\ (export_values (value_rows tp) <> [] ->
      exists e, reading_at loaded METER_EXPORT_ID ts = Some e
                /\ value e = float_sum (export_values (value_rows tp))).
Proof.
  unfold load_all_data. intros H Hper Hend Hts.
  apply bind_Ok_inv in H. destruct H as (folded & Hfold & H). injection H as <-.
  pose proof (@for_each_load_file_unique_keys _ _ _ unique_keys_nil Hfold) as Huk.
  rewrite !(@reading_at_sorted _ _ ts Huk).
  apply for_each_app_Ok in Hfold. destruct Hfold as (m0 & _ & Hlast).
  cbn [for_each] in Hlast. apply bind_Ok_inv in Hlast.
  destruct Hlast as (m1 & Hlast & H). injection H as <-.
  unfold load_file in Hlast.
  rewrite parse_esl_file_nonempty in Hlast by (rewrite Hper; destruct earlier; discriminate).
  rewrite Hper in Hlast.
  destruct (for_each esl_time_period (earlier ++ [tp]) m0) as [m2 |] eqn:Hfe;
    [| discriminate].
  cbn [bind negb] in Hlast. injection Hlast as <-.
  apply for_each_app_Ok in Hfe. destruct Hfe as (m3 & _ & Htp).
  cbn [for_each] in Htp. rewrite esl_time_period_spec, Hend, Hts in Htp.
  cbn [bind] in Htp. injection Htp as <-.
  apply reading_at_period_updates.
Qed.

(** An earlier file says 55 for 2024-02-01T00:00:00Z (written with an
    offset); the sample period, loaded last, says 100.5 + 20 and 7. *)
Lemma load_all_data_last_period_wins_sample :
  exists loaded e,
    load_all_data ([MoreSamples.esl_feb_earlier] ++ [Document MoreSamples.root_feb])
    = Ok loaded
    /\ import_values (value_rows MoreSamples.period_feb) <> []
    /\ reading_at loaded METER_IMPORT_ID Samples.t_2024_02_01 = Some e
    /\ value e = float_sum (import_values (value_rows MoreSamples.period_feb))
    /\ float_sum (import_values (value_rows MoreSamples.period_feb))
       = Num.of_decimal false 1205 (-1).
Proof.
  assert (H : exists loaded,
             load_all_data ([MoreSamples.esl_feb_earlier] ++ [Document MoreSamples.root_feb])
             = Ok loaded) by (eexists; vm_compute; reflexivity).
  destruct H as [loaded H].
  assert (Hi : import_values (value_rows MoreSamples.period_feb) <> [])
    by (vm_compute; discriminate).
  destruct (proj1 (@load_all_data_last_period_wins
                     [MoreSamples.esl_feb_earlier] MoreSamples.root_feb []
                     MoreSamples.period_feb "2" "024-02-01T00:00:00Z"
                     Samples.t_2024_02_01 loaded H
                     ltac:(vm_compute; reflexivity) ltac:(vm_compute; reflexivity)
                     ltac:(vm_compute; reflexivity)) Hi) as (e & He & Hv).
  exists loaded, e.
  split; [exact H |]. split; [exact Hi |]. split; [exact He |]. split; [exact Hv |].
  vm_compute; reflexivity.
Defined.

(** ** Consumption: which timestamps get a diff, and which diff *)

Lemma sorted_list_strict (l : list Z) : NoDup l -> StronglySorted Z.lt (sorted_list l).
Proof.
  intros H. apply sorted_NoDup_strict; [apply sorted_list_sorted |].
  eapply Permutation_NoDup; [symmetry; apply sorted_list_perm | exact H].
Qed.

Lemma sorted_list_In (l : list Z) (t : Z) : In t (sorted_list l) <-> In t l.
Proof.
  split; apply Permutation_in; [apply sorted_list_perm | symmetry; apply sorted_list_perm].
Qed.

Lemma strict_sorted_NoDup (l : list Z) : StronglySorted Z.lt l -> NoDup l.
Proof.
  induction 1 as [| x l Hs IH Hx]; constructor; [| exact IH].
  intros Hin. rewrite Forall_forall in Hx. specialize (Hx x Hin). lia.
Qed.

(** In a strictly ascending list, the elements after the first are those
    that have a smaller element in the list. *)
Lemma strict_sorted_tail (l : list Z) (t : Z) :
  StronglySorted Z.lt l ->
  (In t (tl l) <-> In t l /\ exists t', In t' l /\ t' < t).
Proof.
  intros Hs. destruct Hs as [| x l Hs Hx]; simpl; [tauto |].
  rewrite Forall_forall in Hx. split.
  - intros Hin. split; [right; exact Hin |]. exists x. split; [left; reflexivity | auto].
  - intros [[<- | Hin] (t' & [<- | Hin'] & Hlt)]; try assumption; try (exfalso; lia).
    exfalso. specialize (Hx t' Hin'). lia.
Qed.

Lemma series_diffs_length (series : MeterSeries) :
  List.length (series_diffs series) = Nat.pred (List.length series).
Proof.
  rewrite <- (length_map fst (series_diffs series)).
  change (map fst (series_diffs series)) with (od_keys (series_diffs series)).
  rewrite series_diffs_keys.
  assert (H : List.length (sorted_list (od_keys series)) = List.length series).
  { rewrite (Permutation_length (sorted_list_perm _)). apply length_map. }
  destruct (sorted_list (od_keys series)); simpl in *; rewrite <- H; reflexivity.
Qed.

(** X13. [series_diffs] has an entry exactly for the timestamps of the
    series that have an earlier timestamp in it, so none for the earliest,
    and one entry fewer than the series has readings (none for an empty
    series). *)
Theorem series_diffs_timestamps (series : MeterSeries) :
  NoDup (od_keys series) ->
  (forall t, In t (od_keys (series_diffs series))
             <-> In t (od_keys series) /\ exists t', In t' (od_keys series) /\ t' < t)
  /\ List.length (series_diffs series) = Nat.pred (List.length series).
Proof.
  intros Hnd. split; [| apply series_diffs_length].
  intros t. rewrite series_diffs_keys.
  rewrite (@strict_sorted_tail _ t (@sorted_list_strict _ Hnd)).
  rewrite sorted_list_In. split.
  - intros [H (t' & H1 & H2)]. split; [exact H |]. exists t'.
    rewrite sorted_list_In in H1. auto.
  - intros [H (t' & H1 & H2)]. split; [exact H |]. exists t'.
    rewrite sorted_list_In. auto.
Qed.

Lemma series_diffs_timestamps_sample :
  NoDup (od_keys MoreSamples.series_unordered)
  /\ od_keys (series_diffs MoreSamples.series_unordered)
     = [Samples.t_2024_02_01; Samples.t_2024_03_01]
  /\ List.length (series_diffs MoreSamples.series_unordered) = 2%nat.
Proof.
  assert (H : NoDup (od_keys MoreSamples.series_unordered)).
  { repeat constructor; simpl; intros C; repeat destruct C as [C | C]; try discriminate C;
      exact C. }
  split; [exact H |]. split; [vm_compute; reflexivity |].
  exact (proj2 (@series_diffs_timestamps _ H)).
Defined.

(** Looking a key up in a permuted dictionary with unique keys. *)
Lemma series_get_perm (s1 s2 : MeterSeries) (t : utc_datetime) :
  Permutation s1 s2 -> NoDup (od_keys s1) -> series_get t s1 = series_get t s2.
Proof.
  intros Hp Hnd.
  assert (Hnd2 : NoDup (od_keys s2)).
  { eapply Permutation_NoDup; [| exact Hnd]. apply Permutation_map. exact Hp. }
  unfold series_get.
  destruct (od_get Z.eqb t s1) as [e |] eqn:E.
  - symmetry. apply (od_get_of_In _ Z.eqb_eq); [exact Hnd2 |].
    apply (Permutation_in (l := s1)); [exact Hp |].
    apply (od_get_In _ Z.eqb_eq). exact E.
  - destruct (od_get Z.eqb t s2) as [e' |] eqn:E'; [| reflexivity].
    apply (od_get_In _ Z.eqb_eq) in E'.
    apply (Permutation_in (l' := s1)) in E'; [| symmetry; exact Hp].
    apply (od_get_of_In _ Z.eqb_eq _ _ _ Hnd) in E'. congruence.
Qed.

(** A sorted list is determined by its elements. *)
Lemma sorted_perm_eq (l1 l2 : list Z) :
  StronglySorted Z.le l1 -> StronglySorted Z.le l2 -> Permutation l1 l2 -> l1 = l2.
Proof.
  intros H1. revert l2. induction H1 as [| x l1 Hs1 IH Hx]; intros l2 H2 Hp.
  - apply Permutation_nil in Hp. congruence.
  - destruct H2 as [| y l2 Hs2 Hy].
    + symmetry in Hp. apply Permutation_nil in Hp. discriminate.
    + assert (Hxy : x = y).
      { rewrite Forall_forall in Hx, Hy.
        assert (Hin1 : In x (y :: l2))
          by (apply (Permutation_in (l := x :: l1)); [exact Hp | left; reflexivity]).
        assert (Hin2 : In y (x :: l1))
          by (apply (Permutation_in (l := y :: l2)); [symmetry; exact Hp | left; reflexivity]).
        destruct Hin1 as [-> | Hin1]; [reflexivity |].
        destruct Hin2 as [-> | Hin2]; [reflexivity |].
        specialize (Hx y Hin2). specialize (Hy x Hin1). lia. }
      subst y. f_equal. apply IH; [exact Hs2 |].
      apply Permutation_cons_inv in Hp. exact Hp.
Qed.

Lemma sorted_list_perm_eq (l1 l2 : list Z) :
  Permutation l1 l2 -> sorted_list l1 = sorted_list l2.
Proof.
  intros Hp. apply sorted_perm_eq; try apply sorted_list_sorted.
  rewrite !sorted_list_perm. exact Hp.
Qed.

Lemma diffs_from_ext (s1 s2 : MeterSeries) (t_prev : utc_datetime) (rest : list utc_datetime) :
  (forall t, value_at s1 t = value_at s2 t) ->
  diffs_from s1 t_prev rest = diffs_from s2 t_prev rest.
Proof.
  intros H. revert t_prev; induction rest as [| t rest IH]; intros t_prev; simpl;
    [reflexivity |].
  rewrite !H, IH. reflexivity.
Qed.

(** X14. The diffs do not depend on the order in which the readings were
    inserted: two series with the same readings in different orders have
    the same [series_diffs]. *)
Theorem series_diffs_order_independent (s1 s2 : MeterSeries) :
  Permutation s1 s2 -> NoDup (od_keys s1) -> series_diffs s1 = series_diffs s2.
Proof.
  intros Hp Hnd. unfold series_diffs.
  rewrite (@sorted_list_perm_eq (od_keys s1) (od_keys s2))
    by (apply Permutation_map; exact Hp).
  destruct (sorted_list (od_keys s2)) as [| t0 rest]; [reflexivity |].
  apply diffs_from_ext. intros t. unfold value_at.
  rewrite (@series_get_perm _ _ t Hp Hnd). reflexivity.
Qed.

(** The readings 100, 80, 130 inserted as March, January, February give
    the diffs of the chronological series. *)
Lemma series_diffs_order_independent_sample :
  series_diffs MoreSamples.series_unordered = series_diffs Samples.series_100_80_130.
Proof.
  apply series_diffs_order_independent.
  - unfold MoreSamples.series_unordered, Samples.series_100_80_130.
    apply Permutation_cons_app with (l1 := [_; _]) (l2 := []).
    simpl. reflexivity.
  - repeat constructor; simpl; intros C; repeat destruct C as [C | C];
      try discriminate C; exact C.
Defined.

Lemma checked_diff_Some (x d : float) :
  checked_diff x = Some d -> d = x /\ Num.eqb d d = true /\ Num.ltb d Num.pos_zero = false.
Proof.
  unfold checked_diff.
  destruct (Num.eqb x x) eqn:E1; destruct (Num.ltb x Num.pos_zero) eqn:E2; simpl;
    try discriminate.
  intros H; injection H as <-. auto.
Qed.

Lemma diffs_from_values (series : MeterSeries) (t_prev : utc_datetime)
    (rest : list utc_datetime) (t : utc_datetime) (d : float) :
  In (t, Some d) (diffs_from series t_prev rest) ->
  Num.eqb d d = true /\ Num.ltb d Num.pos_zero = false.
Proof.
  revert t_prev; induction rest as [| t1 rest IH]; intros t_prev; simpl; [tauto |].
  intros [H | H]; [| eapply IH; exact H].
  injection H as _ H. apply checked_diff_Some in H. tauto.
Qed.

Lemma diffs_get_nth (series : MeterSeries) (t0 : utc_datetime) (rest : list utc_datetime)
    (i : nat) :
  NoDup rest -> (i < List.length rest)%nat ->
  diffs_get (nth i rest 0) (diffs_from series t0 rest)
  = checked_diff (Num.sub (value_at series (nth i rest 0))
                          (value_at series (nth i (t0 :: rest) 0))).
Proof.
  intros Hnd Hi. unfold diffs_get.
  rewrite (od_get_of_In _ Z.eqb_eq (nth i rest 0)
             (checked_diff (Num.sub (value_at series (nth i rest 0))
                                    (value_at series (nth i (t0 :: rest) 0))))).
  - reflexivity.
  - rewrite diffs_from_keys. exact Hnd.
  - apply (nth_error_In _ i). apply diffs_from_nth. exact Hi.
Qed.

(** X15. With [t_0 < t_1 < ...] the timestamps of a series in ascending
    order, the diff stored at [t_(i+1)] is the absolute reading at
    [t_(i+1)] minus the absolute reading at [t_i], replaced by null when
    that difference is NaN or below zero; at [t_0] there is no diff. *)
Theorem series_diffs_entry (series : MeterSeries) (i : nat) :
  NoDup (od_keys series) ->
  let ts := sorted_list (od_keys series) in
  (S i < List.length ts)%nat ->
  diffs_get (nth (S i) ts 0) (series_diffs series)
  = checked_diff (Num.sub (value_at series (nth (S i) ts 0)) (value_at series (nth i ts 0)))
  /\ diffs_get (nth 0 ts 0) (series_diffs series) = None.
Proof.
  intros Hnd. cbv zeta. unfold series_diffs.
  pose proof (@strict_sorted_NoDup _ (@sorted_list_strict _ Hnd)) as Hts.
  destruct (sorted_list (od_keys series)) as [| t0 rest]; intros Hi; [simpl in Hi; lia |].
  inversion Hts as [| ? ? Hnotin Hrest]; subst. split.
  - apply (@diffs_get_nth series t0 rest i Hrest). simpl in Hi.
    apply Nat.succ_lt_mono. exact Hi.
  - simpl. unfold diffs_get.
    destruct (od_get Z.eqb t0 (diffs_from series t0 rest)) as [v |] eqn:E; [| reflexivity].
    exfalso. apply Hnotin. rewrite <- (diffs_from_keys series t0 rest).
    apply (od_mem_In _ Z.eqb_eq). unfold od_mem. rewrite E. reflexivity.
Qed.

(** Readings 100, 80, 130: the diff at February is 80 - 100, suppressed;
    the diff at March is 130 - 80 = 50. *)
Lemma series_diffs_entry_sample :
  NoDup (od_keys Samples.series_100_80_130)
  /\ diffs_get Samples.t_2024_03_01 (series_diffs Samples.series_100_80_130)
     = Some (Num.of_Z 50)
  /\ diffs_get Samples.t_2024_01_01 (series_diffs Samples.series_100_80_130) = None.
Proof.
  assert (H : NoDup (od_keys Samples.series_100_80_130)).
  { repeat constructor; simpl; intros C; repeat destruct C as [C | C]; try discriminate C;
      exact C. }
  split; [exact H |].
  destruct (@series_diffs_entry Samples.series_100_80_130 1 H ltac:(vm_compute; lia))
    as [H1 H2].
  split.
  - etransitivity; [exact H1 |]. vm_compute. reflexivity.
  - exact H2.
Defined.

(** ** The payloads: a shared sorted axis and aligned vectors *)

Lemma insert_label_In (x y : Z) (l : list Z) :
  In y (insert_label x l) <-> y = x \/ In y l.
Proof.
  induction l as [| z l IH]; simpl.
  - split; [intros [H | []]; auto | intros [H | []]; auto].
  - destruct (Z.ltb_spec x z) as [Hlt | Hge]; simpl.
    + split; [intros [H | [H | H]]; auto | intros [H | [H | H]]; auto].
    + destruct (Z.eqb_spec x z) as [-> | Hne]; simpl.
      * split; [intros [H | H]; auto | intros [H | [H | H]]; auto].
      * rewrite IH. split; [intros [H | [H | H]]; auto | intros [H | [H | H]]; auto].
Qed.

Lemma insert_label_sorted (x : Z) (l : list Z) :
  StronglySorted Z.lt l -> StronglySorted Z.lt (insert_label x l).
Proof.
  induction 1 as [| z l Hs IH Hz]; simpl; [repeat constructor |].
  destruct (Z.ltb_spec x z) as [Hlt | Hge].
  - constructor; [constructor; assumption |].
    constructor; [exact Hlt |].
    eapply Forall_impl; [| exact Hz]. intros w Hw. simpl in Hw. lia.
  - destruct (Z.eqb_spec x z) as [-> | Hne]; [constructor; assumption |].
    constructor; [exact IH |].
    rewrite Forall_forall in *. intros w Hw.
    apply insert_label_In in Hw. destruct Hw as [-> | Hw]; [lia | auto].
Qed.

Lemma sorted_set_In (l : list Z) (t : Z) : In t (sorted_set l) <-> In t l.
Proof.
  induction l as [| x l IH]; simpl; [tauto |].
  rewrite insert_label_In, IH. split; intros [H | H]; auto.
Qed.

Lemma sorted_set_sorted (l : list Z) : StronglySorted Z.lt (sorted_set l).
Proof.
  induction l as [| x l IH]; simpl; [constructor | apply insert_label_sorted; exact IH].
Qed.

Lemma series_values_reading (meters : AllMeters) (axis : list utc_datetime) (id : string) :
  series_values meters axis id
  = map (fun ts => option_map value (reading_at meters id ts)) axis.
Proof.
  unfold series_values, reading_at. apply map_ext. intros ts.
  destruct (meters_get id meters) as [series |]; [| reflexivity].
  destruct (series_get ts series); reflexivity.
Qed.

(** X16. The raw-reading payload. Its labels are strictly ascending and
    are exactly the timestamps that occur in some series of the store; both
    data vectors have the length of the labels; and at the index of a label
    each vector holds the absolute reading of its meter at that label, or
    null when the meter has no reading there. *)
Theorem build_chartjs_payload_aligned (meters : AllMeters) :
  let p := build_chartjs_payload meters in
  strictly_ascending (labels p)
  /\ (forall t, In t (labels p)
                <-> exists id series, In (id, series) meters /\ In t (od_keys series))
  /\ List.length (data_import p) = List.length (labels p)
  /\ List.length (data_export p) = List.length (labels p)
  /\ (forall i t,
         nth_error (labels p) i = Some t ->
         nth_error (data_import p) i
         = Some (option_map value (reading_at meters METER_IMPORT_ID t))
         /\ nth_error (data_export p) i
            = Some (option_map value (reading_at meters METER_EXPORT_ID t))).
Proof.
  intros p. unfold p, build_chartjs_payload. cbn [labels data_import data_export].
  set (axis := sorted_set (flat_map (fun item => od_keys (snd item)) meters)).
  rewrite !series_values_reading.
  split; [apply strict_sorted_ascending, sorted_set_sorted |].
  split; [| split; [apply length_map | split; [apply length_map |]]].
  - intros t. unfold axis. rewrite sorted_set_In, in_flat_map. split.
    + intros ([id series] & Hin & Ht). exists id, series. auto.
    + intros (id & series & Hin & Ht). exists (id, series). auto.
  - intros i t Hi. rewrite !nth_error_map, Hi. split; reflexivity.
Qed.

(** Import readings at January and March, export at February: three
    labels, the import vector is [[100, null, 130]]. *)
Lemma build_chartjs_payload_aligned_sample :
  labels (build_chartjs_payload MoreSamples.store_gaps)
  = [Samples.t_2024_01_01; Samples.t_2024_02_01; Samples.t_2024_03_01]
  /\ nth_error (data_import (build_chartjs_payload MoreSamples.store_gaps)) 1 = Some None
  /\ nth_error (data_export (build_chartjs_payload MoreSamples.store_gaps)) 1
     = Some (Some (Num.of_Z 7)).
Proof.
  assert (H : nth_error (labels (build_chartjs_payload MoreSamples.store_gaps)) 1
              = Some Samples.t_2024_02_01) by (vm_compute; reflexivity).
  split; [vm_compute; reflexivity |].
  destruct (proj2 (proj2 (proj2 (proj2
              (build_chartjs_payload_aligned MoreSamples.store_gaps)))) 1%nat _ H)
    as [H1 H2].
  split.
  - etransitivity; [exact H1 |]. vm_compute. reflexivity.
  - etransitivity; [exact H2 |]. vm_compute. reflexivity.
Defined.

Lemma in_tl (l : list Z) (t : Z) : In t (tl l) -> In t l.
Proof. destruct l; simpl; auto. Qed.

Lemma series_diffs_values (series : MeterSeries) (t : utc_datetime) (d : float) :
  In (t, Some d) (series_diffs series) ->
  Num.eqb d d = true /\ Num.ltb d Num.pos_zero = false.
Proof.
  unfold series_diffs. destruct (sorted_list (od_keys series)); [intros [] |].
  apply diffs_from_values.
Qed.

Lemma diffs_get_Some (t : utc_datetime) (d : float)
    (diffs : list (utc_datetime * option float)) :
  diffs_get t diffs = Some d -> In (t, Some d) diffs.
Proof.
  unfold diffs_get. destruct (od_get Z.eqb t diffs) as [v |] eqn:E; [| discriminate].
  intros ->. apply (od_get_In _ Z.eqb_eq). exact E.
Qed.

(** X17. The consumption payload. Its labels are strictly ascending and
    each is a timestamp of the import or of the export series; both vectors
    have the length of the labels; and no number in either vector is NaN or
    below zero: such diffs are nulls. *)
Theorem build_consumption_payload_values (meters : AllMeters) :
  let p := build_consumption_payload meters in
  strictly_ascending (labels p)
  /\ (forall t, In t (labels p) ->
                In t (od_keys (series_of METER_IMPORT_ID meters))
                \/ In t (od_keys (series_of METER_EXPORT_ID meters)))
  /\ List.length (data_import p) = List.length (labels p)
  /\ List.length (data_export p) = List.length (labels p)
  /\ (forall d, In (Some d) (data_import p) \/ In (Some d) (data_export p) ->
                Num.eqb d d = true /\ Num.ltb d Num.pos_zero = false).
Proof.
  intros p. unfold p, build_consumption_payload. cbn [labels data_import data_export].
  fold (series_of METER_IMPORT_ID meters). fold (series_of METER_EXPORT_ID meters).
  split; [apply strict_sorted_ascending, sorted_set_sorted |].
  split; [| split; [apply length_map | split; [apply length_map |]]].
  - intros t. rewrite sorted_set_In, in_app_iff, !series_diffs_keys.
    intros [H | H]; [left | right]; apply sorted_list_In, in_tl; exact H.
  - intros d [H | H]; apply in_map_iff in H; destruct H as (t & H & _);
      apply diffs_get_Some in H; eapply series_diffs_values; exact H.
Qed.

(** The import readings 100, 80, 130: the labels are February and March,
    the import vector is [[null, 50]], and 50 is a number that is neither
    NaN nor negative. *)
Lemma build_consumption_payload_values_sample :
  data_import (build_consumption_payload [(METER_IMPORT_ID, Samples.series_100_80_130)])
  = [None; Some (Num.of_Z 50)]
  /\ Num.eqb (Num.of_Z 50) (Num.of_Z 50) = true
  /\ Num.ltb (Num.of_Z 50) Num.pos_zero = false.
Proof.
  assert (H : data_import
                (build_consumption_payload [(METER_IMPORT_ID, Samples.series_100_80_130)])
              = [None; Some (Num.of_Z 50)]) by (vm_compute; reflexivity).
  split; [exact H |].
  apply (proj2 (proj2 (proj2 (proj2
           (build_consumption_payload_values
              [(METER_IMPORT_ID, Samples.series_100_80_130)])))) (Num.of_Z 50)).
  left. rewrite H. right. left. reflexivity.
Defined.

(** ** More on the timestamp normaliser *)

Lemma in_range_bounds (w : Z) : in_range w = true <-> 0 <= w <= max_wall.
Proof. unfold in_range. rewrite andb_true_iff, !Z.leb_le. tauto. Qed.

(** X18. What [ensure_datetime_utc] can do. A key it returns lies between
    0001-01-01T00:00:00 and 9999-12-31T23:59:59.999999 UTC. It raises
    [ValueError] when no format reads the text, and [OverflowError] only
    for a text with a non-zero offset, when the offset moves the instant out
    of that range; a text without offset is taken as UTC as it stands. *)
Theorem ensure_datetime_utc_outcome (s : string) :
  (forall key, ensure_datetime_utc s = Ok key -> 0 <= key <= max_wall)
  /\ (forall e,
         ensure_datetime_utc s = Raise e ->
         (e = ValueError /\ parse_datetime s = Raise ValueError)
         \/ (e = OverflowError
             /\ exists dt off,
                 parse_datetime s = Ok dt /\ tzinfo dt = Some off /\ off <> 0
                 /\ ~ 0 <= wall dt - off <= max_wall))
  /\ (forall dt,
         parse_datetime s = Ok dt -> tzinfo dt = None ->
         ensure_datetime_utc s = Ok (wall dt)).
Proof.
  destruct (parse_datetime s) as [dt | e0] eqn:E.
  - rewrite (ensure_datetime_utc_spec _ E).
    pose proof (parse_datetime_in_range _ E) as Hr.
    split; [| split].
    + intros key. destruct (in_range (utc_instant dt)) eqn:Hi; [| discriminate].
      intros H; injection H as <-. apply in_range_bounds. exact Hi.
    + intros e. destruct (in_range (utc_instant dt)) eqn:Hi; [discriminate |].
      intros H; injection H as <-. right. split; [reflexivity |].
      unfold utc_instant in Hi. destruct (tzinfo dt) as [off |] eqn:Htz; [| congruence].
      exists dt, off. split; [reflexivity |]. split; [exact Htz |]. split.
      * intros ->. rewrite Z.sub_0_r in Hi. congruence.
      * intros Hb. apply in_range_bounds in Hb. congruence.
    + intros dt' H Htz. injection H as <-.
      unfold utc_instant. rewrite Htz, Hr. reflexivity.
  - unfold ensure_datetime_utc. rewrite E. cbn [bind].
    pose proof (parse_datetime_raises _ E) as ->.
    split; [discriminate |]. split; [| discriminate].
    intros e H; injection H as <-. left. auto.
Qed.

Lemma ensure_datetime_utc_outcome_sample :
  ensure_datetime_utc "0001-01-01T00:00:00+01:00" = Raise OverflowError
  /\ exists dt off,
      parse_datetime "0001-01-01T00:00:00+01:00" = Ok dt
      /\ tzinfo dt = Some off /\ off <> 0.
Proof.
  assert (H : ensure_datetime_utc "0001-01-01T00:00:00+01:00" = Raise OverflowError)
    by (vm_compute; reflexivity).
  split; [exact H |].
  destruct (proj1 (proj2 (ensure_datetime_utc_outcome "0001-01-01T00:00:00+01:00")) _ H)
    as [[C _] | [_ (dt & off & H1 & H2 & H3 & _)]]; [discriminate C |].
  exists dt, off. auto.
Defined.

(** *** A trailing [Z] *)

Lemma chars_append (a b : string) : Str.chars (String.append a b) = Str.chars a ++ Str.chars b.
Proof.
  unfold Str.chars. induction a as [| c a IH]; simpl; [reflexivity | rewrite IH; reflexivity].
Qed.

Lemma of_chars_app (a b : list ascii) :
  Str.of_chars (a ++ b) = String.append (Str.of_chars a) (Str.of_chars b).
Proof.
  unfold Str.of_chars. induction a as [| c a IH]; simpl; [reflexivity | rewrite IH; reflexivity].
Qed.

Lemma chars_of_chars (l : list ascii) : Str.chars (Str.of_chars l) = l.
Proof. apply list_ascii_of_string_of_list_ascii. Qed.

Lemma of_chars_chars (s : string) : Str.of_chars (Str.chars s) = s.
Proof. apply string_of_list_ascii_of_string. Qed.

Lemma lstrip_app (l w : list ascii) (c : ascii) (w' : list ascii) :
  w = c :: w' -> Str.is_space c = false -> Str.lstrip (l ++ w) = Str.lstrip l ++ w.
Proof.
  intros -> Hc. induction l as [| x l IH]; simpl.
  - rewrite Hc. reflexivity.
  - destruct (Str.is_space x); [exact IH | reflexivity].
Qed.

Lemma rstrip_app (x w : list ascii) (c : ascii) (w' : list ascii) :
  rev w = c :: w' -> Str.is_space c = false -> Str.rstrip (x ++ w) = x ++ w.
Proof.
  intros Hw Hc. unfold Str.rstrip. rewrite rev_app_distr, Hw. simpl. rewrite Hc.
  change (c :: w' ++ rev x) with ((c :: w') ++ rev x).
  rewrite <- Hw, <- rev_app_distr. apply rev_involutive.
Qed.

Lemma strip_append (s w : string) (c1 : ascii) (w1 : list ascii) (c2 : ascii)
    (w2 : list ascii) :
  Str.chars w = c1 :: w1 -> Str.is_space c1 = false ->
  rev (Str.chars w) = c2 :: w2 -> Str.is_space c2 = false ->
  Str.strip (String.append s w) = String.append (Str.of_chars (Str.lstrip (Str.chars s))) w.
Proof.
  intros H1 Hc1 H2 Hc2. unfold Str.strip.
  rewrite chars_append, (lstrip_app _ H1 Hc1), (rstrip_app _ _ H2 Hc2).
  rewrite of_chars_app, of_chars_chars. reflexivity.
Qed.

Lemma digits_n_consumed (n : nat) (acc : Z) (l : list ascii) (v : Z) (r : list ascii) :
  digits_n n acc l = Some (v, r) ->
  exists c, l = c ++ r /\ Forall (fun x => Str.is_digit x = true) c.
Proof.
  revert acc l; induction n as [| n IH]; intros acc l; simpl.
  - intros H; injection H as _ <-. exists []. split; [reflexivity | constructor].
  - destruct l as [| x l]; [discriminate |].
    destruct (Str.is_digit x) eqn:Hx; [| discriminate].
    intros H. destruct (IH _ _ H) as (c & -> & Hc).
    exists (x :: c). split; [reflexivity | constructor; assumption].
Qed.

Lemma alt2_consumed lo1 hi1 lo2 hi2 l v r :
  In (v, r) (alt2 lo1 hi1 lo2 hi2 l) -> exists c, l = c ++ r /\ Forall digit_or_space c.
Proof.
  unfold alt2, digit_or_space. destruct l as [| c1 [| c2 l]]; try (intros []).
  destruct (Str.is_digit c1) eqn:H1; [| intros []].
  destruct (Str.is_digit c2) eqn:H2; [| intros []].
  destruct (_ && _); [| intros []].
  intros [H | []]. injection H as _ <-.
  exists [c1; c2]. split; [reflexivity |].
  repeat constructor; [rewrite H1 | rewrite H2]; reflexivity.
Qed.

Lemma alt1_consumed lo hi l v r :
  In (v, r) (alt1 lo hi l) -> exists c, l = c ++ r /\ Forall digit_or_space c.
Proof.
  unfold alt1, digit_or_space. destruct l as [| c1 l]; try (intros []).
  destruct (Str.is_digit c1) eqn:H1; [| intros []].
  destruct (between lo (Str.digit_val c1) hi); [| intros []].
  intros [H | []]. injection H as _ <-.
  exists [c1]. split; [reflexivity |].
  repeat constructor. rewrite H1. reflexivity.
Qed.

Lemma alt_blank_digit_consumed l v r :
  In (v, r) (alt_blank_digit l) -> exists c, l = c ++ r /\ Forall digit_or_space c.
Proof.
  unfold alt_blank_digit. destruct l as [| c0 l]; try (intros []).
  destruct (Ascii.eqb_spec c0 " ") as [-> | Hne]; [| intros []].
  intros H. apply alt1_consumed in H. destruct H as (c & -> & Hc).
  exists (" "%char :: c). split; [reflexivity |].
  constructor; [reflexivity | exact Hc].
Qed.

Lemma directive_alts_consumed d l v r :
  In (v, r) (directive_alts d l) -> exists c, l = c ++ r /\ Forall digit_or_space c.
Proof.
  destruct d; unfold directive_alts; rewrite ?in_app_iff.
  - destruct (digits_n 4 0 l) as [[v' r'] |] eqn:E; [| intros []].
    intros [H | []]. injection H as <- <-.
    destruct (digits_n_consumed _ _ _ E) as (c & -> & Hc).
    exists c. split; [reflexivity |].
    eapply Forall_impl; [| exact Hc]. intros x Hx. unfold digit_or_space.
    simpl in Hx. rewrite Hx. reflexivity.
  - intros [H | [H | H]]; eauto using alt2_consumed, alt1_consumed.
  - intros [H | [H | [H | [H | H]]]];
      eauto using alt2_consumed, alt1_consumed, alt_blank_digit_consumed.
  - intros [H | [H | H]]; eauto using alt2_consumed, alt1_consumed.
  - intros [H | H]; eauto using alt2_consumed, alt1_consumed.
  - intros [H | [H | H]]; eauto using alt2_consumed, alt1_consumed.
Qed.

Lemma blanks_consumed l r :
  In r (blanks l) -> exists c, l = c ++ r /\ Forall digit_or_space c.
Proof.
  induction l as [| x l IH]; simpl; [intros [] |].
  destruct (Str.is_space x) eqn:Hx; [| intros []].
  rewrite in_app_iff. intros [H | [<- | []]].
  - destruct (IH H) as (c & -> & Hc). exists (x :: c). split; [reflexivity |].
    constructor; [| exact Hc]. unfold digit_or_space. rewrite Hx. apply orb_true_r.
  - exists [x]. split; [reflexivity |].
    repeat constructor. unfold digit_or_space. rewrite Hx. apply orb_true_r.
Qed.

Lemma format_char_cons (t : token) (ts : list token) (c : ascii) :
  format_char ts c = true -> format_char (t :: ts) c = true.
Proof.
  unfold format_char. rewrite !orb_true_iff. intros [H | H]; [left; exact H | right].
  simpl. rewrite H. apply orb_true_r.
Qed.

Lemma digit_or_space_format (ts : list token) (c : ascii) :
  digit_or_space c -> format_char ts c = true.
Proof. unfold digit_or_space, format_char. intros ->. reflexivity. Qed.

(** Every character a match consumes is a character of the format. *)
Lemma match_tokens_consumed (ts : list token) (vals : list Z) (l : list ascii)
    (vals' : list Z) (rest : list ascii) :
  In (vals', rest) (match_tokens ts vals l) ->
  exists c, l = c ++ rest /\ Forall (fun x => format_char ts x = true) c.
Proof.
  revert vals l; induction ts as [| t ts IH]; intros vals l; simpl.
  - intros [H | []]. injection H as _ <-. exists []. split; [reflexivity | constructor].
  - destruct t as [d | c0 |].
    + rewrite in_flat_map. intros ([v r] & Hd & Hm). simpl in Hm.
      apply directive_alts_consumed in Hd. destruct Hd as (c1 & -> & Hc1).
      destruct (IH _ _ Hm) as (c2 & -> & Hc2).
      exists (c1 ++ c2). split; [rewrite app_assoc; reflexivity |].
      apply Forall_app. split.
      * eapply Forall_impl; [| exact Hc1]. intros x. apply digit_or_space_format.
      * eapply Forall_impl; [| exact Hc2]. intros x. apply format_char_cons.
    + destruct l as [| c' r]; [intros [] |].
      destruct (Str.eqb_nocase c0 c') eqn:Hc; [| intros []].
      intros Hm. destruct (IH _ _ Hm) as (c2 & -> & Hc2).
      exists (c' :: c2). split; [reflexivity |].
      constructor.
      * unfold format_char. simpl. rewrite Hc. rewrite !orb_true_r. reflexivity.
      * eapply Forall_impl; [| exact Hc2]. intros x. apply format_char_cons.
    + rewrite in_flat_map. intros (r & Hb & Hm).
      apply blanks_consumed in Hb. destruct Hb as (c1 & -> & Hc1).
      destruct (IH _ _ Hm) as (c2 & -> & Hc2).
      exists (c1 ++ c2). split; [rewrite app_assoc; reflexivity |].
      apply Forall_app. split.
      * eapply Forall_impl; [| exact Hc1]. intros x. apply digit_or_space_format.
      * eapply Forall_impl; [| exact Hc2]. intros x. apply format_char_cons.
Qed.

(** A text with a character that the format cannot consume is refused. *)
Lemma strptime_foreign_char (s : string) (fmt : list token) (c : ascii) :
  In c (Str.chars s) -> format_char fmt c = false -> strptime s fmt = Raise ValueError.
Proof.
  intros Hin Hc. unfold strptime.
  destruct (match_tokens fmt [] (Str.chars s)) as [| [vals rest] l] eqn:E; [reflexivity |].
  destruct rest as [| x rest].
  - exfalso.
    destruct (@match_tokens_consumed fmt [] (Str.chars s) vals [])
      as (cs & Hcs & Hall); [rewrite E; left; reflexivity |].
    rewrite app_nil_r in Hcs. subst cs.
    rewrite Forall_forall in Hall. specialize (Hall c Hin). congruence.
  - destruct vals as [| y [| mo [| d [| h [| mi [| sec [| z vals]]]]]]]; reflexivity.
Qed.

Lemma parse_datetime_suffix (s w : string) (c : ascii) :
  In c (Str.chars w) -> format_char fmt_T c = false -> format_char fmt_blank c = false ->
  forall iso,
    (let t := Str.strip (String.append s w) in
     if Str.endswith t "Z" then String.append (Str.drop_last t) "+00:00" else t) = iso ->
    parse_datetime (String.append s w)
    = try_except (fromisoformat iso) is_ValueError (Raise ValueError).
Proof.
  intros Hin H1 H2 iso Hiso. unfold parse_datetime. cbv zeta in Hiso. rewrite Hiso.
  assert (Hc : In c (Str.chars (String.append s w)))
    by (rewrite chars_append; apply in_or_app; right; exact Hin).
  rewrite (@strptime_foreign_char _ fmt_T c Hc H1), (@strptime_foreign_char _ fmt_blank c Hc H2).
  reflexivity.
Qed.

(** X19. A trailing [Z] stands for UTC: a text that ends in [Z] is
    normalised exactly as the same text with [+00:00] in its place, to the
    same key or to the same exception. *)
Theorem ensure_datetime_utc_trailing_Z (s : string) :
  ensure_datetime_utc (String.append s "Z") = ensure_datetime_utc (String.append s "+00:00").
Proof.
  set (body := Str.of_chars (Str.lstrip (Str.chars s))).
  assert (HZ : Str.strip (String.append s "Z") = String.append body "Z")
    by (apply (@strip_append s "Z" "Z" [] "Z" []); reflexivity).
  assert (HP : Str.strip (String.append s "+00:00") = String.append body "+00:00")
    by (apply (@strip_append s "+00:00" "+" (Str.chars "00:00") "0" (rev (Str.chars "+00:0")));
        reflexivity).
  assert (EZ : Str.endswith (String.append body "Z") "Z" = true).
  { unfold Str.endswith. rewrite chars_append, rev_app_distr. reflexivity. }
  assert (EP : Str.endswith (String.append body "+00:00") "Z" = false).
  { unfold Str.endswith. rewrite chars_append, rev_app_distr. reflexivity. }
  assert (DZ : Str.drop_last (String.append body "Z") = body).
  { unfold Str.drop_last. rewrite chars_append.
    change (Str.chars "Z") with ["Z"%char]. rewrite removelast_last.
    unfold body. rewrite chars_of_chars. reflexivity. }
  unfold ensure_datetime_utc.
  rewrite (@parse_datetime_suffix s "Z" "Z" ltac:(left; reflexivity) eq_refl eq_refl
             (String.append body "+00:00"))
    by (cbv zeta; rewrite HZ, EZ, DZ; reflexivity).
  rewrite (@parse_datetime_suffix s "+00:00" "+" ltac:(left; reflexivity) eq_refl eq_refl
             (String.append body "+00:00"))
    by (cbv zeta; rewrite HP, EP; reflexivity).
  reflexivity.
Qed.

(** *** Texts in ISO form *)


































(** ** Periods that add nothing *)

Lemma for_each_skip {A S : Type} (body : A -> S -> Exc S) (l : list A) (s : S) :
  (forall a, In a l -> body a s = Ok s) -> for_each body l s = Ok s.
Proof.
  induction l as [| a l IH]; intros H; simpl; [reflexivity |].
  rewrite (H a (or_introl eq_refl)). cbn [bind]. apply IH.
  intros b Hb. apply H. right; exact Hb.
Qed.

(** X20. A document whose period containers all lack an end marker (no
    [end] or [End] attribute, or empty ones) is still Dialect A: the parser
    returns [True], and the store is exactly as it was. *)
Theorem parse_esl_file_without_end_markers (root : Element) (meters : AllMeters) :
  time_periods root <> [] ->
  (forall tp, In tp (time_periods root) -> truthy (end_attr tp) = false) ->
  parse_esl_file (Document root) meters = Ok (true, meters).
Proof.
  intros Hne Hend. rewrite (@parse_esl_file_nonempty root meters Hne).
  rewrite for_each_skip; [reflexivity |].
  intros tp Hin. rewrite esl_time_period_spec.
  specialize (Hend tp Hin). destruct (end_attr tp) as [[| a s] |]; try reflexivity.
  discriminate.
Qed.

Lemma parse_esl_file_without_end_markers_sample :
  parse_esl_file Samples.esl_without_end Samples.relative_only_store
  = Ok (true, Samples.relative_only_store).
Proof.
  apply parse_esl_file_without_end_markers.
  - vm_compute. discriminate.
  - intros tp Hin. vm_compute in Hin. destruct Hin as [<- | []]. reflexivity.
Defined.

(** X21. No zero is emitted for a class without rows: a period in which no
    import row was added leaves the import series as it was, and a period
    in which no export row was added leaves the export series as it was. *)
Theorem esl_time_period_absent_class (tp : Element) (meters meters' : AllMeters) :
  esl_time_period tp meters = Ok meters' ->
  (import_values (value_rows tp) = [] ->
   meters_get METER_IMPORT_ID meters' = meters_get METER_IMPORT_ID meters)
  /\ (export_values (value_rows tp) = [] ->
      meters_get METER_EXPORT_ID meters' = meters_get METER_EXPORT_ID meters).
Proof.
  rewrite esl_time_period_spec.
  destruct (end_attr tp) as [[| a s] |];
    try (intros H; injection H as <-; split; reflexivity).
  destruct (ensure_datetime_utc (String a s)) as [ts |]; [| discriminate].
  cbn [bind]. intros H; injection H as <-. unfold period_updates. split; intros ->;
    cbn [List.length Nat.eqb negb app].
  - destruct (negb _); cbn [apply_updates fold_left]; [| reflexivity].
    apply meters_get_apply_update_other. discriminate.
  - rewrite app_nil_r.
    destruct (negb _); cbn [apply_updates fold_left]; [| reflexivity].
    apply meters_get_apply_update_other. discriminate.
Qed.

(** A period with export rows only: an export reading, no import meter. *)
Lemma esl_time_period_absent_class_sample :
  let tp := Samples.time_period "2024-02-01T00:00:00Z" [Samples.value_row "1-1:2.8.1" "7"] in
  esl_time_period tp []
  = Ok [(METER_EXPORT_ID, [Samples.reading Samples.t_2024_02_01 (Num.of_Z 7)])]
  /\ import_values (value_rows tp) = []
  /\ meters_get METER_IMPORT_ID
       [(METER_EXPORT_ID, [Samples.reading Samples.t_2024_02_01 (Num.of_Z 7)])] = None.
Proof.
  intros tp.
  assert (H : esl_time_period tp []
              = Ok [(METER_EXPORT_ID, [Samples.reading Samples.t_2024_02_01 (Num.of_Z 7)])])
    by (vm_compute; reflexivity).
  assert (Hi : import_values (value_rows tp) = []) by (vm_compute; reflexivity).
  split; [exact H |]. split; [exact Hi |].
  exact (proj1 (@esl_time_period_absent_class tp [] _ H) Hi).
Defined.
